(** * Patent pipeline: a shallow embedding of the five stage scripts

    The development follows the scripts under [scripts/]:
    - [01_get_patents.py]     identity keys, the chunked JSON store, the
                              scraping worker with retries;
    - [02_get_edtech.py]      the education-relevance classifier;
    - [03_get_description.py] the page fetcher with its [/en] fallback;
    - [04_edtech_classidied.py] the taxonomy classifier;
    - [05_check_is_covid.py]  the pandemic-relevance classifier.

    Conventions of the embedding.
    - Python [str] is [string]; the text functions ([strip], [upper], the
      regular expressions) are given for 7-bit text: a character above 127
      is neither white space nor a letter.
    - A Python exception is a [Raise] result; a function that cannot raise
      returns its value directly.
    - A dict read from CSV or JSON is a finite map from field names to
      [value]s; a dict produced by the JSON parser keeps its source order
      as an association list.
    - The network (scraper, HTTP session, chat client) is an oracle indexed
      by the number of the call; sleeps are recorded in a log. *)

From Stdlib Require Import ZArith Lia Ascii String List Bool.
From stdpp Require Import base strings list gmap sorting pretty.

Local Open Scope Z_scope.

(** ** Exceptions *)

(** An exception with its message ([str(e)]). [Failure] is any exception
    raised by a collaborator (scraper, HTTP session, chat client). *)
Inductive exn : Type :=
| AttributeError (msg : string)
| TypeError (msg : string)
| ValueError (msg : string)
| JSONDecodeError (msg : string)
| Failure (msg : string).

Definition exn_str (e : exn) : string :=
  match e with
  | AttributeError m | TypeError m | ValueError m | JSONDecodeError m | Failure m => m
  end.

Inductive result (A : Type) : Type :=
| Ok (a : A)
| Raise (e : exn).
Arguments Ok {A} a.
Arguments Raise {A} e.

Global Instance result_ret : MRet result := fun A a => Ok a.
Global Instance result_bind : MBind result := fun A B f m =>
  match m with
  | Ok a => f a
  | Raise e => Raise e
  end.

Definition returns {A} (m : result A) : Prop := exists a, m = Ok a.

(** ** Text *)

Module Py.

(** [str.isspace] on one character; also the class [\s] of [re]. *)
Definition is_space (c : ascii) : bool :=
  let n := nat_of_ascii c in
  ((9 <=? n)%nat && (n <=? 13)%nat) || ((28 <=? n)%nat && (n <=? 32)%nat).

Fixpoint lstrip (s : string) : string :=
  match s with
  | String c s' => if is_space c then lstrip s' else s
  | EmptyString => EmptyString
  end.

Fixpoint rstrip (s : string) : string :=
  match s with
  | String c s' =>
      match rstrip s' with
      | EmptyString => if is_space c then EmptyString else String c EmptyString
      | r => String c r
      end
  | EmptyString => EmptyString
  end.

Definition strip (s : string) : string := rstrip (lstrip s).

Definition upper_char (c : ascii) : ascii :=
  let n := nat_of_ascii c in
  if ((97 <=? n)%nat && (n <=? 122)%nat) then ascii_of_nat (n - 32) else c.

Fixpoint upper (s : string) : string :=
  match s with
  | String c s' => String (upper_char c) (upper s')
  | EmptyString => EmptyString
  end.

Fixpoint remove_chars (p : ascii -> bool) (s : string) : string :=
  match s with
  | String c s' => if p c then remove_chars p s' else String c (remove_chars p s')
  | EmptyString => EmptyString
  end.

Definition nonempty (s : string) : bool :=
  match s with EmptyString => false | _ => true end.

Fixpoint strip_prefix (p s : string) : option string :=
  match p, s with
  | EmptyString, _ => Some s
  | String a p', String b s' => if Ascii.eqb a b then strip_prefix p' s' else None
  | String _ _, EmptyString => None
  end.

Definition startswith (s p : string) : bool :=
  match strip_prefix p s with Some _ => true | None => false end.

Fixpoint last_char (s : string) : option ascii :=
  match s with
  | EmptyString => None
  | String c EmptyString => Some c
  | String _ s' => last_char s'
  end.

(** [s.endswith(c)] for a one-character suffix. *)
Definition endswith_char (s : string) (c : ascii) : bool :=
  match last_char s with Some d => Ascii.eqb c d | None => false end.

Fixpoint lstrip_char (c : ascii) (s : string) : string :=
  match s with
  | String d s' => if Ascii.eqb c d then lstrip_char c s' else s
  | EmptyString => EmptyString
  end.

Fixpoint rstrip_char (c : ascii) (s : string) : string :=
  match s with
  | String d s' =>
      match rstrip_char c s' with
      | EmptyString => if Ascii.eqb c d then EmptyString else String d EmptyString
      | r => String d r
      end
  | EmptyString => EmptyString
  end.

(** [s.strip(c)] for a one-character set. *)
Definition strip_char (c : ascii) (s : string) : string :=
  rstrip_char c (lstrip_char c s).

Fixpoint join (sep : string) (l : list string) : string :=
  match l with
  | [] => EmptyString
  | [x] => x
  | x :: l' => x +:+ sep +:+ join sep l'
  end.

Fixpoint contains_char (c : ascii) (s : string) : bool :=
  match s with
  | String d s' => Ascii.eqb c d || contains_char c s'
  | EmptyString => false
  end.

End Py.

(** ** Regular expressions

    The patterns of the scripts are built from the combinators below, each
    written in continuation-passing style so that the priorities of the
    backtracking matcher of [re] are kept: a greedy star tries the longer
    match first, a lazy star the shorter one, and [search] returns the
    match with the leftmost start. *)

Module Re.
Section Combinators.
Context {A : Type}.
Definition cont := string -> option A.

(** a literal *)
Definition lit (p : string) (k : cont) : cont := fun s =>
  match Py.strip_prefix p s with
  | Some r => k r
  | None => None
  end.

(** [(?:p)?] *)
Definition opt_lit (p : string) (k : cont) : cont := fun s =>
  match lit p k s with
  | Some x => Some x
  | None => k s
  end.

(** [c*] for a character class [c] *)
Fixpoint star (c : ascii -> bool) (k : cont) (s : string) : option A :=
  match s with
  | String a s' =>
      if c a then
        match star c k s' with
        | Some x => Some x
        | None => k s
        end
      else k s
  | EmptyString => k s
  end.

(** [c+] *)
Definition plus (c : ascii -> bool) (k : cont) : cont := fun s =>
  match s with
  | String a s' => if c a then star c k s' else None
  | EmptyString => None
  end.

(** [c*?] *)
Fixpoint star_lazy (c : ascii -> bool) (k : cont) (s : string) : option A :=
  match k s with
  | Some x => Some x
  | None =>
      match s with
      | String a s' => if c a then star_lazy c k s' else None
      | EmptyString => None
      end
  end.

(** [re.search]: the first start position, from the left, with a match *)
Fixpoint search (m : cont) (s : string) : option A :=
  match m s with
  | Some x => Some x
  | None =>
      match s with
      | String _ s' => search m s'
      | EmptyString => None
      end
  end.
End Combinators.

(** The text a group matched: what lies between the input at the start
    of the group and the input left at its end. *)
Definition captured (start rest : string) : string :=
  String.substring 0 (String.length start - String.length rest) start.

(** [.] under [re.DOTALL] *)
Definition any_char (_ : ascii) : bool := true.

Definition not_slash (c : ascii) : bool := negb (Ascii.eqb c "/").

Definition backticks : string := "```".

(** [/patent/([^/]+)/], group 1 *)
Definition patent_id : string -> option string :=
  search (lit "/patent/" (fun g =>
    plus not_slash (fun r => lit "/" (fun _ => Some (captured g r)) r) g)).

(** The fence pattern of the classifiers, group 1: three backticks, an
    optional [json], white space, an object text from an opening to a
    closing brace, white space, three backticks. [inner] is the star
    between the braces: lazy in scripts 02 and 05, greedy in script 04. *)
Definition fenced_object
    (inner : (ascii -> bool) -> @cont string -> @cont string) : string -> option string :=
  search (lit backticks (opt_lit "json" (star Py.is_space (fun g =>
    lit "{" (inner any_char (lit "}" (fun r =>
      star Py.is_space (lit backticks (fun _ => Some (captured g r))) r))) g)))).

(** Three backticks, any text (as short as possible, group 1), three
    backticks. *)
Definition fenced_any : string -> option string :=
  search (lit backticks (fun g =>
    star_lazy any_char (fun r => lit backticks (fun _ => Some (captured g r)) r) g)).

(** [k in s] for two texts *)
Definition occurs (k s : string) : bool :=
  match search (lit k (fun _ => Some tt)) s with
  | Some _ => true
  | None => false
  end.
End Re.

(** ** Python values *)

Definition dquote : ascii := "034"%char.
Definition squote : ascii := "039"%char.
Definition backslash : ascii := "092"%char.
Definition newline : ascii := "010"%char.

(** Writes a text with double quotes from one typed with single quotes. *)
Fixpoint dq (s : string) : string :=
  match s with
  | String c s' => String (if Ascii.eqb c squote then dquote else c) (dq s')
  | EmptyString => EmptyString
  end.

(** The values of the cells of a CSV row and of the fields of a JSON
    record. A float is known by its rendering ([str(x)], or the number as
    it stands in a JSON text). *)
#[warnings="-register-all"]
Inductive value : Type :=
| VNone
| VBool (b : bool)
| VInt (z : Z)
| VFloat (repr : string)
| VStr (s : string)
| VList (l : list value)
| VDict (d : list (string * value)).

Module Value.

Definition is_digit (c : ascii) : bool :=
  let n := nat_of_ascii c in (48 <=? n)%nat && (n <=? 57)%nat.

(** the digits of a float rendering before its exponent *)
Fixpoint mantissa_digits (r : string) : list ascii :=
  match r with
  | String c r' =>
      if Ascii.eqb c "e" || Ascii.eqb c "E" then []
      else if is_digit c then c :: mantissa_digits r'
      else mantissa_digits r'
  | EmptyString => []
  end.

Definition float_is_zero (r : string) : bool :=
  match mantissa_digits r with
  | [] => false
  | ds => forallb (fun c => Ascii.eqb c "0") ds
  end.

(** [bool(v)] *)
Definition truthy (v : value) : bool :=
  match v with
  | VNone => false
  | VBool b => b
  | VInt z => negb (z =? 0)
  | VFloat r => negb (float_is_zero r)
  | VStr s => Py.nonempty s
  | VList l => match l with [] => false | _ => true end
  | VDict d => match d with [] => false | _ => true end
  end.

(** [a or b] *)
Definition or_ (a b : value) : value := if truthy a then a else b.

Definition hex_char (n : nat) : ascii :=
  if (n <? 10)%nat then ascii_of_nat (48 + n) else ascii_of_nat (87 + n).

Definition hex2 (n : nat) : string :=
  String (hex_char (n / 16)) (String (hex_char (n mod 16)) EmptyString).

Definition repr_char (q c : ascii) : string :=
  let n := nat_of_ascii c in
  if Ascii.eqb c backslash then String backslash (String backslash EmptyString)
  else if Ascii.eqb c q then String backslash (String q EmptyString)
  else if Ascii.eqb c newline then String backslash "n"
  else if Ascii.eqb c "013" then String backslash "r"
  else if Ascii.eqb c "009" then String backslash "t"
  else if (n <? 32)%nat || (n =? 127)%nat then String backslash ("x" +:+ hex2 n)
  else String c EmptyString.

Fixpoint repr_chars (q : ascii) (s : string) : string :=
  match s with
  | String c s' => repr_char q c +:+ repr_chars q s'
  | EmptyString => EmptyString
  end.

(** [repr] of a [str] *)
Definition repr_str (s : string) : string :=
  let q := if Py.contains_char squote s && negb (Py.contains_char dquote s)
           then dquote else squote in
  String q (repr_chars q s +:+ String q EmptyString).

(** [repr(v)] *)
Fixpoint repr (v : value) : string :=
  match v with
  | VNone => "None"
  | VBool true => "True"
  | VBool false => "False"
  | VInt z => pretty z
  | VFloat r => r
  | VStr s => repr_str s
  | VList l => "[" +:+ Py.join ", " (map repr l) +:+ "]"
  | VDict d =>
      "{" +:+ Py.join ", " (map (fun kv => repr_str (fst kv) +:+ ": " +:+ repr (snd kv)) d)
          +:+ "}"
  end.

(** [str(v)] *)
Definition str (v : value) : string :=
  match v with
  | VStr s => s
  | _ => repr v
  end.

(** [d[k]] for a dict made by the JSON parser: of two members with the
    same name the later one stays. *)
Fixpoint assoc (d : list (string * value)) (k : string) : option value :=
  match d with
  | [] => None
  | (k', v) :: d' =>
      match assoc d' k with
      | Some x => Some x
      | None => if String.eqb k k' then Some v else None
      end
  end.

End Value.

(** A CSV row, and a record of a JSON file: [dict] with [str] keys. *)
Abbreviation dict := (gmap string value).

(** [d.get(k, default)] *)
Definition get (d : dict) (k : string) (default : value) : value :=
  match d !! k with
  | Some v => v
  | None => default
  end.

(** ** The [json] module *)

Module Json.

Definition is_ws (c : ascii) : bool :=
  Ascii.eqb c " " || Ascii.eqb c "009" || Ascii.eqb c "010" || Ascii.eqb c "013".

Fixpoint skip_ws (s : string) : string :=
  match s with
  | String c s' => if is_ws c then skip_ws s' else s
  | EmptyString => EmptyString
  end.

Definition hex_digit (c : ascii) : option N :=
  let n := N_of_ascii c in
  if ((48 <=? n) && (n <=? 57))%N then Some (n - 48)%N
  else if ((97 <=? n) && (n <=? 102))%N then Some (n - 87)%N
  else if ((65 <=? n) && (n <=? 70))%N then Some (n - 55)%N
  else None.

Definition hex4 (s : string) : option (N * string) :=
  match s with
  | String a (String b (String c (String d r))) =>
      match hex_digit a, hex_digit b, hex_digit c, hex_digit d with
      | Some x, Some y, Some z, Some w => Some ((((x * 16 + y) * 16 + z) * 16 + w)%N, r)
      | _, _, _, _ => None
      end
  | _ => None
  end.

(** UTF-8 bytes of a code point *)
Definition utf8 (n : N) : string :=
  let b (k : N) := ascii_of_N k in
  (if n <? 128 then String (b n) EmptyString
   else if n <? 2048 then
     String (b (192 + n / 64)) (String (b (128 + n mod 64)) EmptyString)
   else if n <? 65536 then
     String (b (224 + n / 4096))
       (String (b (128 + (n / 64) mod 64)) (String (b (128 + n mod 64)) EmptyString))
   else
     String (b (240 + n / 262144))
       (String (b (128 + (n / 4096) mod 64))
          (String (b (128 + (n / 64) mod 64)) (String (b (128 + n mod 64)) EmptyString))))%N.

Definition simple_escape (e : ascii) : option ascii :=
  if Ascii.eqb e dquote then Some dquote
  else if Ascii.eqb e backslash then Some backslash
  else if Ascii.eqb e "/" then Some "/"%char
  else if Ascii.eqb e "b" then Some "008"%char
  else if Ascii.eqb e "f" then Some "012"%char
  else if Ascii.eqb e "n" then Some "010"%char
  else if Ascii.eqb e "r" then Some "013"%char
  else if Ascii.eqb e "t" then Some "009"%char
  else None.

Definition prepend (p : string) (r : option (string * string)) : option (string * string) :=
  match r with
  | Some (s, rest) => Some (p +:+ s, rest)
  | None => None
  end.

(** A [\uXXXX] escape whose digits are read, with the low half of a
    surrogate pair when one follows. *)
Definition code_point (n : N) (r : string) : N * string :=
  if ((55296 <=? n) && (n <=? 56319))%N then
    match r with
    | String c1 (String c2 r') =>
        if Ascii.eqb c1 backslash && Ascii.eqb c2 "u" then
          match hex4 r' with
          | Some (m, r'') =>
              if ((56320 <=? m) && (m <=? 57343))%N
              then ((65536 + (n - 55296) * 1024 + (m - 56320))%N, r'')
              else (n, r)
          | None => (n, r)
          end
        else (n, r)
    | _ => (n, r)
    end
  else (n, r).

(** The text of a string after its opening quote: the decoded text and
    what follows the closing quote. Control characters are refused
    ([strict=True]). *)
Fixpoint scan_string (fuel : nat) (s : string) : option (string * string) :=
  match fuel with
  | O => None
  | S f =>
      match s with
      | EmptyString => None
      | String c r =>
          if Ascii.eqb c dquote then Some (EmptyString, r)
          else if Ascii.eqb c backslash then
            match r with
            | String e r' =>
                if Ascii.eqb e "u" then
                  match hex4 r' with
                  | Some (n, r2) =>
                      let '(cp, r3) := code_point n r2 in
                      prepend (utf8 cp) (scan_string f r3)
                  | None => None
                  end
                else
                  match simple_escape e with
                  | Some d => prepend (String d EmptyString) (scan_string f r')
                  | None => None
                  end
            | EmptyString => None
            end
          else if (N_of_ascii c <? 32)%N then None
          else prepend (String c EmptyString) (scan_string f r)
      end
  end.

Fixpoint digits (s : string) : string * string :=
  match s with
  | String c s' =>
      if Value.is_digit c then let '(d, r) := digits s' in (String c d, r)
      else (EmptyString, s)
  | EmptyString => (EmptyString, EmptyString)
  end.

Fixpoint Z_of_digits (acc : Z) (s : string) : Z :=
  match s with
  | String c s' => Z_of_digits (10 * acc + (Z.of_nat (nat_of_ascii c) - 48)) s'
  | EmptyString => acc
  end.

(** A number: an optional sign, an integer part without leading zero,
    an optional fraction, an optional exponent. Without fraction and
    exponent it is an [int], else a [float]. *)
Definition scan_number (s : string) : option (value * string) :=
  let '(neg, s1) := match s with
                    | String "-"%char s' => (true, s')
                    | _ => (false, s)
                    end in
  let '(ip, s2) := match s1 with
                   | String "0"%char s' => ("0", s')
                   | _ => digits s1
                   end in
  if negb (Py.nonempty ip) then None else
  let '(fp, s3) := match s2 with
                   | String "."%char s' =>
                       let '(d, r) := digits s' in
                       if Py.nonempty d then (String "."%char d, r) else (EmptyString, s2)
                   | _ => (EmptyString, s2)
                   end in
  let '(ep, s4) := match s3 with
                   | String e s' =>
                       if Ascii.eqb e "e" || Ascii.eqb e "E" then
                         let '(sg, s'') := match s' with
                                           | String "+"%char t => ("+", t)
                                           | String "-"%char t => ("-", t)
                                           | _ => (EmptyString, s')
                                           end in
                         let '(d, r) := digits s'' in
                         if Py.nonempty d then (String e (sg +:+ d), r) else (EmptyString, s3)
                       else (EmptyString, s3)
                   | EmptyString => (EmptyString, s3)
                   end in
  let sign := if neg then "-" else EmptyString in
  if Py.nonempty fp || Py.nonempty ep
  then Some (VFloat (sign +:+ ip +:+ fp +:+ ep), s4)
  else Some (VInt (if neg then - Z_of_digits 0 ip else Z_of_digits 0 ip), s4).

Definition scan_literal (s : string) : option (value * string) :=
  match Py.strip_prefix "null" s with Some r => Some (VNone, r) | None =>
  match Py.strip_prefix "true" s with Some r => Some (VBool true, r) | None =>
  match Py.strip_prefix "false" s with Some r => Some (VBool false, r) | None =>
  match Py.strip_prefix "NaN" s with Some r => Some (VFloat "NaN", r) | None =>
  match Py.strip_prefix "Infinity" s with Some r => Some (VFloat "Infinity", r) | None =>
  match Py.strip_prefix "-Infinity" s with Some r => Some (VFloat "-Infinity", r) | None =>
  scan_number s
  end end end end end end.

(** One value at the head of [s]; [members] and [items] read the rest of
    an object after a member name's opening quote and the rest of an
    array at an item. *)
Fixpoint scan_value (fuel : nat) (s : string) : option (value * string) :=
  match fuel with
  | O => None
  | S f =>
      match s with
      | String c r =>
          if Ascii.eqb c dquote then
            match scan_string (String.length r + 1) r with
            | Some (t, r') => Some (VStr t, r')
            | None => None
            end
          else if Ascii.eqb c "{" then
            match skip_ws r with
            | String c' r' =>
                if Ascii.eqb c' "}" then Some (VDict [], r')
                else if Ascii.eqb c' dquote then
                  match members f r' [] with
                  | Some (d, r'') => Some (VDict d, r'')
                  | None => None
                  end
                else None
            | EmptyString => None
            end
          else if Ascii.eqb c "[" then
            match skip_ws r with
            | String c' r' =>
                if Ascii.eqb c' "]" then Some (VList [], r')
                else
                  match items f (String c' r') [] with
                  | Some (l, r'') => Some (VList l, r'')
                  | None => None
                  end
            | EmptyString => None
            end
          else scan_literal s
      | EmptyString => None
      end
  end
with members (fuel : nat) (s : string) (acc : list (string * value))
  : option (list (string * value) * string) :=
  match fuel with
  | O => None
  | S f =>
      match scan_string (String.length s + 1) s with
      | Some (k, r) =>
          match skip_ws r with
          | String c r1 =>
              if Ascii.eqb c ":" then
                match scan_value f (skip_ws r1) with
                | Some (v, r2) =>
                    match skip_ws r2 with
                    | String c' r3 =>
                        if Ascii.eqb c' "}" then Some (rev ((k, v) :: acc), r3)
                        else if Ascii.eqb c' "," then
                          match skip_ws r3 with
                          | String c'' r4 =>
                              if Ascii.eqb c'' dquote
                              then members f r4 ((k, v) :: acc)
                              else None
                          | EmptyString => None
                          end
                        else None
                    | EmptyString => None
                    end
                | None => None
                end
              else None
          | EmptyString => None
          end
      | None => None
      end
  end
with items (fuel : nat) (s : string) (acc : list value)
  : option (list value * string) :=
  match fuel with
  | O => None
  | S f =>
      match scan_value f s with
      | Some (v, r) =>
          match skip_ws r with
          | String c r1 =>
              if Ascii.eqb c "]" then Some (rev (v :: acc), r1)
              else if Ascii.eqb c "," then items f (skip_ws r1) (v :: acc)
              else None
          | EmptyString => None
          end
      | None => None
      end
  end.

(** [json.loads(s)]; [None] stands for [JSONDecodeError]. *)
Definition loads (s : string) : option value :=
  match scan_value (String.length s + 1) (skip_ws s) with
  | Some (v, r) => match skip_ws r with EmptyString => Some v | _ => None end
  | None => None
  end.

Definition dumps_char (c : ascii) : string :=
  let n := nat_of_ascii c in
  if Ascii.eqb c dquote then String backslash (String dquote EmptyString)
  else if Ascii.eqb c backslash then String backslash (String backslash EmptyString)
  else if Ascii.eqb c "010" then String backslash "n"
  else if Ascii.eqb c "013" then String backslash "r"
  else if Ascii.eqb c "009" then String backslash "t"
  else if Ascii.eqb c "012" then String backslash "f"
  else if Ascii.eqb c "008" then String backslash "b"
  else if (n <? 32)%nat || (n =? 127)%nat then String backslash ("u00" +:+ Value.hex2 n)
  else String c EmptyString.

Fixpoint dumps_chars (s : string) : string :=
  match s with
  | String c s' => dumps_char c +:+ dumps_chars s'
  | EmptyString => EmptyString
  end.

Definition dumps_str (s : string) : string :=
  String dquote (dumps_chars s +:+ String dquote EmptyString).

(** [json.dumps(v)] with the default separators. Characters above 127
    are written as they are, where [json.dumps] writes [\u] escapes;
    [loads] reads both as the same text. *)
Fixpoint dumps (v : value) : string :=
  match v with
  | VNone => "null"
  | VBool true => "true"
  | VBool false => "false"
  | VInt z => pretty z
  | VFloat r => r
  | VStr s => dumps_str s
  | VList l => "[" +:+ Py.join ", " (map dumps l) +:+ "]"
  | VDict d =>
      "{" +:+ Py.join ", " (map (fun kv => dumps_str (fst kv) +:+ ": " +:+ dumps (snd kv)) d)
          +:+ "}"
  end.

End Json.

(** ** Operations on [value]s that may raise *)

Definition type_name (v : value) : string :=
  match v with
  | VNone => "NoneType"
  | VBool _ => "bool"
  | VInt _ => "int"
  | VFloat _ => "float"
  | VStr _ => "str"
  | VList _ => "list"
  | VDict _ => "dict"
  end.

Definition no_attribute (v : value) (attr : string) : exn :=
  AttributeError ("'" +:+ type_name v +:+ "' object has no attribute '" +:+ attr +:+ "'").

(** [v.strip()] *)
Definition strip_ (v : value) : result string :=
  match v with
  | VStr s => Ok (Py.strip s)
  | _ => Raise (no_attribute v "strip")
  end.

(** [re.search(pattern, v)] for a pattern [p] *)
Definition re_search {A} (p : string -> option A) (v : value) : result (option A) :=
  match v with
  | VStr s => Ok (p s)
  | _ => Raise (TypeError ("expected string or bytes-like object, got '" +:+ type_name v +:+ "'"))
  end.

(** What the scripts do besides computing: calls to the collaborator of
    the stage, numbered, and sleeps with their duration in seconds. *)
Inductive event : Type :=
| Call (n : nat)
| Sleep (seconds : Z)
| HttpGet (url : string).

(** ** [01_get_patents.py] *)

Module S01.

Definition CHUNK_SIZE : Z := 1000.
Definition MAX_RETRIES : nat := 3.
Definition RETRY_DELAY : Z := 2.

Definition extract_patent_id (url : value) : result string :=
  if negb (Value.truthy url) then Ok EmptyString
  else
    m ← re_search Re.patent_id url;
    Ok (match m with Some g => Py.strip g | None => EmptyString end).

Definition normalize_id (pid : value) : result string :=
  s ← strip_ pid;
  Ok (Py.remove_chars (fun c => Py.is_space c || Ascii.eqb c "-") (Py.upper s)).

Definition get_csv_patent_id (row : dict) : result string :=
  let pid := Py.strip (Value.str (Value.or_ (get row "id" (VStr "")) (VStr ""))) in
  if Py.nonempty pid then normalize_id (VStr pid)
  else
    pid ← extract_patent_id (get row "result link" (VStr ""));
    if Py.nonempty pid then normalize_id (VStr pid) else Ok EmptyString.

(** *** The scraping worker *)

(** One call of [scraper.request_single_patent] followed by
    [scraper.get_scraped_data]: either of them raises, or the request
    answers with a status, a final URL and the data read off the page. *)
Inductive scrape : Type :=
| ScrapeRaises (e : exn)
| Scraped (err : string) (final_url : value) (data : dict).

Definition error_row (pid : string) (fields : list (string * value)) : dict :=
  list_to_map (("id", VStr pid) :: fields).

(** The body of the [try] of [process_row] at one attempt. *)
Definition attempt (scraper : nat -> scrape) (row : dict) (pid url : string) (n : nat)
  : result dict :=
  match scraper n with
  | ScrapeRaises e => Raise e
  | Scraped err final_url data =>
      if negb (String.eqb err "Success") then Raise (ValueError ("HTTP error: " +:+ err))
      else
        id ← normalize_id (get row "id" (VStr pid));
        Ok (<["original_id" := get row "id" (VStr "")]>
            (<["csv_title" := get row "title" (VStr "")]>
             (<["url" := Value.or_ final_url (VStr url)]>
              (<["id" := VStr id]> data))))
  end.

(** The [for attempt in range(...)] loop over the attempts still to
    make; the log is kept latest event first. *)
Fixpoint retry (scraper : nat -> scrape) (row : dict) (pid url : string)
    (attempts : list nat) (log : list event) : option dict * list event :=
  match attempts with
  | [] => (None, log)
  | n :: rest =>
      match attempt scraper row pid url n with
      | Ok data => (Some data, Call n :: log)
      | Raise e =>
          if (n <? MAX_RETRIES)%nat then
            let delay := RETRY_DELAY * 2 ^ (Z.of_nat n - 1) in
            retry scraper row pid url rest (Sleep delay :: Call n :: log)
          else
            (Some (error_row pid [("url", VStr url); ("error", VStr (exn_str e))]),
             Call n :: log)
      end
  end.

(** [process_row]: the returned dict ([None] when the loop ends without
    a [return]) and the events in the order they happened. *)
Definition process_row (scraper : nat -> scrape) (row : dict)
  : result (option dict * list event) :=
  pid ← get_csv_patent_id row;
  url ← strip_ (get row "result link" (VStr ""));
  if negb (Py.nonempty url) || negb (Py.nonempty pid)
  then Ok (Some (error_row pid [("error", VStr "Missing URL or ID")]), [])
  else
    let '(r, log) := retry scraper row pid url (seq 1 MAX_RETRIES) [] in
    Ok (r, rev log).

(** *** The chunked store *)

(** A chunk file: a JSON array of records, or a text [json.load] fails
    on. *)
Inductive file : Type :=
| Parsed (arr : list dict)
| Unparsable.

(** The output folder: the chunk files by the number in their name, and
    the temporary files by the number of the chunk they are written
    for. *)
Record folder : Type := {
  chunks : gmap Z file;
  tmps : gmap Z file;
}.

Definition index_le (a b : Z * file) : Prop := a.1 ≤ b.1.
Global Instance index_le_dec : RelDecision index_le.
Proof. intros a b. unfold index_le. apply _. Defined.

(** [(index, file)] by ascending index *)
Definition list_existing_json (fd : folder) : list (Z * file) :=
  merge_sort index_le (map_to_list (chunks fd)).

(** The body of [for entry in arr]. *)
Definition scan_entry (processed : gset string) (entry : dict) : result (gset string) :=
  let orig := get entry "original_id" (VStr "") in
  if Value.truthy orig then
    k ← normalize_id orig; Ok ({[k]} ∪ processed)
  else
    pid ← extract_patent_id (Value.or_ (get entry "url" (VStr "")) (VStr ""));
    if Py.nonempty pid then
      k ← normalize_id (VStr pid); Ok ({[k]} ∪ processed)
    else
      let pid := get entry "id" (VStr "") in
      if Value.truthy pid then
        k ← normalize_id pid; Ok ({[k]} ∪ processed)
      else Ok processed.

Fixpoint scan_entries (processed : gset string) (arr : list dict) : result (gset string) :=
  match arr with
  | [] => Ok processed
  | entry :: arr' => p ← scan_entry processed entry; scan_entries p arr'
  end.

Fixpoint scan_files (processed : gset string) (files : list (Z * file))
  : result (gset string) :=
  match files with
  | [] => Ok processed
  | (_, Unparsable) :: files' => scan_files processed files'
  | (_, Parsed arr) :: files' => p ← scan_entries processed arr; scan_files p files'
  end.

Definition load_processed_ids (fd : folder) : result (gset string) :=
  scan_files ∅ (list_existing_json fd).

(** [json.dump] into the temporary file of chunk [i] *)
Definition write_tmp (i : Z) (content : list dict) (fd : folder) : folder :=
  {| chunks := chunks fd; tmps := <[i := Parsed content]> (tmps fd) |}.

(** [os.replace(tmp, file)] for chunk [i] *)
Definition os_replace (i : Z) (fd : folder) : folder :=
  match tmps fd !! i with
  | Some f => {| chunks := <[i := f]> (chunks fd); tmps := delete i (tmps fd) |}
  | None => fd
  end.

Definition write_chunk (i : Z) (content : list dict) (fd : folder) : folder :=
  os_replace i (write_tmp i content fd).

(** The loop [for i in range(0, len(new_list), chunk)], for [chunk > 0];
    [fuel] bounds the number of rounds. *)
Fixpoint write_chunks (fuel : nat) (chunk : nat) (new_list : list dict) (next_idx : Z)
    (fd : folder) : folder :=
  match fuel, new_list with
  | S fuel', _ :: _ =>
      write_chunks fuel' chunk (drop chunk new_list) (next_idx + 1)
        (write_chunk next_idx (take chunk new_list) fd)
  | _, _ => fd
  end.

Definition append_patents (new_list : list dict) (fd : folder) (chunk : Z) : result folder :=
  match new_list with
  | [] => Ok fd
  | _ :: _ =>
      let existing := list_existing_json fd in
      let next_idx := match last existing with Some (i, _) => i + 1 | None => 0 end in
      let '(fd, new_list, next_idx) :=
        match last existing with
        | Some (last_idx, last_file) =>
            let content := match last_file with Parsed c => c | Unparsable => [] end in
            if Z.of_nat (length content) <? chunk then
              let space := Z.to_nat (chunk - Z.of_nat (length content)) in
              let to_add := take space new_list in
              (write_chunk last_idx (content ++ to_add) fd, drop space new_list, last_idx + 1)
            else (fd, new_list, next_idx)
        | None => (fd, new_list, next_idx)
        end in
      if chunk =? 0 then Raise (ValueError "range() arg 3 must not be zero")
      else if chunk <? 0 then Ok fd
      else Ok (write_chunks (length new_list) (Z.to_nat chunk) new_list next_idx fd)
  end.

(** *** [main] *)

(** Step 2 of [main]: [unique] is the dict by key, in insertion order; a
    key keeps the first row that has it. *)
Fixpoint dedupe (unique : list (string * dict)) (all_rows : list dict)
  : result (list (string * dict)) :=
  match all_rows with
  | [] => Ok unique
  | r :: rest =>
      pid ← get_csv_patent_id r;
      if Py.nonempty pid && negb (bool_decide (pid ∈ unique.*1))
      then dedupe (unique ++ [(pid, r)]) rest
      else dedupe unique rest
  end.

(** Step 4 of [main]: the rows still to fetch and the number of rows
    skipped. *)
Fixpoint select_new (processed : gset string) (deduped : list dict)
    (new_rows : list dict) (skipped : nat) : result (list dict * nat) :=
  match deduped with
  | [] => Ok (new_rows, skipped)
  | r :: rest =>
      pid ← get_csv_patent_id r;
      if Py.nonempty pid && negb (bool_decide (pid ∈ processed))
      then select_new processed rest (new_rows ++ [r]) skipped
      else select_new processed rest new_rows (S skipped)
  end.

(** Steps 2 to 4 of [main]: the rows a run fetches. *)
Definition rows_to_fetch (all_rows : list dict) (fd : folder) : result (list dict) :=
  unique ← dedupe [] all_rows;
  processed ← load_processed_ids fd;
  r ← select_new processed unique.*2 [] 0%nat;
  Ok r.1.

(** Step 5 of [main]: the loop over the results in the order the pool
    yields them, and the final flush. *)
Fixpoint flush (results : list dict) (buffer : list dict) (fd : folder) : result folder :=
  match results with
  | [] =>
      match buffer with
      | [] => Ok fd
      | _ :: _ => append_patents buffer fd CHUNK_SIZE
      end
  | result :: rest =>
      let buffer := buffer ++ [result] in
      if CHUNK_SIZE <=? Z.of_nat (length buffer) then
        fd ← append_patents buffer fd CHUNK_SIZE;
        flush rest [] fd
      else flush rest buffer fd
  end.

End S01.

(** ** The chat client of the classifiers *)

(** What one call of [client.chat.completions.create] gives: an exception,
    a response without a first message, or the content of the first
    message. *)
Inductive reply : Type :=
| ApiRaises (e : exn)
| NoMessage
| Message (content : value).

(** [k in v] *)
Definition contains (v : value) (k : string) : result bool :=
  match v with
  | VDict d => Ok (bool_decide (is_Some (Value.assoc d k)))
  | VList l => Ok (existsb (fun x => match x with VStr s => String.eqb s k | _ => false end) l)
  | VStr s => Ok (Re.occurs k s)
  | _ => Raise (TypeError ("argument of type '" +:+ type_name v +:+ "' is not iterable"))
  end.

(** [v[k]] for a [str] key *)
Definition getitem (v : value) (k : string) : result value :=
  match v with
  | VDict d =>
      match Value.assoc d k with
      | Some x => Ok x
      | None => Raise (Failure k)
      end
  | VList _ => Raise (TypeError "list indices must be integers or slices, not str")
  | VStr _ => Raise (TypeError "string indices must be integers, not 'str'")
  | _ => Raise (TypeError ("'" +:+ type_name v +:+ "' object is not subscriptable"))
  end.

(** The text a classifier works on: a list is joined, any other value
    that is not a [str] is rendered. *)
Definition as_text (text : value) : string :=
  match text with
  | VList parts => Py.join (String newline (String newline EmptyString)) (map Value.str parts)
  | _ => Value.str text
  end.

(** ** [02_get_edtech.py] *)

Module S02.

Definition extract_json (text : value) : result string :=
  m ← re_search (Re.fenced_object Re.star_lazy) text;
  match m with
  | Some g => Ok g
  | None =>
      m ← re_search Re.fenced_any text;
      match m with
      | Some g =>
          let candidate := Py.strip g in
          if Py.startswith candidate "{" && Py.endswith_char candidate "}"
          then Ok candidate
          else strip_ text
      | None => strip_ text
      end
  end.

(** The inner [try]: what is returned for a cleaned content. *)
Definition read_answer (key : string) (default : value) (content_cleaned : string) : value :=
  let body : result value :=
    match Json.loads content_cleaned with
    | None => Raise (JSONDecodeError content_cleaned)
    | Some parsed =>
        match contains parsed key with
        | Ok true => getitem parsed key
        | Ok false => Ok default
        | Raise e => Raise e
        end
    end in
  match body with
  | Ok v => v
  | Raise _ => default
  end.

Definition retry_limit : nat := 3.

(** The body of the outer [try] at one attempt. *)
Definition attempt (key : string) (default : value) (client : nat -> reply) (n : nat)
  : result value :=
  match client n with
  | ApiRaises e => Raise e
  | NoMessage => Ok default
  | Message content =>
      content_cleaned ← extract_json content;
      Ok (read_answer key default content_cleaned)
  end.

Fixpoint retry (key : string) (default : value) (client : nat -> reply)
    (attempts : list nat) (log : list event) : value * list event :=
  match attempts with
  | [] => (default, log)
  | n :: rest =>
      match attempt key default client n with
      | Ok v => (v, Call n :: log)
      | Raise e =>
          if (n =? retry_limit)%nat then (default, Call n :: log)
          else retry key default client rest (Sleep (Z.of_nat n) :: Call n :: log)
      end
  end.

(** The classifier of scripts 02 and 05, which differ in the key of the
    answer and in the default. *)
Definition classify (key : string) (default : value) (client : nat -> reply) (text : value)
  : value * list event :=
  let text := as_text text in
  if negb (Py.nonempty (Py.strip text)) then (default, [])
  else
    let '(v, log) := retry key default client (seq 1 retry_limit) [] in
    (v, rev log).

Definition async_get_teaching_content (client : nat -> reply) (text : value)
  : value * list event :=
  classify "teaching_content" (VBool false) client text.

(** [shutdown_requested] is the flag as [process_patent] reads it. *)
Definition process_patent (shutdown_requested : bool) (client : nat -> reply) (record : dict)
  : result (dict * list event) :=
  if shutdown_requested then Ok (record, [])
  else
    abstract ← strip_ (get record "abstract_text" (VStr ""));
    if Py.nonempty abstract then
      let '(teaching_value, log) := async_get_teaching_content client (VStr abstract) in
      Ok (<["teaching_content" := teaching_value]> record, log)
    else Ok (<["teaching_content" := VNone]> record, []).

(** The filter on a non-empty [abstract_text] in [main]. *)
Fixpoint with_abstract (records : list dict) : result (list dict) :=
  match records with
  | [] => Ok []
  | record :: rest =>
      abstract ← strip_ (get record "abstract_text" (VStr ""));
      l ← with_abstract rest;
      Ok (if Py.nonempty abstract then record :: l else l)
  end.

(** [v is True] *)
Definition is_True (v : option value) : bool :=
  match v with
  | Some (VBool true) => true
  | _ => false
  end.

(** A task of [main] on the record at position [i]; an exception of the
    task is logged by [main] and the record stays as it was. *)
Definition task (shutdown_at : nat -> bool) (client : nat -> nat -> reply)
    (i : nat) (record : dict) : dict :=
  match process_patent (shutdown_at i) (client i) record with
  | Ok (record', _) => record'
  | Raise _ => record
  end.

(** [main] from the records read to the list written to the output
    file. [shutdown_at i] is the flag as the task of record [i] reads
    it, [client i] the chat client as this task meets it. *)
Definition main (shutdown_at : nat -> bool) (client : nat -> nat -> reply)
    (records : list dict) : result (list dict) :=
  records ← with_abstract records;
  let records := imap (task shutdown_at client) records in
  Ok (filter (fun record => is_True (record !! "teaching_content")) records).

End S02.

(** ** [03_get_description.py] *)

Module S03.

(** What [session.get] followed by [raise_for_status] gives for a URL:
    the page, an [HTTPError] with its status code, or another
    exception. *)
Inductive http : Type :=
| Page (content : string)
| HTTPError (status_code : Z)
| Unreachable (e : exn).

(** [_create_session]: the adapter mounted on the session sends a
    request again, [total] times at most, when it gets no response or a
    status of [status_forcelist]; once the retries are used up
    [session.get] raises. What [session.get] gives below is what is left
    after these retries. *)
Definition total : nat := 3.
Definition status_forcelist : list Z := [500; 502; 503; 504].

Definition _convert_id_to_url_format (original_id : string) : string :=
  Py.strip (Py.remove_chars (fun c => Ascii.eqb c "-") original_id).

(** The page, or [None], with the calls of [session.get] in their
    order. *)
Definition _get_page_html (session : string -> http) (original_id : string)
  : option string * list event :=
  let url_id := _convert_id_to_url_format original_id in
  let base_url := "https://patents.google.com/patent/" +:+ url_id in
  let en_url := base_url +:+ "/en" in
  match session en_url with
  | Page content => (Some content, [HttpGet en_url])
  | HTTPError _ | Unreachable _ =>
      match session base_url with
      | Page content => (Some content, [HttpGet en_url; HttpGet base_url])
      | HTTPError _ | Unreachable _ => (None, [HttpGet en_url; HttpGet base_url])
      end
  end.

(** What the parsers read off a page. [_parse_metadata] sets each of
    its four keys or leaves it out; the other parsers return texts and
    lists of texts. *)
Record parsed_page : Type := {
  title : option string;
  publication_date : option string;
  metadata_abstract : option string;
  inventors : option (list string);
  classification_numbers : list string;
  classification_descriptions : list string;
  abstract : string;
  description : string;
  claims : list string;
  forward : list string;
  backward : list string;
}.

Definition texts (l : list string) : value := VList (VStr <$> l).

(** [d[k] = v] when there is a [v] *)
Definition set_if (k : string) (v : option value) (d : dict) : dict :=
  match v with
  | Some x => <[k := x]> d
  | None => d
  end.

(** The dict [_parse_metadata] returns. *)
Definition metadata (p : parsed_page) : dict :=
  set_if "title" (VStr <$> title p)
    (set_if "publication_date" (VStr <$> publication_date p)
       (set_if "abstract" (VStr <$> metadata_abstract p)
          (set_if "inventors" (texts <$> inventors p) ∅))).

(** [scrape_patent]: [parse] stands for the six parsers, [elapsed] for
    the rendering of the time the call took. An exception inside the
    [try] leaves the result at [None]. *)
Definition scrape_patent (session : string -> http) (parse : string -> parsed_page)
    (elapsed : string) (original_id : value) : option dict * list event :=
  match original_id with
  | VStr id =>
      match _get_page_html session id with
      | (None, log) => (None, log)
      | (Some soup, log) =>
          let p := parse soup in
          let result : dict :=
            <["processing_time" := VFloat elapsed]>
            (<["all_cites" := texts (forward p ++ backward p)]>
            (<["backward_cites" := texts (backward p)]>
            (<["forward_cites" := texts (forward p)]>
            (<["claims" := VStr (match claims p with
                                 | [] => ""
                                 | _ :: _ => Py.join " " (claims p)
                                 end)]>
            (<["description" := VStr (description p)]>
            (<["abstract" := VStr (abstract p)]>
            (<["classification_descriptions" := texts (classification_descriptions p)]>
            (<["classification_numbers" := texts (classification_numbers p)]>
            (metadata p ∪
             {[ "id" := VStr id;
                "application_number" := VStr (_convert_id_to_url_format id);
                "country" := VStr (if (2 <=? String.length id)%nat
                                   then String.substring 0 2 id else "") ]}))))))))) in
          (Some result, log)
      end
  | _ => (None, [])
  end.

(** An entry of [failed_patents.json]. *)
Inductive failed_patent : Type :=
| MissingID (data : dict)
| NotScraped (original_id : value).

(** The loop of [process_patents]; [scrape n] is call [n] of
    [scraper.scrape_patent]. The lists are in the order of the file
    written, the log has one [Call] per call and the sleeps. *)
Fixpoint scrape_all (scrape : nat -> value -> option dict) (n : nat) (patents : list dict)
    (results : list dict) (failed_patents : list failed_patent) (log : list event)
  : list dict * list failed_patent * list event :=
  match patents with
  | [] => (results, failed_patents, log)
  | patent :: rest =>
      let original_id := Value.or_ (get patent "id" VNone) (get patent "patent" VNone) in
      if negb (Value.truthy original_id) then
        scrape_all scrape n rest results (failed_patents ++ [MissingID patent]) log
      else
        let log := log ++ [Call n; Sleep 1] in
        match scrape n original_id with
        | Some scraped_data =>
            if bool_decide (dom scraped_data = ∅) then
              scrape_all scrape (S n) rest results
                (failed_patents ++ [NotScraped original_id]) log
            else
              scrape_all scrape (S n) rest (results ++ [scraped_data ∪ patent])
                failed_patents log
        | None =>
            scrape_all scrape (S n) rest results
              (failed_patents ++ [NotScraped original_id]) log
        end
  end.

(** [process_patents] from the list read to the two lists written;
    [None] when it returns before its loop. *)
Definition process_patents (scrape : nat -> value -> option dict) (patents : list dict)
  : option (list dict * list failed_patent * list event) :=
  match patents with
  | [] => None
  | _ :: _ => Some (scrape_all scrape 0 patents [] [] [])
  end.

End S03.

(** ** [04_edtech_classidied.py] *)

Module S04.

Definition extract_json (text : value) : result string :=
  text ← strip_ text;
  let candidate :=
    match Re.fenced_object Re.star text with
    | Some g => Py.strip g
    | None => text
    end in
  let candidate :=
    if negb (Py.startswith candidate "{" && Py.endswith_char candidate "}")
    then "{" +:+ Py.strip_char "," (Py.strip candidate) +:+ "}"
    else candidate in
  match Json.loads candidate with
  | Some obj => Ok (Json.dumps obj)
  | None => Raise (JSONDecodeError candidate)
  end.

Definition classification (technology_class reason : value) : dict :=
  {[ "technology_class" := technology_class; "reason" := reason ]}.

Definition default_result : dict :=
  classification (VStr "Unknown") (VStr "No description provided").
Definition error_result : dict :=
  classification (VStr "Error") (VStr "API call failed").

Definition retry_limit : nat := 3.

(** The inner [try] on the content of a message: the classification
    returned, or the exception caught and logged. *)
Definition read_answer (content : value) : result dict :=
  content_cleaned ← extract_json content;
  match Json.loads content_cleaned with
  | None => Raise (JSONDecodeError content_cleaned)
  | Some (VDict d) =>
      match Value.assoc d "technology_class", Value.assoc d "reason" with
      | Some c, Some r => Ok (classification c r)
      | c, r => Ok (classification (default (VStr "Missing") c) (default (VStr "Missing") r))
      end
  | Some _ => Raise (ValueError "Invalid JSON structure")
  end.

(** One attempt after its shutdown check: the classification returned,
    or nothing when the attempt failed in any way. *)
Definition attempt (client : nat -> reply) (n : nat) : option dict :=
  match client n with
  | ApiRaises _ => None
  | NoMessage => None
  | Message content =>
      match read_answer content with
      | Ok r => Some r
      | Raise _ => None
      end
  end.

(** The loop over the attempts; [shutdown n] is the flag as attempt [n]
    reads it. *)
Fixpoint retry (shutdown : nat -> bool) (client : nat -> reply)
    (attempts : list nat) (log : list event) : dict * list event :=
  match attempts with
  | [] => (error_result, log)
  | n :: rest =>
      if shutdown n then (error_result, log)
      else
        match attempt client n with
        | Some r => (r, Call n :: log)
        | None =>
            if (n <? retry_limit)%nat
            then retry shutdown client rest (Sleep (Z.of_nat n * 2) :: Call n :: log)
            else retry shutdown client rest (Call n :: log)
        end
  end.

Definition async_get_edtech_classification (shutdown : nat -> bool)
    (client : nat -> reply) (text : value) : dict * list event :=
  let text := as_text text in
  if negb (Py.nonempty (Py.strip text)) then (default_result, [])
  else
    let '(r, log) := retry shutdown client (seq 1 retry_limit) [] in
    (r, rev log).

Definition annotate (technology_class reason : value) (record : dict) : dict :=
  <["reason" := reason]> (<["technology_class" := technology_class]> record).

(** [shutdown 0] is the flag as [process_patent] reads it on entry. *)
Definition process_patent (shutdown : nat -> bool) (client : nat -> reply) (record : dict)
  : dict * list event :=
  if shutdown 0%nat then
    (annotate (VStr "Shutdown") (VStr "Shutdown requested") record, [])
  else
    match strip_ (get record "description" (VStr "")) with
    | Raise _ =>
        (annotate (VStr "Error") (VStr "Exception during processing") record, [])
    | Ok description =>
        if Py.nonempty description then
          let '(r, log) := async_get_edtech_classification shutdown client (VStr description) in
          (annotate (get r "technology_class" (VStr "Error")) (get r "reason" (VStr "Error"))
             record, log)
        else
          (annotate (VStr "No Description") (VStr "No description provided") record, [])
    end.

End S04.

(** ** [05_check_is_covid.py] *)

Module S05.

(** The same text as in script 02. *)
Definition extract_json : value -> result string := S02.extract_json.

Definition async_get_covid_status (client : nat -> reply) (text : value)
  : value * list event :=
  S02.classify "is_covid" (VStr "non-covid") client text.

Definition process_patent (shutdown_requested : bool) (client : nat -> reply) (record : dict)
  : result (dict * list event) :=
  if shutdown_requested then Ok (record, [])
  else
    description ← strip_ (get record "description" (VStr ""));
    if Py.nonempty description then
      let '(covid_value, log) := async_get_covid_status client (VStr description) in
      Ok (<["is_covid" := covid_value]> record, log)
    else Ok (<["is_covid" := VStr "non-covid"]> record, []).

(** A task of [main] on the record at position [i]; an exception of the
    task is logged by [main] and the record stays as it was. *)
Definition task (shutdown_at : nat -> bool) (client : nat -> nat -> reply)
    (i : nat) (record : dict) : dict :=
  match process_patent (shutdown_at i) (client i) record with
  | Ok (record', _) => record'
  | Raise _ => record
  end.

(** [main] from the records read to the list written to the output
    file. *)
Definition main (shutdown_at : nat -> bool) (client : nat -> nat -> reply)
    (records : list dict) : list dict :=
  imap (task shutdown_at client) records.

End S05.

(** ** The event loop of [04_edtech_classidied.py]

    [main] creates one task per record and the loop runs them in turns:
    a task runs from one [await] to the next. The signal handler runs
    between two turns. The order of the turns is the scheduler's: a run is
    a list of [tick]s. *)

Module Loop04.
Import S04.

(** Where a task stands: not yet run; past the shutdown check of attempt
    [n] and waiting for the semaphore and the limiter; waiting for the
    reply to the request of attempt [n]; asleep after attempt [n];
    returned; cancelled by [main]. *)
Inductive phase : Type :=
| NotStarted
| Queued (n : nat)
| InFlight (n : nat)
| Sleeping (n : nat)
| Finished
| Cancelled.

Record task : Type := {
  record : dict;
  at_ : phase;
}.

Inductive tick : Type :=
| Signal
| Resume (i : nat)
| MainWakes.

(** What the tasks do, by task: attempt [n] of task [i] passes its
    shutdown check, sends its request, or the task sleeps. *)
Inductive note : Type :=
| Entered (i n : nat)
| Called (i n : nat)
| Slept (i : nat) (seconds : Z).

Record loop : Type := {
  shutdown_requested : bool;
  tasks : list task;
  main_done : bool;
  trace : list note;
}.

Definition handle_shutdown (s : loop) : loop :=
  {| shutdown_requested := true; tasks := tasks s; main_done := main_done s;
     trace := trace s |}.

Definition finish (r : dict) (t : task) : task :=
  {| record := annotate (get r "technology_class" (VStr "Error")) (get r "reason" (VStr "Error"))
                 (record t);
     at_ := Finished |}.

(** The top of the loop of [async_get_edtech_classification] at attempt
    [n]. *)
Definition loop_top (flag : bool) (i n : nat) (t : task) : task * list note :=
  if (retry_limit <? n)%nat then (finish error_result t, [])
  else if flag then (finish error_result t, [])
  else ({| record := record t; at_ := Queued n |}, [Entered i n]).

(** One turn of task [i]. *)
Definition resume (client : nat -> nat -> reply) (flag : bool) (i : nat) (t : task)
  : task * list note :=
  match at_ t with
  | NotStarted =>
      if flag then
        ({| record := annotate (VStr "Shutdown") (VStr "Shutdown requested") (record t);
            at_ := Finished |}, [])
      else
        match strip_ (get (record t) "description" (VStr "")) with
        | Raise _ =>
            ({| record := annotate (VStr "Error") (VStr "Exception during processing")
                            (record t);
                at_ := Finished |}, [])
        | Ok description =>
            if Py.nonempty description then
              if negb (Py.nonempty (Py.strip (as_text (VStr description))))
              then (finish default_result t, [])
              else loop_top flag i 1 t
            else
              ({| record := annotate (VStr "No Description") (VStr "No description provided")
                              (record t);
                  at_ := Finished |}, [])
        end
  | Queued n => ({| record := record t; at_ := InFlight n |}, [Called i n])
  | InFlight n =>
      match attempt (client i) n with
      | Some r => (finish r t, [])
      | None =>
          if (n <? retry_limit)%nat
          then ({| record := record t; at_ := Sleeping n |}, [Slept i (Z.of_nat n * 2)])
          else loop_top flag i (S n) t
      end
  | Sleeping n => loop_top flag i (S n) t
  | Finished | Cancelled => (t, [])
  end.

Definition done (t : task) : bool :=
  match at_ t with
  | Finished | Cancelled => true
  | _ => false
  end.

(** [task.cancel()] on a task that is not done. *)
Definition cancel (t : task) : task :=
  if done t then t else {| record := record t; at_ := Cancelled |}.

(** One turn of the loop. After [main] has left its loop nothing runs
    any more. *)
Definition step (client : nat -> nat -> reply) (s : loop) (k : tick) : loop :=
  if main_done s then s
  else
    match k with
    | Signal => handle_shutdown s
    | Resume i =>
        match tasks s !! i with
        | Some t =>
            let '(t', notes) := resume client (shutdown_requested s) i t in
            {| shutdown_requested := shutdown_requested s;
               tasks := <[i := t']> (tasks s);
               main_done := false;
               trace := trace s ++ notes |}
        | None => s
        end
    | MainWakes =>
        if shutdown_requested s then
          {| shutdown_requested := true; tasks := cancel <$> tasks s;
             main_done := true; trace := trace s |}
        else
          {| shutdown_requested := false; tasks := tasks s;
             main_done := forallb done (tasks s); trace := trace s |}
    end.

Definition run (client : nat -> nat -> reply) (ticks : list tick) (s : loop) : loop :=
  foldl (step client) s ticks.

(** The tasks [main] creates, [shutdown_requested] being the flag when
    it does. *)
Definition dispatch (shutdown_requested : bool) (records : list dict) : loop :=
  {| shutdown_requested := shutdown_requested;
     tasks := if shutdown_requested then []
              else (fun r => {| record := r; at_ := NotStarted |}) <$> records;
     main_done := false;
     trace := [] |}.






End Loop04.

(** * Statements

    The notions the theorems are stated with, and the inputs of their
    examples. *)

(** ** Identity keys *)
Definition normalize_text (s : string) : string :=
  Py.remove_chars (fun c => Py.is_space c || Ascii.eqb c "-") (Py.upper (Py.strip s)).

(** The key of a row by the priority order of the resolver. *)
Definition resolved_key (row : dict) : string :=
  let id := Py.strip (Value.str (Value.or_ (get row "id" (VStr "")) (VStr ""))) in
  if Py.nonempty id then normalize_text id
  else
    match get row "result link" (VStr "") with
    | VStr url =>
        match Re.patent_id url with
        | Some g => normalize_text (Py.strip g)
        | None => EmptyString
        end
    | _ => EmptyString
    end.

(** The link of a row is missing, falsy or a text. *)
Definition link_is_text (row : dict) : Prop :=
  match row !! "result link" with
  | Some v => Value.truthy v = false ∨ ∃ s, v = VStr s
  | None => True
  end.

Definition blank_id_nan_link : dict :=
  {[ "id" := VStr " "; "result link" := VFloat "nan" ]}.

(** The row has an id that is truthy and, rendered, not blank. *)
Definition has_id (row : dict) : bool :=
  Py.nonempty (Py.strip (Value.str (Value.or_ (get row "id" (VStr "")) (VStr "")))).

(** A row of a file without an id column, its link cell empty. *)
Definition no_id_nan_link : dict := {[ "result link" := VFloat "nan" ]}.

Definition sleeps (log : list event) : list Z :=
  omap (fun e => match e with Sleep d => Some d | _ => None end) log.

(** ** The chunked store *)

Section StoreNotions.
Import S01.

(** The last chunk of a folder: the chunk with the greatest index. *)
Definition last_chunk (fd : folder) (i : Z) (f : file) : Prop :=
  chunks fd !! i = Some f ∧ ∀ j g, chunks fd !! j = Some g → j ≤ i.

(** *** Scanning *)

Definition with_keys (p : gset string) (r : result (gset string)) : result (gset string) :=
  match r with
  | Ok K => Ok (K ∪ p)
  | Raise e => Raise e
  end.

Definition scan_file (p : gset string) (f : file) : result (gset string) :=
  match f with
  | Parsed arr => scan_entries p arr
  | Unparsable => Ok p
  end.

(** A record resolves to the key [k] under the three-step fallback of
    [load_processed_ids]. *)
Definition resolves (entry : dict) (k : string) : Prop :=
  scan_entry ∅ entry = Ok {[k]}.

End StoreNotions.

Definition entry (original_id : string) : dict := {[ "original_id" := VStr original_id ]}.

Definition one_chunk_of_two : S01.folder :=
  {| S01.chunks := {[ 0 := S01.Parsed [entry "US-1"; entry "US-2"] ]}; S01.tmps := ∅ |}.

Definition five_new : list dict :=
  [entry "US-3"; entry "US-4"; entry "US-5"; entry "US-6"; entry "US-7"].

Definition two_new : list dict :=
  [ {[ "url" := VStr "https://patents.google.com/patent/us8/en" ]};
    {[ "id" := VStr "us 9" ]} ].

Definition broken_last_chunk : S01.folder :=
  {| S01.chunks := {[ 0 := S01.Parsed [entry "US-1"]; 1 := S01.Unparsable ]};
     S01.tmps := ∅ |}.

(** ** Retries and replies *)

Definition nonblank (text : value) : Prop :=
  Py.nonempty (Py.strip (as_text text)) = true.

(** A reply the taxonomy classifier cannot read: a message whose content
    the inner [try] fails on. *)
Definition malformed04 (r : reply) : Prop :=
  ∃ content e, r = Message content ∧ S04.read_answer content = Raise e.

(** A reply of text that is not JSON after cleaning. *)
Definition malformed02 (r : reply) : Prop :=
  ∃ c cleaned, r = Message (VStr c) ∧ S02.extract_json (VStr c) = Ok cleaned
               ∧ Json.loads cleaned = None.

Definition garbage_then_true (n : nat) : reply :=
  match n with
  | 1%nat => Message (VStr "Sure! The patent is about teaching.")
  | _ => Message (VStr (dq "{'teaching_content': true}"))
  end.

Definition fails_twice (good : reply) (n : nat) : reply :=
  match n with
  | 1%nat | 2%nat => ApiRaises (Failure "timeout")
  | _ => good
  end.

Definition scraper_fails_twice (data : dict) (n : nat) : S01.scrape :=
  match n with
  | 1%nat => S01.ScrapeRaises (Failure "timeout")
  | 2%nat => S01.Scraped "HTTP Error 503" VNone ∅
  | _ => S01.Scraped "Success" (VStr "https://patents.google.com/patent/US1/en") data
  end.

Definition en_url (original_id : string) : string :=
  "https://patents.google.com/patent/" +:+ S03._convert_id_to_url_format original_id +:+ "/en".
Definition base_url (original_id : string) : string :=
  "https://patents.google.com/patent/" +:+ S03._convert_id_to_url_format original_id.

(** An [HTTPError] that [raise_for_status] can raise with the session of
    [_create_session]: an error status that the adapter does not send
    again. *)
Definition passed_on (status_code : Z) : Prop :=
  400 ≤ status_code < 600 ∧ status_code ∉ S03.status_forcelist.

Definition en_forbidden (url : string) : S03.http :=
  if String.eqb url "https://patents.google.com/patent/US1/en"
  then S03.HTTPError 403
  else S03.Page "<html>US1</html>".

(** The [/en] address answers 500 until the retries of the session are
    used up. *)
Definition en_gives_up (url : string) : S03.http :=
  if String.eqb url "https://patents.google.com/patent/US1/en"
  then S03.Unreachable (Failure "too many 500 error responses")
  else S03.Page "<html>US1</html>".

Definition en_unavailable (url : string) : S03.http :=
  if String.eqb url "https://patents.google.com/patent/US1/en"
  then S03.HTTPError 500
  else S03.Page "<html>US1</html>".


Definition good_row : dict :=
  {[ "id" := VStr "US-1-A"; "result link" := VStr "https://patents.google.com/patent/US1/en";
     "title" := VStr "Teaching aid" ]}.

Definition good_answer : reply :=
  Message (VStr (dq "{'technology_class': 'hybrid', 'reason': 'mixed groups'}")).

(** ** Fenced payloads *)

(** The closing fence with the line break before it. *)
Definition closing_fence : string := String newline Re.backticks.

(** A payload in a fenced block marked [json]. *)
Definition wrap (p : string) : string :=
  "```json" +:+ String newline (p +:+ closing_fence).

(** What the caller of an extraction function parses. *)
Definition parsed (cleaned : result string) : option value :=
  match cleaned with
  | Ok s => Json.loads s
  | Raise _ => None
  end.

Definition fence_free (s : string) : Prop := Re.occurs Re.backticks s = false.

Definition brace_in_text : string := dq "{'a': '}```'}".
Definition fenced_object_in_text : string := dq "{'a': '```{}```'}".

(** The end of the group of the fence pattern: white space and a fence
    after the closing brace. *)
Definition closing (g : string) : @Re.cont string := fun r =>
  Re.star Py.is_space (Re.lit Re.backticks (fun _ => Some (Re.captured g r))) r.

(** ** The output of the education-relevance stage *)

(** The record has a text with something in it as [abstract_text]. *)
Definition has_abstract (record : dict) : bool :=
  match get record "abstract_text" (VStr "") with
  | VStr s => Py.nonempty (Py.strip s)
  | _ => false
  end.

(** The [abstract_text] of the record is a text, or is missing. *)
Definition abstract_is_text (record : dict) : Prop :=
  ∃ s, get record "abstract_text" (VStr "") = VStr s.

(** The answer of the classifier for the record. *)
Definition teaching_value (client : nat -> reply) (record : dict) : value :=
  match get record "abstract_text" (VStr "") with
  | VStr s => fst (S02.async_get_teaching_content client (VStr (Py.strip s)))
  | _ => VNone
  end.

Definition abstract_of (s : string) : dict := {[ "abstract_text" := VStr s ]}.

Definition four_records : list dict :=
  [abstract_of "A method of teaching"; abstract_of "A gear box"; abstract_of "  ";
   abstract_of "A classroom robot"].

Definition four_clients (i : nat) (n : nat) : reply :=
  match i with
  | 1%nat => Message (VStr (dq "{'teaching_content': false}"))
  | _ => Message (VStr (dq "{'teaching_content': true}"))
  end.

Definition shutdown_from_2 (i : nat) : bool := (2 <=? i)%nat.




(** ** Further notions

    What the facts on the steps of [main], the description stage and the
    runs of the loop are stated with. *)

Fixpoint all_chars (p : ascii -> bool) (s : string) : bool :=
  match s with
  | String c s' => p c && all_chars p s'
  | EmptyString => true
  end.

Definition is_lower (c : ascii) : bool :=
  (97 <=? nat_of_ascii c)%nat && (nat_of_ascii c <=? 122)%nat.

(** A character a normalised key may hold. *)
Definition key_char (c : ascii) : bool :=
  negb (Py.is_space c) && negb (Ascii.eqb c "-") && negb (is_lower c).

(** The link carries no identifier, or one with the key [pid]. *)
Definition link_agrees (url pid : string) : Prop :=
  match Re.patent_id url with
  | Some g => Py.strip g = EmptyString ∨ normalize_text (Py.strip g) = pid
  | None => True
  end.

Definition always_down (n : nat) : S01.scrape := S01.ScrapeRaises (Failure "timeout").

Definition up_to_three (n : nat) : Prop := (1 ≤ n ≤ 3)%nat.

(** The value [v] is what a reply gives for [key]: the content of the
    message, once cleaned, is a JSON object with [v] under [key]. *)
Definition answers (key : string) (r : reply) (v : value) : Prop :=
  ∃ content cleaned d,
    r = Message content ∧ S02.extract_json content = Ok cleaned
    ∧ Json.loads cleaned = Some (VDict d) ∧ Value.assoc d key = Some v.

Definition is_call_of (i : nat) (e : Loop04.note) : bool :=
  match e with
  | Loop04.Called j _ => bool_decide (j = i)
  | _ => false
  end.

(** The number of requests task [i] has sent so far. *)
Definition calls_of (i : nat) (s : Loop04.loop) : nat :=
  length (filter (is_call_of i) (Loop04.trace s)).

(** A task stands as its record [r] allows: finished with the two
    fields of the annotation set and the others as in [r], or with [r]
    as it was. *)
Definition annotated_or_untouched (r : dict) (t : Loop04.task) : Prop :=
  match Loop04.at_ t with
  | Loop04.Finished =>
      is_Some (Loop04.record t !! "technology_class")
      ∧ is_Some (Loop04.record t !! "reason")
      ∧ ∀ k, k ≠ "technology_class" → k ≠ "reason" → Loop04.record t !! k = r !! k
  | _ => Loop04.record t = r
  end.

Section LoopNotions.
Import Loop04.

(** What the phase of a task says of the requests it has sent. *)
Definition within (p : phase) (c : nat) : Prop :=
  match p with
  | NotStarted => c = 0%nat
  | Queued n => (1 ≤ n ≤ 3 ∧ S c = n)%nat
  | InFlight n => (1 ≤ n ≤ 3 ∧ c = n)%nat
  | Sleeping n => (1 ≤ n < 3 ∧ c = n)%nat
  | Finished | Cancelled => (c ≤ 3)%nat
  end.

Definition counted (s : loop) : Prop :=
  ∀ i, match tasks s !! i with
       | Some t => within (at_ t) (calls_of i s)
       | None => calls_of i s = 0%nat
       end.
End LoopNotions.

Section StoreOrder.
Import S01.

(** The records [append_patents] takes a file to hold. *)
Definition content_of (f : file) : list dict :=
  match f with
  | Parsed c => c
  | Unparsable => []
  end.

(** The records of a folder, chunk after chunk by ascending index. *)
Definition records_of (fd : folder) : list dict :=
  concat (map (fun x => content_of x.2) (list_existing_json fd)).

(** Every chunk is a list of at most [cap] records, and of [cap] records
    when a chunk with a greater index exists. *)
Definition well_filled (cap : nat) (fd : folder) : Prop :=
  ∀ i f, chunks fd !! i = Some f →
    ∃ arr, f = Parsed arr ∧ (length arr ≤ cap)%nat
           ∧ ∀ j g, chunks fd !! j = Some g → i < j → length arr = cap.
End StoreOrder.

Definition stale_tmp : S01.folder :=
  {| S01.chunks := {[ 0 := S01.Parsed [entry "US-1"] ]};
     S01.tmps := {[ 0 := S01.Unparsable ]} |}.

Definition csv_row (id : string) : dict := {[ "id" := VStr id ]}.

Definition three_rows : list dict := [csv_row "US-1"; csv_row "us 1"; csv_row "US-3"].

(** [patent.get('id') or patent.get('patent')] *)
Definition identifier (patent : dict) : value :=
  Value.or_ (get patent "id" VNone) (get patent "patent" VNone).

(** What an entry of the failure list says of the patents read. *)
Definition failure_of (patents : list dict) (f : S03.failed_patent) : Prop :=
  match f with
  | S03.MissingID p => p ∈ patents ∧ Value.truthy (identifier p) = false
  | S03.NotScraped id => ∃ p, p ∈ patents ∧ identifier p = id ∧ Value.truthy id = true
  end.

(** The keys [scrape_patent] may set. *)
Definition scraped_keys : list string :=
  ["id"; "application_number"; "country"; "title"; "publication_date"; "abstract";
   "inventors"; "classification_numbers"; "classification_descriptions"; "description";
   "claims"; "forward_cites"; "backward_cites"; "all_cites"; "processing_time"].

Definition empty_page (content : string) : S03.parsed_page :=
  {| S03.title := Some "A title"; S03.publication_date := None;
     S03.metadata_abstract := Some "From the metadata"; S03.inventors := None;
     S03.classification_numbers := []; S03.classification_descriptions := [];
     S03.abstract := content; S03.description := ""; S03.claims := [];
     S03.forward := []; S03.backward := [] |}.

Definition two_patents : list dict :=
  [ {[ "patent" := VStr "US-1"; "teaching_content" := VBool true ]};
    {[ "title" := VStr "No identifier" ]} ].

(** The value is not a text. *)
Definition not_text (v : value) : Prop := ∀ s, v ≠ VStr s.

Definition always_scraped (n : nat) : S01.scrape :=
  S01.Scraped "Success" (VStr "https://patents.google.com/patent/US5/en") ∅.

Definition numbered_row : dict :=
  {[ "id" := VInt 5; "result link" := VStr "https://patents.google.com/patent/US5/en" ]}.

Definition numbered_store : S01.folder :=
  {| S01.chunks := {[ 0 := S01.Parsed [entry "US-1"; {[ "original_id" := VInt 5 ]}] ]};
     S01.tmps := ∅ |}.

Definition null_abstract : list dict :=
  [abstract_of "A method of teaching"; {[ "abstract_text" := VNone ]}].

(** * Facts *)

#[local] Set Warnings "-clear-no-such-hyp".

(** ** The chunked store *)

Section StoreFacts.
Import S01.

Global Instance index_le_total : Total index_le.
Proof. intros [a ?] [b ?]. unfold index_le; simpl. lia. Qed.
Global Instance index_le_trans : Transitive index_le.
Proof. intros [a ?] [b ?] [c ?]. unfold index_le; simpl. lia. Qed.

Lemma list_existing_json_perm fd :
  list_existing_json fd ≡ₚ map_to_list (chunks fd).
Proof. apply merge_sort_Permutation. Qed.

Lemma elem_of_list_existing_json fd i f :
  (i, f) ∈ list_existing_json fd ↔ chunks fd !! i = Some f.
Proof. by rewrite list_existing_json_perm, elem_of_map_to_list. Qed.

Lemma last_existing_Some fd i f :
  last (list_existing_json fd) = Some (i, f) →
  chunks fd !! i = Some f ∧ ∀ j g, chunks fd !! j = Some g → j ≤ i.
Proof.
  intros Hlast. split.
  - apply elem_of_list_existing_json. by apply last_Some_elem_of.
  - intros j g Hj. apply elem_of_list_existing_json in Hj.
    apply last_Some in Hlast as [l' Hl'].
    pose proof (StronglySorted_merge_sort index_le (map_to_list (chunks fd))) as Hs.
    fold (list_existing_json fd) in Hs. rewrite Hl' in Hs, Hj.
    apply elem_of_app in Hj as [Hj | Hj].
    + eapply (StronglySorted_app_1_elem_of index_le _ _ (j, g) (i, f)) in Hs; [done | done |].
      apply list_elem_of_singleton. done.
    + apply list_elem_of_singleton in Hj. injection Hj as -> _. done.
Qed.

Lemma last_existing_None fd :
  last (list_existing_json fd) = None → chunks fd = ∅.
Proof.
  intros H%last_None. apply map_to_list_empty_iff.
  apply Permutation_nil_r. rewrite <- H. symmetry. apply list_existing_json_perm.
Qed.

Lemma chunks_write_chunk i c fd :
  chunks (write_chunk i c fd) = <[i := Parsed c]> (chunks fd).
Proof. unfold write_chunk, os_replace, write_tmp; simpl. by rewrite lookup_insert_eq. Qed.

Lemma tmps_write_chunk i c fd :
  tmps (write_chunk i c fd) = delete i (tmps fd).
Proof.
  unfold write_chunk, os_replace, write_tmp; simpl. rewrite lookup_insert_eq; simpl.
  by rewrite delete_insert_eq.
Qed.

(** The chunk written for an index by the loop: the [j]-th slice. *)
Lemma write_chunks_lookup fuel chunk (l : list dict) idx fd i :
  (0 < chunk)%nat → (length l ≤ fuel)%nat →
  chunks (write_chunks fuel chunk l idx fd) !! i =
    if decide (idx ≤ i ∧ (Z.to_nat (i - idx) * chunk < length l)%nat)
    then Some (Parsed (take chunk (drop (Z.to_nat (i - idx) * chunk) l)))
    else chunks fd !! i.
Proof.
  intros Hc. revert l idx fd. induction fuel as [|fuel IH]; intros l idx fd Hlen.
  - destruct l; simpl in *; [|lia]. case_decide; [simpl in *; lia | done].
  - destruct l as [|x l]; simpl.
    { case_decide; [simpl in *; lia | done]. }
    rewrite IH.
    2:{ rewrite length_drop. simpl in *. lia. }
    rewrite chunks_write_chunk.
    destruct (decide (i = idx)) as [-> | Hne].
    + rewrite decide_False.
      2:{ lia. }
      rewrite lookup_insert_eq. rewrite decide_True; [|simpl; split; [lia|]; replace (idx - idx) with 0 by lia; simpl; lia].
      replace (idx - idx) with 0 by lia. simpl. done.
    + rewrite lookup_insert_ne by done.
      destruct (decide (idx < i)) as [Hlt | Hge].
      * assert (Z.to_nat (i - idx) = S (Z.to_nat (i - (idx + 1)))) as -> by lia.
        set (j := Z.to_nat (i - (idx + 1))).
        rewrite length_drop.
        assert (Hx : length (x :: l) = S (length l)) by done.
        destruct chunk as [|chunk]; [lia|].
        case_decide as H1; case_decide as H2; try done.
        -- by rewrite drop_drop.
        -- exfalso. apply H2. split; [lia|]. rewrite Hx in H1. nia.
        -- exfalso. apply H1. split; [lia|]. rewrite Hx. nia.
      * rewrite !decide_False by lia. done.
Qed.

Lemma last_existing_intro fd i f :
  chunks fd !! i = Some f → (∀ j g, chunks fd !! j = Some g → j ≤ i) →
  last (list_existing_json fd) = Some (i, f).
Proof.
  intros Hi Hmax.
  destruct (last (list_existing_json fd)) as [[i' f']|] eqn:Hlast.
  - apply last_existing_Some in Hlast as [Hi' Hmax'].
    assert (i' = i) as -> by (apply Hmax in Hi'; apply Hmax' in Hi; lia).
    congruence.
  - apply last_existing_None in Hlast. rewrite Hlast in Hi. by rewrite lookup_empty in Hi.
Qed.


(** C1. When the last chunk holds fewer than [chunk] records, an append
    fills it up to [chunk], the records it held first and in their order,
    the new ones after; the records left over go into new chunks at the
    indices after the last one, each of [chunk] records but possibly the
    last of them; no other file changes. *)
Theorem append_fills_then_splits (new_list content : list dict) (fd : folder)
    (chunk last_idx : Z) :
  last_chunk fd last_idx (Parsed content) →
  Z.of_nat (length content) < chunk →
  ∃ fd',
    append_patents new_list fd chunk = Ok fd' ∧
    let space := Z.to_nat (chunk - Z.of_nat (length content)) in
    let rest := drop space new_list in
    let cap := Z.to_nat chunk in
    chunks fd' !! last_idx = Some (Parsed (content ++ take space new_list)) ∧
    (∀ j : nat, (j * cap < length rest)%nat →
       ∃ piece,
         chunks fd' !! (last_idx + 1 + Z.of_nat j) = Some (Parsed piece) ∧
         piece = take cap (drop (j * cap) rest) ∧
         (0 < length piece ≤ cap)%nat ∧
         (((j + 1) * cap < length rest)%nat → length piece = cap)) ∧
    (∀ i, i ≠ last_idx →
       (∀ j : nat, (j * cap < length rest)%nat → i ≠ last_idx + 1 + Z.of_nat j) →
       chunks fd' !! i = chunks fd !! i).
Proof.
  intros [Hi Hmax] Hlt.
  pose proof (last_existing_intro _ _ _ Hi Hmax) as Hlast.
  unfold append_patents. destruct new_list as [|x new_list].
  { exists fd. split; [done|]. simpl. rewrite take_nil, drop_nil, app_nil_r.
    split; [done|]. split; [intros j; simpl; lia | done]. }
  rewrite Hlast. cbv zeta.
  destruct (Z.ltb_spec (Z.of_nat (length content)) chunk) as [_|]; [|lia].
  destruct (Z.eqb_spec chunk 0) as [|_]; [lia|].
  destruct (Z.ltb_spec chunk 0) as [|_]; [lia|].
  eexists. split; [done|].
  set (space := Z.to_nat (chunk - Z.of_nat (length content))).
  set (rest := drop space (x :: new_list)).
  set (cap := Z.to_nat chunk).
  assert (Hcap : (0 < cap)%nat) by (unfold cap; lia).
  split; [|split].
  - rewrite write_chunks_lookup by (done || lia).
    rewrite decide_False by lia. rewrite chunks_write_chunk. by rewrite lookup_insert_eq.
  - intros j Hj. eexists. split; [|split; [done|]].
    + rewrite write_chunks_lookup by (done || lia).
      replace (Z.to_nat (last_idx + 1 + Z.of_nat j - (last_idx + 1))) with j by lia.
      rewrite decide_True by (split; [lia | done]). done.
    + rewrite length_take, length_drop. split; [lia|]. intros. nia.
  - intros i Hne Hother. rewrite write_chunks_lookup by (done || lia).
    rewrite decide_False.
    2:{ intros [H1 H2]. apply (Hother _ H2). lia. }
    rewrite chunks_write_chunk. by rewrite lookup_insert_ne.
Qed.


Lemma scan_entry_union p entry :
  scan_entry p entry = with_keys p (scan_entry ∅ entry).
Proof.
  unfold scan_entry.
  repeat match goal with
         | |- context [if ?b then _ else _] => destruct b
         | |- context [mbind _ ?m] => destruct m; simpl
         end; simpl; try done; f_equal; set_solver.
Qed.

Lemma scan_entries_union p arr :
  scan_entries p arr = with_keys p (scan_entries ∅ arr).
Proof.
  revert p. induction arr as [|e arr IH]; intros p; simpl.
  - f_equal. set_solver.
  - rewrite scan_entry_union. destruct (scan_entry ∅ e) as [Ke|]; simpl; [|done].
    rewrite (IH (Ke ∪ p)), (IH Ke).
    destruct (scan_entries ∅ arr); simpl; [|done]. f_equal. set_solver.
Qed.

Lemma scan_entries_app p a b :
  scan_entries p (a ++ b) = scan_entries p a ≫= fun p' => scan_entries p' b.
Proof.
  revert p. induction a as [|e a IH]; intros p; simpl; [done|].
  destruct (scan_entry p e); simpl; [apply IH | done].
Qed.

Lemma scan_entries_app_Ok a b K :
  scan_entries ∅ (a ++ b) = Ok K →
  ∃ Ka Kb, scan_entries ∅ a = Ok Ka ∧ scan_entries ∅ b = Ok Kb ∧ K = Kb ∪ Ka.
Proof.
  rewrite scan_entries_app. destruct (scan_entries ∅ a) as [Ka|]; simpl; [|done].
  rewrite scan_entries_union. destruct (scan_entries ∅ b) as [Kb|]; simpl; [|done].
  intros [= <-]. eauto.
Qed.


Lemma scan_files_cons p i f files :
  scan_files p ((i, f) :: files) = scan_file p f ≫= fun p' => scan_files p' files.
Proof. by destruct f. Qed.

Lemma scan_file_union p f : scan_file p f = with_keys p (scan_file ∅ f).
Proof.
  destruct f; simpl; [apply scan_entries_union|]. f_equal. set_solver.
Qed.

Lemma scan_files_union p files :
  scan_files p files = with_keys p (scan_files ∅ files).
Proof.
  revert p. induction files as [|[i f] files IH]; intros p.
  - simpl. f_equal. set_solver.
  - rewrite !scan_files_cons, scan_file_union.
    destruct (scan_file ∅ f) as [Kf|]; simpl; [|done].
    rewrite (IH (Kf ∪ p)), (IH Kf).
    destruct (scan_files ∅ files); simpl; [|done]. f_equal. set_solver.
Qed.

Lemma scan_files_more q p s files :
  scan_files p files = Ok s → scan_files (q ∪ p) files = Ok (q ∪ s).
Proof.
  rewrite (scan_files_union p), (scan_files_union (q ∪ p)).
  destruct (scan_files ∅ files); simpl; [|done]. intros [= <-]. f_equal. set_solver.
Qed.

Lemma scan_files_cons_Ok p i f files s :
  scan_files p ((i, f) :: files) = Ok s ↔
  ∃ Kf, scan_file ∅ f = Ok Kf ∧ scan_files (Kf ∪ p) files = Ok s.
Proof.
  rewrite scan_files_cons, scan_file_union.
  destruct (scan_file ∅ f) as [Kf|]; simpl; split.
  - eauto.
  - by intros (K & [= ->] & ?).
  - done.
  - by intros (K & ? & _).
Qed.

Lemma scan_files_perm l1 l2 :
  l1 ≡ₚ l2 → ∀ p s, scan_files p l1 = Ok s → scan_files p l2 = Ok s.
Proof.
  induction 1 as [|[i f] l1 l2 _ IH|[i f] [j g] l|l1 l2 l3 _ IH1 _ IH2]; intros p s.
  - done.
  - rewrite !scan_files_cons_Ok. intros (Kf & ? & ?). eauto.
  - rewrite !scan_files_cons_Ok. intros (Kg & ? & (Kf & ? & Hl)%scan_files_cons_Ok).
    exists Kf. split; [done|]. apply scan_files_cons_Ok. exists Kg. split; [done|].
    by replace (Kg ∪ (Kf ∪ p)) with (Kf ∪ (Kg ∪ p)) by set_solver.
  - eauto.
Qed.

Lemma load_processed_ids_Ok fd s :
  load_processed_ids fd = Ok s ↔ scan_files ∅ (map_to_list (chunks fd)) = Ok s.
Proof.
  unfold load_processed_ids. split; apply scan_files_perm.
  - apply list_existing_json_perm.
  - symmetry. apply list_existing_json_perm.
Qed.

Lemma scan_insert_fresh (m : gmap Z file) i f p s :
  m !! i = None →
  scan_files p ((i, f) :: map_to_list m) = Ok s →
  scan_files p (map_to_list (<[i := f]> m)) = Ok s.
Proof.
  intros Hi. apply scan_files_perm. symmetry. by apply map_to_list_insert.
Qed.

(** Scanning after the loop that writes the new chunks. *)
Lemma scan_write_chunks fuel cap (l : list dict) idx fd p s K :
  (0 < cap)%nat → (length l ≤ fuel)%nat →
  (∀ j, idx ≤ j → chunks fd !! j = None) →
  scan_files p (map_to_list (chunks fd)) = Ok s →
  scan_entries ∅ l = Ok K →
  scan_files p (map_to_list (chunks (write_chunks fuel cap l idx fd))) = Ok (K ∪ s).
Proof.
  intros Hcap. revert l idx fd s K.
  induction fuel as [|fuel IH]; intros l idx fd s K Hlen Hfresh Hs HK.
  - destruct l; simpl in *; [|lia]. injection HK as <-.
    by replace (∅ ∪ s) with s by set_solver.
  - destruct l as [|x l]; simpl.
    { simpl in HK. injection HK as <-. by replace (∅ ∪ s) with s by set_solver. }
    rewrite <- (take_drop cap (x :: l)) in HK.
    apply scan_entries_app_Ok in HK as (Kt & Kd & Ht & Hd & ->).
    replace (Kd ∪ Kt ∪ s) with (Kd ∪ (Kt ∪ s)) by set_solver.
    apply IH.
    + rewrite length_drop. simpl in *. lia.
    + intros j Hj. rewrite chunks_write_chunk, lookup_insert_ne by lia. apply Hfresh. lia.
    + rewrite chunks_write_chunk. apply scan_insert_fresh; [apply Hfresh; lia|].
      apply scan_files_cons_Ok. exists Kt. split; [done|].
      by apply scan_files_more.
    + done.
Qed.


Lemma scan_entries_resolves (new_list : list dict) (keys : list string) :
  Forall2 resolves new_list keys →
  scan_entries ∅ new_list = Ok (list_to_set keys).
Proof.
  induction 1 as [|e k new_list keys He _ IH]; simpl; [done|].
  rewrite He; simpl. rewrite scan_entries_union, IH; simpl. f_equal. set_solver.
Qed.

(** C2. Loading the keys, appending records that resolve to pairwise
    distinct keys and loading again gives the union of the keys loaded
    first and the keys of the new records, each new key once. *)
Theorem load_append_load (fd : folder) (new_list : list dict) (keys : list string)
    (chunk : Z) (s : gset string) :
  load_processed_ids fd = Ok s →
  Forall2 resolves new_list keys →
  NoDup keys →
  0 < chunk →
  ∃ fd',
    append_patents new_list fd chunk = Ok fd' ∧
    load_processed_ids fd' = Ok (s ∪ list_to_set keys) ∧
    size (list_to_set keys : gset string) = length new_list.
Proof.
  intros Hs%load_processed_ids_Ok Hkeys Hnodup Hchunk.
  pose proof (scan_entries_resolves _ _ Hkeys) as HK.
  assert (Hsize : size (list_to_set keys : gset string) = length new_list).
  { rewrite size_list_to_set by done. symmetry. by eapply Forall2_length. }
  set (K := list_to_set keys : gset string) in *.
  replace (s ∪ K) with (K ∪ s) by set_solver.
  unfold append_patents. destruct new_list as [|x new_list].
  { exists fd. split; [done|]. split; [|done]. apply load_processed_ids_Ok.
    injection HK as <-. by replace (∅ ∪ s) with s by set_solver. }
  set (new_list' := x :: new_list) in *.
  destruct (Z.eqb_spec chunk 0) as [|_]; [lia|].
  destruct (Z.ltb_spec chunk 0) as [|_]; [lia|].
  assert (Hcap : (0 < Z.to_nat chunk)%nat) by lia.
  destruct (last (list_existing_json fd)) as [[last_idx last_file]|] eqn:Hlast.
  - apply last_existing_Some in Hlast as [Hi Hmax].
    set (content := match last_file with Parsed c => c | Unparsable => [] end).
    destruct (Z.ltb_spec (Z.of_nat (length content)) chunk) as [Hroom|Hfull].
    + set (space := Z.to_nat (chunk - Z.of_nat (length content))).
      eexists. split; [done|]. split; [|done]. apply load_processed_ids_Ok.
      rewrite <- (take_drop space new_list') in HK.
      apply scan_entries_app_Ok in HK as (Kt & Kd & Ht & Hd & ->).
      replace (Kd ∪ Kt ∪ s) with (Kd ∪ (Kt ∪ s)) by set_solver.
      apply scan_write_chunks; [done | lia | | | done].
      * intros j Hj. rewrite chunks_write_chunk, lookup_insert_ne by lia.
        destruct (chunks fd !! j) eqn:Hj'; [|done]. apply Hmax in Hj'. lia.
      * rewrite chunks_write_chunk, <- insert_delete_eq.
        apply scan_insert_fresh; [apply lookup_delete_eq|].
        eapply scan_files_perm in Hs; [|symmetry; by apply map_to_list_delete].
        apply scan_files_cons_Ok in Hs as (Kc & Hc & Hrest).
        apply scan_files_cons_Ok. simpl.
        assert (Hcontent : scan_entries ∅ content = Ok Kc).
        { unfold content. by destruct last_file. }
        exists (Kt ∪ Kc). split.
        -- rewrite scan_entries_app, Hcontent; simpl. by rewrite scan_entries_union, Ht.
        -- rewrite <- (assoc_L (∪)). by apply scan_files_more.
    + eexists. split; [done|]. split; [|done]. apply load_processed_ids_Ok.
      apply scan_write_chunks; [done | lia | | done | done].
      intros j Hj. destruct (chunks fd !! j) eqn:Hj'; [|done]. apply Hmax in Hj'. lia.
  - eexists. split; [done|]. split; [|done]. apply load_processed_ids_Ok.
    apply scan_write_chunks; [done | lia | | done | done].
    intros j _. apply last_existing_None in Hlast. by rewrite Hlast, lookup_empty.
Qed.


(** C9. When the last chunk cannot be parsed, an append takes its content
    for the empty list: the temporary file is written while the chunk
    still holds its old text, and the rename puts the first [chunk] new
    records, and nothing else, in its place. *)
Theorem unparsable_last_chunk_replaced (new_list : list dict) (fd : folder)
    (chunk last_idx : Z) :
  last_chunk fd last_idx Unparsable →
  new_list ≠ [] →
  0 < chunk →
  let cap := Z.to_nat chunk in
  let staged := write_tmp last_idx (take cap new_list) fd in
  ∃ fd',
    append_patents new_list fd chunk = Ok fd' ∧
    chunks fd' !! last_idx = Some (Parsed (take cap new_list)) ∧
    chunks staged = chunks fd ∧
    chunks (os_replace last_idx staged) = <[last_idx := Parsed (take cap new_list)]> (chunks fd) ∧
    fd' = write_chunks (length (drop cap new_list)) cap (drop cap new_list) (last_idx + 1)
            (os_replace last_idx staged).
Proof.
  intros [Hi Hmax] Hne Hchunk cap staged.
  pose proof (last_existing_intro _ _ _ Hi Hmax) as Hlast.
  unfold append_patents. destruct new_list as [|x new_list]; [done|].
  rewrite Hlast. cbv zeta. cbn [length].
  destruct (Z.ltb_spec (Z.of_nat 0) chunk) as [_|]; [|lia].
  destruct (Z.eqb_spec chunk 0) as [|_]; [lia|].
  destruct (Z.ltb_spec chunk 0) as [|_]; [lia|].
  replace (Z.to_nat (chunk - Z.of_nat 0)) with cap by (unfold cap; lia).
  eexists. split; [reflexivity|].
  split; [|split; [done|split; [|reflexivity]]].
  - rewrite write_chunks_lookup by (unfold cap; lia).
    rewrite decide_False by lia. rewrite chunks_write_chunk. by rewrite lookup_insert_eq.
  - apply (chunks_write_chunk last_idx (take cap (x :: new_list)) fd).
Qed.
End StoreFacts.

Section StoreWitnesses.
Import S01.

Lemma last_chunk_one_chunk_of_two :
  last_chunk one_chunk_of_two 0 (Parsed [entry "US-1"; entry "US-2"]).
Proof.
  split; [reflexivity|]. intros j g Hj. unfold one_chunk_of_two in Hj; simpl in Hj.
  apply lookup_singleton_Some in Hj as [<- _]. lia.
Defined.

(** C1 at capacity 3, a last chunk of two records and five new records:
    chunks of three, three and one record. *)
Lemma append_fills_then_splits_witness :
  last_chunk one_chunk_of_two 0 (Parsed [entry "US-1"; entry "US-2"]) ∧
  ∃ fd',
    append_patents five_new one_chunk_of_two 3 = Ok fd' ∧
    chunks fd' !! 0 = Some (Parsed [entry "US-1"; entry "US-2"; entry "US-3"]) ∧
    chunks fd' !! 1 = Some (Parsed [entry "US-4"; entry "US-5"; entry "US-6"]) ∧
    chunks fd' !! 2 = Some (Parsed [entry "US-7"]) ∧
    chunks fd' !! 3 = None.
Proof.
  split; [exact last_chunk_one_chunk_of_two|].
  destruct (append_fills_then_splits five_new [entry "US-1"; entry "US-2"] one_chunk_of_two 3 0
              last_chunk_one_chunk_of_two) as (fd' & Happ & Hlast & Hnew & Hother).
  { simpl. lia. }
  exists fd'. split; [exact Happ|]. split; [exact Hlast|].
  destruct (Hnew 0%nat) as (p0 & Hp0 & -> & _); [simpl; lia|].
  destruct (Hnew 1%nat) as (p1 & Hp1 & -> & _); [simpl; lia|].
  split; [exact Hp0|]. split; [exact Hp1|].
  rewrite (Hother 3); [reflexivity | lia |].
  intros j Hj. simpl in Hj. lia.
Defined.

(** C2 on a folder of one chunk and two new records. *)
Lemma load_append_load_witness :
  load_processed_ids one_chunk_of_two = Ok {[ "US1"; "US2" ]} ∧
  ∃ fd',
    append_patents two_new one_chunk_of_two CHUNK_SIZE = Ok fd' ∧
    load_processed_ids fd' = Ok ({[ "US1"; "US2" ]} ∪ list_to_set ["US8"; "US9"]) ∧
    size (list_to_set ["US8"; "US9"] : gset string) = 2%nat.
Proof.
  assert (Hload : load_processed_ids one_chunk_of_two = Ok {[ "US1"; "US2" ]}).
  { vm_compute. reflexivity. }
  split; [exact Hload|].
  apply (load_append_load one_chunk_of_two two_new ["US8"; "US9"] CHUNK_SIZE _ Hload).
  - repeat constructor; vm_compute; reflexivity.
  - compute_done.
  - reflexivity.
Defined.

(** C9 on a folder whose second chunk is broken. *)
Lemma unparsable_last_chunk_replaced_witness :
  last_chunk broken_last_chunk 1 Unparsable ∧
  ∃ fd',
    append_patents [entry "US-3"] broken_last_chunk CHUNK_SIZE = Ok fd' ∧
    chunks fd' !! 1 = Some (Parsed [entry "US-3"]).
Proof.
  assert (Hlast : last_chunk broken_last_chunk 1 Unparsable).
  { split; [reflexivity|]. intros j g Hj. unfold broken_last_chunk in Hj; simpl in Hj.
    apply lookup_insert_Some in Hj as [[<- _]|[_ [<- _]%lookup_singleton_Some]]; lia. }
  split; [exact Hlast|].
  destruct (unparsable_last_chunk_replaced [entry "US-3"] broken_last_chunk CHUNK_SIZE 1 Hlast)
    as (fd' & Happ & Hchunk & _); [done | reflexivity |].
  exists fd'. split; [exact Happ | exact Hchunk].
Defined.
End StoreWitnesses.

(** ** Identity keys *)

Section IdentityFacts.
Import S01.

Lemma normalize_id_text s : normalize_id (VStr s) = Ok (normalize_text s).
Proof. reflexivity. Qed.

Lemma normalize_text_empty : normalize_text EmptyString = EmptyString.
Proof. reflexivity. Qed.

(** With an id the link is not read. *)
Lemma resolver_returns_with_id (row : dict) :
  has_id row = true → get_csv_patent_id row = Ok (resolved_key row).
Proof.
  unfold has_id, get_csv_patent_id, resolved_key. intros ->. apply normalize_id_text.
Qed.

(** Without an id the resolver returns when the link is missing, falsy
    or a text. *)
Lemma resolver_returns_without_id (row : dict) :
  has_id row = false → link_is_text row → get_csv_patent_id row = Ok (resolved_key row).
Proof.
  unfold has_id, link_is_text, get_csv_patent_id, resolved_key, get.
  intros -> Hlink.
  destruct (row !! "result link") as [v|]; [|reflexivity].
  destruct Hlink as [Hfalsy | [s ->]].
  - unfold extract_patent_id. rewrite Hfalsy. simpl.
    destruct v; try reflexivity. by destruct s.
  - unfold extract_patent_id. destruct (Value.truthy (VStr s)) eqn:Ht; simpl.
    + destruct (Re.patent_id s) as [g|]; simpl; [|reflexivity].
      destruct (Py.nonempty (Py.strip g)) eqn:Hg; [reflexivity|].
      destruct (Py.strip g); [reflexivity | discriminate].
    + destruct s; [|discriminate]. reflexivity.
Qed.

(** Where the resolver raises: on every row without a usable id whose
    link is truthy and not a text. The guard [if not url] lets such a link
    through to [re.search]. *)
Lemma resolver_raises_without_id (row : dict) (v : value) :
  has_id row = false → row !! "result link" = Some v →
  Value.truthy v = true → (∀ s, v ≠ VStr s) →
  get_csv_patent_id row
  = Raise (TypeError ("expected string or bytes-like object, got '" +:+ type_name v +:+ "'")).
Proof.
  unfold has_id, get_csv_patent_id, get. intros -> -> Ht Hv.
  unfold extract_patent_id. rewrite Ht. simpl.
  destruct v; try done. by destruct (Hv s).
Qed.

(** C3. The resolver does not return on a row whose link cell is empty,
    which [pandas] reads as the float NaN, when the row has no usable id:
    an id that is a blank, or no id column. NaN is truthy, passes the
    guard [if not url] and makes [re.search] raise [TypeError]. The id is
    rendered with [str] before it is used; the link is not. *)
Theorem resolver_raises_on_nan_link :
  (get_csv_patent_id blank_id_nan_link
     = Raise (TypeError "expected string or bytes-like object, got 'float'")
   ∧ ¬ returns (get_csv_patent_id blank_id_nan_link))
  ∧ (get_csv_patent_id no_id_nan_link
       = Raise (TypeError "expected string or bytes-like object, got 'float'")
     ∧ ¬ returns (get_csv_patent_id no_id_nan_link)).
Proof.
  assert (H1 : get_csv_patent_id blank_id_nan_link
    = Raise (TypeError "expected string or bytes-like object, got 'float'")).
  { vm_compute. reflexivity. }
  assert (H2 : get_csv_patent_id no_id_nan_link
    = Raise (TypeError "expected string or bytes-like object, got 'float'")).
  { vm_compute. reflexivity. }
  split; (split; [done|]).
  - rewrite H1. intros [k Hk]. discriminate.
  - rewrite H2. intros [k Hk]. discriminate.
Qed.
End IdentityFacts.

(** ** Retries *)

Section RetryFacts.

(** When an attempt of the scraping worker succeeds and when it fails. *)
Lemma attempt01_scraped scraper row pid url n final_url data s :
  scraper n = S01.Scraped "Success" final_url data →
  get row "id" (VStr pid) = VStr s →
  S01.attempt scraper row pid url n
    = Ok (<["original_id" := get row "id" (VStr "")]>
          (<["csv_title" := get row "title" (VStr "")]>
           (<["url" := Value.or_ final_url (VStr url)]>
            (<["id" := VStr (normalize_text s)]> data)))).
Proof. intros Hn Hid. unfold S01.attempt. by rewrite Hn, Hid. Qed.

Lemma attempt01_raises scraper row pid url n e :
  scraper n = S01.ScrapeRaises e → S01.attempt scraper row pid url n = Raise e.
Proof. intros Hn. unfold S01.attempt. by rewrite Hn. Qed.

Lemma attempt01_status scraper row pid url n err final_url data :
  scraper n = S01.Scraped err final_url data → err ≠ "Success" →
  S01.attempt scraper row pid url n = Raise (ValueError ("HTTP error: " +:+ err)).
Proof.
  intros Hn Herr. unfold S01.attempt. rewrite Hn.
  destruct (String.eqb_spec err "Success"); [done | reflexivity].
Qed.

Lemma retry01 scraper row pid url data e1 e2 :
  S01.get_csv_patent_id row = Ok pid →
  strip_ (get row "result link" (VStr "")) = Ok url →
  Py.nonempty url = true → Py.nonempty pid = true →
  S01.attempt scraper row pid url 1 = Raise e1 →
  S01.attempt scraper row pid url 2 = Raise e2 →
  S01.attempt scraper row pid url 3 = Ok data →
  S01.process_row scraper row
    = Ok (Some data, [Call 1; Sleep (S01.RETRY_DELAY * 2 ^ (1 - 1)); Call 2;
                      Sleep (S01.RETRY_DELAY * 2 ^ (2 - 1)); Call 3]).
Proof.
  intros Hpid Hurl Hu Hp H1 H2 H3. unfold S01.process_row.
  rewrite Hpid; simpl. rewrite Hurl; simpl. rewrite Hu, Hp; simpl.
  rewrite H1; simpl. rewrite H2; simpl. rewrite H3; simpl. reflexivity.
Qed.

Lemma retry04 shutdown client text r :
  nonblank text → (∀ n, shutdown n = false) →
  S04.attempt client 1 = None → S04.attempt client 2 = None →
  S04.attempt client 3 = Some r →
  S04.async_get_edtech_classification shutdown client text
    = (r, [Call 1; Sleep (1 * 2); Call 2; Sleep (2 * 2); Call 3]).
Proof.
  intros Ht Hs H1 H2 H3. unfold S04.async_get_edtech_classification.
  rewrite Ht; simpl. rewrite !Hs, H1; simpl. rewrite H2; simpl. rewrite H3; simpl.
  reflexivity.
Qed.

Lemma retry02 key default client text v e1 e2 :
  nonblank text →
  S02.attempt key default client 1 = Raise e1 →
  S02.attempt key default client 2 = Raise e2 →
  S02.attempt key default client 3 = Ok v →
  S02.classify key default client text = (v, [Call 1; Sleep 1; Call 2; Sleep 2; Call 3]).
Proof.
  intros Ht H1 H2 H3. unfold S02.classify.
  rewrite Ht; simpl. rewrite H1; simpl. rewrite H2; simpl. rewrite H3; simpl. reflexivity.
Qed.

(** C4. When the first two attempts fail and the third succeeds, the
    result of the third attempt is returned after exactly two sleeps: of
    [RETRY_DELAY * 2 ^ (attempt - 1)] seconds, 2 then 4, in the scraping
    worker; of [attempt * 2] seconds, 2 then 4, in the taxonomy
    classifier; of [attempt] seconds, 1 then 2, in the other two
    classifiers. *)
Theorem two_failures_two_sleeps :
  (∀ scraper row pid url data e1 e2,
     S01.get_csv_patent_id row = Ok pid →
     strip_ (get row "result link" (VStr "")) = Ok url →
     Py.nonempty url = true → Py.nonempty pid = true →
     S01.attempt scraper row pid url 1 = Raise e1 →
     S01.attempt scraper row pid url 2 = Raise e2 →
     S01.attempt scraper row pid url 3 = Ok data →
     ∃ log,
       S01.process_row scraper row = Ok (Some data, log) ∧
       sleeps log = [S01.RETRY_DELAY * 2 ^ (1 - 1); S01.RETRY_DELAY * 2 ^ (2 - 1)] ∧
       sleeps log = [2; 4] ∧
       length (sleeps log) = 2%nat ∧ Sorted Z.le (sleeps log)) ∧
  (∀ shutdown client text r,
     nonblank text → (∀ n, shutdown n = false) →
     S04.attempt client 1 = None → S04.attempt client 2 = None →
     S04.attempt client 3 = Some r →
     ∃ log,
       S04.async_get_edtech_classification shutdown client text = (r, log) ∧
       sleeps log = [1 * 2; 2 * 2] ∧
       sleeps log = [2; 4] ∧
       length (sleeps log) = 2%nat ∧ Sorted Z.le (sleeps log)) ∧
  (∀ key default client text v e1 e2,
     nonblank text →
     S02.attempt key default client 1 = Raise e1 →
     S02.attempt key default client 2 = Raise e2 →
     S02.attempt key default client 3 = Ok v →
     ∃ log,
       S02.classify key default client text = (v, log) ∧
       sleeps log = [1; 2] ∧
       length (sleeps log) = 2%nat ∧ Sorted Z.le (sleeps log)).
Proof.
  assert (Hsorted : ∀ a b : Z, a ≤ b → Sorted Z.le [a; b]).
  { intros a b Hab. repeat constructor. exact Hab. }
  split; [|split].
  - intros. eexists. split; [by eapply retry01|].
    repeat split; try done. apply Hsorted. done.
  - intros. eexists. split; [by eapply retry04|].
    repeat split; try done. apply Hsorted. done.
  - intros. eexists. split; [by eapply retry02|].
    repeat split; try done. apply Hsorted. done.
Qed.
End RetryFacts.

Section RetryWitness.

(** C4 on a scraper and on clients that fail twice. *)
Lemma two_failures_two_sleeps_witness :
  (∃ log,
     S01.process_row (scraper_fails_twice {[ "abstract_text" := VStr "A" ]}) good_row
       = Ok (Some {[ "abstract_text" := VStr "A"; "id" := VStr "US1A";
                     "url" := VStr "https://patents.google.com/patent/US1/en";
                     "csv_title" := VStr "Teaching aid"; "original_id" := VStr "US-1-A" ]}, log)
     ∧ sleeps log = [2; 4]) ∧
  (∃ log,
     S04.async_get_edtech_classification (fun _ => false) (fails_twice good_answer)
       (VStr "A device") = (S04.classification (VStr "hybrid") (VStr "mixed groups"), log)
     ∧ sleeps log = [2; 4]) ∧
  (∃ log,
     S02.classify "teaching_content" (VBool false)
       (fails_twice (Message (VStr (dq "{'teaching_content': true}")))) (VStr "A device")
       = (VBool true, log)
     ∧ sleeps log = [1; 2]).
Proof.
  destruct two_failures_two_sleeps as (H1 & H2 & H3).
  split; [|split].
  - destruct (H1 (scraper_fails_twice {[ "abstract_text" := VStr "A" ]}) good_row
               "US1A" "https://patents.google.com/patent/US1/en"
               {[ "abstract_text" := VStr "A"; "id" := VStr "US1A";
                  "url" := VStr "https://patents.google.com/patent/US1/en";
                  "csv_title" := VStr "Teaching aid"; "original_id" := VStr "US-1-A" ]}
               (Failure "timeout") (ValueError "HTTP error: HTTP Error 503"))
      as (log & Hrun & _ & Hs & _); try (vm_compute; reflexivity).
    exists log. split; [exact Hrun | exact Hs].
  - destruct (H2 (fun _ => false) (fails_twice good_answer) (VStr "A device")
               (S04.classification (VStr "hybrid") (VStr "mixed groups")))
      as (log & Hrun & _ & Hs & _); try (vm_compute; reflexivity).
    exists log. split; [exact Hrun | exact Hs].
  - destruct (H3 "teaching_content" (VBool false)
               (fails_twice (Message (VStr (dq "{'teaching_content': true}")))) (VStr "A device")
               (VBool true) (Failure "timeout") (Failure "timeout"))
      as (log & Hrun & Hs & _); try (vm_compute; reflexivity).
    exists log. split; [exact Hrun | exact Hs].
Defined.
End RetryWitness.

(** ** The page fetcher *)

Section FetchFacts.
Import S03.

(** C5, amended. The session is asked for the [/en] page first. When
    that fails, with status 404 or in any other way, the session is asked
    for the base URL; the fetcher returns no page only when this fails
    too. The fetcher asks the session once for an address; what the
    session sends again is the session's own affair. *)
Theorem fallback_on_any_failure (session : string -> http) (original_id : string) :
  let en := en_url original_id in
  let base := base_url original_id in
  match session en with
  | Page content => _get_page_html session original_id = (Some content, [HttpGet en])
  | HTTPError _ | Unreachable _ =>
      _get_page_html session original_id
        = (match session base with
           | Page content => Some content
           | _ => None
           end, [HttpGet en; HttpGet base])
  end.
Proof.
  intros en base. unfold _get_page_html.
  fold (base_url original_id). fold base.
  change (base +:+ "/en") with en.
  destruct (session en); [reflexivity | |]; by destruct (session base).
Qed.

(** C5 fails when the [/en] request is answered 403, a status the
    session does not retry, and when it is answered 500 until the session
    gives up: each time the base URL is asked for and its page
    returned. *)
Lemma fallback_after_other_failure :
  (en_forbidden (en_url "US-1") = HTTPError 403 ∧ 403 ≠ 404 ∧ passed_on 403
   ∧ _get_page_html en_forbidden "US-1"
     = (Some "<html>US1</html>", [HttpGet (en_url "US-1"); HttpGet (base_url "US-1")])
   ∧ _get_page_html en_forbidden "US-1" ≠ (None, [HttpGet (en_url "US-1")]))
  ∧ (en_gives_up (en_url "US-1") = Unreachable (Failure "too many 500 error responses")
     ∧ _get_page_html en_gives_up "US-1"
       = (Some "<html>US1</html>", [HttpGet (en_url "US-1"); HttpGet (base_url "US-1")])
     ∧ _get_page_html en_gives_up "US-1" ≠ (None, [HttpGet (en_url "US-1")])).
Proof.
  assert (H1 : _get_page_html en_forbidden "US-1"
    = (Some "<html>US1</html>", [HttpGet (en_url "US-1"); HttpGet (base_url "US-1")])).
  { vm_compute. reflexivity. }
  assert (H2 : _get_page_html en_gives_up "US-1"
    = (Some "<html>US1</html>", [HttpGet (en_url "US-1"); HttpGet (base_url "US-1")])).
  { vm_compute. reflexivity. }
  split.
  - split; [vm_compute; reflexivity|]. split; [lia|]. split.
    + split; [lia|]. unfold status_forcelist. set_solver.
    + split; [exact H1|]. rewrite H1. discriminate.
  - split; [vm_compute; reflexivity|]. split; [exact H2|]. rewrite H2. discriminate.
Qed.
End FetchFacts.

(** ** Malformed replies *)

Section MalformedFacts.

Lemma extract_json02_text (c : string) : ∃ cleaned, S02.extract_json (VStr c) = Ok cleaned.
Proof.
  unfold S02.extract_json; simpl.
  destruct (Re.fenced_object _ c); [eauto|].
  destruct (Re.fenced_any c); [|eauto].
  destruct (_ && _); eauto.
Qed.

Lemma malformed02_attempt key default client n :
  malformed02 (client n) → S02.attempt key default client n = Ok default.
Proof.
  intros (c & cleaned & Hc & Hclean & Hload). unfold S02.attempt.
  rewrite Hc, Hclean; simpl. unfold S02.read_answer. by rewrite Hload.
Qed.

Lemma malformed04_attempt client n :
  malformed04 (client n) → S04.attempt client n = None.
Proof.
  intros (content & e & Hc & Hread). unfold S04.attempt. rewrite Hc. by rewrite Hread.
Qed.

(** C6, amended. In the taxonomy classifier a reply that cannot be read
    is a failed attempt: without shutdown the next attempt follows after
    the sleep, and after three such replies the error classification is
    returned. In the other two classifiers a reply that is not JSON ends
    the call at once with the default answer; no further attempt is
    made. *)
Theorem malformed_output_by_stage :
  (∀ shutdown client text,
     nonblank text → (∀ n, shutdown n = false) →
     (∀ n, (1 ≤ n ≤ 3)%nat → malformed04 (client n)) →
     S04.async_get_edtech_classification shutdown client text
       = (S04.error_result, [Call 1; Sleep 2; Call 2; Sleep 4; Call 3])) ∧
  (∀ shutdown client text r,
     nonblank text → (∀ n, shutdown n = false) →
     malformed04 (client 1%nat) → S04.attempt client 2 = Some r →
     S04.async_get_edtech_classification shutdown client text
       = (r, [Call 1; Sleep 2; Call 2])) ∧
  (∀ key default client text,
     nonblank text → malformed02 (client 1%nat) →
     S02.classify key default client text = (default, [Call 1])).
Proof.
  split; [|split].
  - intros shutdown client text Ht Hs Hm. unfold S04.async_get_edtech_classification.
    rewrite Ht; simpl.
    rewrite !Hs, !malformed04_attempt by (apply Hm; lia). reflexivity.
  - intros shutdown client text r Ht Hs Hm H2. unfold S04.async_get_edtech_classification.
    rewrite Ht; simpl. rewrite !Hs, malformed04_attempt by done. simpl. rewrite H2. reflexivity.
  - intros key default client text Ht Hm. unfold S02.classify.
    rewrite Ht; simpl. rewrite malformed02_attempt by done. reflexivity.
Qed.

(** C6, amended, on clients whose replies are prose. *)
Lemma malformed_output_by_stage_witness :
  S04.async_get_edtech_classification (fun _ => false)
      (fun _ => Message (VStr "I cannot classify this.")) (VStr "A device")
    = (S04.error_result, [Call 1; Sleep 2; Call 2; Sleep 4; Call 3]) ∧
  S04.async_get_edtech_classification (fun _ => false)
      (fun n => match n with
                | 1%nat => Message (VStr "I cannot classify this.")
                | _ => good_answer
                end) (VStr "A device")
    = (S04.classification (VStr "hybrid") (VStr "mixed groups"), [Call 1; Sleep 2; Call 2]) ∧
  S02.classify "teaching_content" (VBool false) garbage_then_true (VStr "A device")
    = (VBool false, [Call 1]) ∧
  S02.classify "is_covid" (VStr "non-covid") garbage_then_true (VStr "A device")
    = (VStr "non-covid", [Call 1]).
Proof.
  destruct malformed_output_by_stage as (H1 & H2 & H3).
  assert (Hm4 : malformed04 (Message (VStr "I cannot classify this."))).
  { eexists _, _. split; [reflexivity|]. vm_compute. reflexivity. }
  assert (Hm2 : malformed02 (garbage_then_true 1)).
  { eexists _, _. split; [reflexivity|]. split; vm_compute; reflexivity. }
  split; [|split; [|split]].
  - apply H1; [vm_compute; reflexivity | reflexivity | intros; exact Hm4].
  - apply H2; [vm_compute; reflexivity | reflexivity | exact Hm4 | vm_compute; reflexivity].
  - apply H3; [vm_compute; reflexivity | exact Hm2].
  - apply H3; [vm_compute; reflexivity | exact Hm2].
Defined.

(** C6 fails in the education-relevance classifier: the first reply is
    prose, the second would be a proper answer, and the call returns
    [False] after one request. *)
Lemma malformed_output_not_retried :
  malformed02 (garbage_then_true 1) ∧
  S02.attempt "teaching_content" (VBool false) garbage_then_true 2 = Ok (VBool true) ∧
  S02.async_get_teaching_content garbage_then_true (VStr "A device") = (VBool false, [Call 1]).
Proof.
  split; [|split]; [|vm_compute; reflexivity..].
  eexists _, _. split; [reflexivity|]. split; vm_compute; reflexivity.
Qed.
End MalformedFacts.

(** ** Fenced payloads *)

Section TextFacts.

Lemma append_cons c a b : String c a +:+ b = String c (a +:+ b).
Proof. reflexivity. Qed.

Lemma length_append a b :
  String.length (a +:+ b) = (String.length a + String.length b)%nat.
Proof. induction a as [|c a IH]; [done|]. rewrite append_cons. simpl. by rewrite IH. Qed.

Lemma substring_prefix a b : String.substring 0 (String.length a) (a +:+ b) = a.
Proof.
  induction a as [|c a IH]; simpl.
  - by destruct b.
  - by rewrite IH.
Qed.

Lemma captured_app a b : Re.captured (a +:+ b) b = a.
Proof.
  unfold Re.captured. rewrite length_append.
  replace (String.length a + String.length b - String.length b)%nat
    with (String.length a) by lia.
  apply substring_prefix.
Qed.

Lemma last_char_cons c s :
  s ≠ EmptyString → Py.last_char (String c s) = Py.last_char s.
Proof. by destruct s. Qed.

Lemma last_char_app a b :
  b ≠ EmptyString → Py.last_char (a +:+ b) = Py.last_char b.
Proof.
  intros Hb. induction a as [|c a IH]; [done|].
  rewrite append_cons, last_char_cons; [done|]. by destruct a, b.
Qed.

Lemma rstrip_id s c :
  Py.last_char s = Some c → Py.is_space c = false → Py.rstrip s = s.
Proof.
  intros Hlast Hc. induction s as [|a s IH]; [done|].
  destruct s as [|b s].
  - simpl in *. injection Hlast as ->. by rewrite Hc.
  - rewrite last_char_cons in Hlast by done.
    change (Py.rstrip (String a (String b s)))
      with (match Py.rstrip (String b s) with
            | EmptyString => if Py.is_space a then EmptyString else String a EmptyString
            | r => String a r
            end).
    by rewrite IH.
Qed.

Lemma strip_id s a c :
  Py.startswith s (String a EmptyString) = true → Py.is_space a = false →
  Py.last_char s = Some c → Py.is_space c = false →
  Py.strip s = s.
Proof.
  intros Hs Ha Hl Hc. unfold Py.strip.
  assert (Py.lstrip s = s) as ->; [|by eapply rstrip_id].
  destruct s as [|b s]; [done|]. unfold Py.startswith in Hs. simpl in Hs.
  destruct (Ascii.eqb_spec a b) as [->|]; [|done]. simpl. by rewrite Ha.
Qed.

Lemma startswith_char s a :
  Py.startswith s (String a EmptyString) = true → ∃ q, s = String a q.
Proof.
  destruct s as [|b s]; [done|]. unfold Py.startswith; simpl.
  destruct (Ascii.eqb_spec a b) as [->|]; [eauto | done].
Qed.

Lemma endswith_last s c : Py.endswith_char s c = true → Py.last_char s = Some c.
Proof.
  unfold Py.endswith_char. destruct (Py.last_char s) as [d|]; [|done].
  by intros ->%Ascii.eqb_eq.
Qed.
End TextFacts.

Section FenceFacts.
Context {A : Type}.
Implicit Types k : @Re.cont A.

Lemma fence_free_cons c s :
  fence_free (String c s) →
  Py.strip_prefix Re.backticks (String c s) = None ∧ fence_free s.
Proof.
  unfold fence_free, Re.occurs. cbn [Re.search]. unfold Re.lit at 1.
  destruct (Py.strip_prefix Re.backticks (String c s)); [done|]. auto.
Qed.

Lemma fence_free_head s :
  fence_free s → Py.strip_prefix Re.backticks s = None.
Proof. destruct s; [done|]. by intros [? _]%fence_free_cons. Qed.

Lemma search_fence_free k s :
  fence_free s → Re.search (Re.lit Re.backticks k) s = None.
Proof.
  induction s as [|c s IH]; intros Hs.
  - reflexivity.
  - apply fence_free_cons in Hs as [Hhead Hs]. cbn [Re.search]. unfold Re.lit at 1.
    rewrite Hhead. by apply IH.
Qed.

(** No fence starts in a text without fences that ends with a brace,
    whatever follows the text. *)
Lemma no_fence_across q t :
  Py.last_char q = Some "}"%char →
  Py.strip_prefix Re.backticks q = None →
  Py.strip_prefix Re.backticks (q +:+ t) = None.
Proof.
  intros Hlast Hq.
  destruct q as [|c1 q]; [done|]. rewrite append_cons.
  unfold Re.backticks in *. cbn [Py.strip_prefix] in *.
  destruct (Ascii.eqb_spec "`" c1) as [<-|]; [|done].
  destruct q as [|c2 q]; [done|]. rewrite append_cons.
  destruct (Ascii.eqb_spec "`" c2) as [<-|]; [|done].
  destruct q as [|c3 q]; [done|]. rewrite append_cons.
  destruct (Ascii.eqb_spec "`" c3) as [<-|]; [|done]. done.
Qed.

Lemma space_not_backtick c s :
  Py.is_space c = true → Py.strip_prefix Re.backticks (String c s) = None.
Proof.
  intros Hc. unfold Re.backticks. cbn [Py.strip_prefix].
  destruct (Ascii.eqb_spec "`" c) as [<-|]; [done | done].
Qed.

(** After a brace inside the payload the closing part of the pattern,
    white space and a fence, does not match. *)
Lemma closing_fails_inside k q t :
  q ≠ EmptyString → Py.last_char q = Some "}"%char → fence_free q →
  Re.star Py.is_space (Re.lit Re.backticks k) (q +:+ t) = None.
Proof.
  induction q as [|c q IH]; intros Hne Hlast Hfree; [done|].
  rewrite append_cons. cbn [Re.star].
  destruct (Py.is_space c) eqn:Hc.
  - destruct q as [|c' q].
    { simpl in Hlast. injection Hlast as ->. done. }
    apply fence_free_cons in Hfree as [_ Hfree].
    rewrite last_char_cons in Hlast by done.
    rewrite IH by done.
    unfold Re.lit. by rewrite space_not_backtick.
  - unfold Re.lit. rewrite <- append_cons.
    rewrite no_fence_across; [done | done | by apply fence_free_head].
Qed.
End FenceFacts.

Section ExtractFacts.


Lemma closing_at_fence g : closing g closing_fence = Some (Re.captured g closing_fence).
Proof. reflexivity. Qed.

Lemma lazy_to_last_brace q g :
  Py.last_char q = Some "}"%char → fence_free q →
  Re.star_lazy Re.any_char (Re.lit "}" (closing g)) (q +:+ closing_fence)
    = Some (Re.captured g closing_fence).
Proof.
  induction q as [|c q IH]; intros Hlast Hfree; [done|].
  pose proof (proj2 (fence_free_cons _ _ Hfree)) as Hfree'.
  rewrite append_cons. cbn [Re.star_lazy]. unfold Re.lit at 1. cbn [Py.strip_prefix].
  assert (Hq : q ≠ EmptyString → Re.star_lazy Re.any_char (Re.lit "}" (closing g))
                 (q +:+ closing_fence) = Some (Re.captured g closing_fence)).
  { intros Hne. apply IH; [by rewrite last_char_cons in Hlast | done]. }
  destruct (Ascii.eqb_spec "}" c) as [<-|Hc].
  - destruct q as [|c' q]; [apply closing_at_fence|].
    unfold closing at 1.
    rewrite closing_fails_inside; [| done | by rewrite last_char_cons in Hlast | done].
    cbn [Re.any_char]. by apply Hq.
  - destruct q as [|c' q].
    { simpl in Hlast. congruence. }
    cbn [Re.any_char]. by apply Hq.
Qed.

Lemma greedy_to_last_brace q g :
  Py.last_char q = Some "}"%char →
  Re.star Re.any_char (Re.lit "}" (closing g)) (q +:+ closing_fence)
    = Some (Re.captured g closing_fence).
Proof.
  induction q as [|c q IH]; intros Hlast; [done|].
  rewrite append_cons. cbn [Re.star Re.any_char].
  destruct q as [|c' q].
  - simpl in Hlast. injection Hlast as ->. reflexivity.
  - rewrite IH; [done|]. by rewrite last_char_cons in Hlast.
Qed.

Lemma wrap_shape q :
  wrap (String "{" q)
  = String "`" (String "`" (String "`" (String "j" (String "s" (String "o" (String "n"
      (String newline (String "{" (q +:+ closing_fence))))))))).
Proof. reflexivity. Qed.

Lemma fenced_object_wrapped inner q :
  (∀ g, inner Re.any_char (Re.lit "}" (closing g)) (q +:+ closing_fence)
        = Some (Re.captured g closing_fence)) →
  Re.fenced_object inner (wrap (String "{" q)) = Some (String "{" q).
Proof.
  intros Hinner. rewrite wrap_shape. unfold Re.fenced_object.
  cbn [Re.search]. unfold Re.lit at 1. unfold Re.backticks at 1.
  cbn [Py.strip_prefix Ascii.eqb Bool.eqb]. unfold Re.opt_lit, Re.lit at 1.
  cbn [Py.strip_prefix Ascii.eqb Bool.eqb]. cbn [Re.star].
  change (Py.is_space newline) with true. cbn iota.
  change (Py.is_space "{") with false. cbn iota.
  unfold Re.lit at 1. cbn [Py.strip_prefix Ascii.eqb Bool.eqb].
  change (fun r : string => Re.star Py.is_space (Re.lit Re.backticks
            (fun _ => Some (Re.captured (String "{" (q +:+ closing_fence)) r))) r)
    with (closing (String "{" (q +:+ closing_fence))).
  rewrite Hinner. rewrite <- append_cons. by rewrite captured_app.
Qed.
End ExtractFacts.

Section ExtractTheorems.

Lemma last_char_wrap p : Py.last_char (wrap p) = Some "`"%char.
Proof.
  unfold wrap. rewrite last_char_app by done.
  rewrite last_char_cons by (by destruct p).
  by rewrite last_char_app.
Qed.

Lemma extract02_plain p :
  Py.startswith p "{" = true → Py.endswith_char p "}" = true → fence_free p →
  S02.extract_json (VStr p) = Ok p.
Proof.
  intros Hs He Hf. unfold S02.extract_json. cbn [re_search mbind result_bind].
  unfold Re.fenced_object, Re.fenced_any. rewrite !search_fence_free by done.
  cbn [strip_]. f_equal. eapply strip_id; [done.. | by apply endswith_last | done].
Qed.

Lemma extract02_wrapped p :
  Py.startswith p "{" = true → Py.endswith_char p "}" = true → fence_free p →
  S02.extract_json (VStr (wrap p)) = Ok p.
Proof.
  intros [q ->]%startswith_char He%endswith_last Hf.
  unfold S02.extract_json. cbn [re_search mbind result_bind].
  rewrite fenced_object_wrapped; [done|].
  intros g. destruct q as [|c q]; [done|].
  apply lazy_to_last_brace; [by rewrite last_char_cons in He | by apply fence_free_cons in Hf as [_ ?]].
Qed.

Lemma extract04_candidate p :
  Py.startswith p "{" = true → Py.endswith_char p "}" = true →
  ∀ text, Py.strip text = text →
    (match Re.fenced_object Re.star text with Some g => Py.strip g | None => text end) = p →
    S04.extract_json (VStr text)
    = match Json.loads p with
      | Some obj => Ok (Json.dumps obj)
      | None => Raise (JSONDecodeError p)
      end.
Proof.
  intros Hs He text Htext Hcand. unfold S04.extract_json. cbn [strip_ mbind result_bind].
  rewrite Htext, Hcand, Hs, He. reflexivity.
Qed.

Lemma extract04_plain p :
  Py.startswith p "{" = true → Py.endswith_char p "}" = true → fence_free p →
  S04.extract_json (VStr p)
  = match Json.loads p with
    | Some obj => Ok (Json.dumps obj)
    | None => Raise (JSONDecodeError p)
    end.
Proof.
  intros Hs He Hf. apply extract04_candidate; [done | done | |].
  - eapply strip_id; [done.. | by apply endswith_last | done].
  - unfold Re.fenced_object. by rewrite search_fence_free.
Qed.

Lemma extract04_wrapped p :
  Py.startswith p "{" = true → Py.endswith_char p "}" = true →
  S04.extract_json (VStr (wrap p))
  = match Json.loads p with
    | Some obj => Ok (Json.dumps obj)
    | None => Raise (JSONDecodeError p)
    end.
Proof.
  intros Hs He. apply extract04_candidate; [done | done | |].
  - eapply (strip_id _ "`"); [done | done | apply last_char_wrap | done].
  - pose proof Hs as [q ->]%startswith_char. pose proof He as Hl%endswith_last.
    rewrite fenced_object_wrapped.
    + eapply strip_id; [done.. | done | done].
    + intros g. destruct q as [|c q]; [done|].
      apply greedy_to_last_brace. by rewrite last_char_cons in Hl.
Qed.

(** C8, amended. For a payload from an opening to a closing brace that
    holds no run of three backticks, each extraction function gives the
    same result on the payload in a [json] fence and on the payload
    alone, so what is parsed is the same. *)
Theorem fenced_payload_extracted_alike (p : string) :
  Py.startswith p "{" = true → Py.endswith_char p "}" = true → fence_free p →
  S02.extract_json (VStr (wrap p)) = S02.extract_json (VStr p) ∧
  S05.extract_json (VStr (wrap p)) = S05.extract_json (VStr p) ∧
  S04.extract_json (VStr (wrap p)) = S04.extract_json (VStr p) ∧
  parsed (S02.extract_json (VStr (wrap p))) = Json.loads p ∧
  parsed (S02.extract_json (VStr p)) = Json.loads p ∧
  parsed (S04.extract_json (VStr (wrap p))) = parsed (S04.extract_json (VStr p)).
Proof.
  intros Hs He Hf. unfold S05.extract_json.
  rewrite extract02_wrapped, extract02_plain, extract04_wrapped, extract04_plain by done.
  done.
Qed.

(** C8, amended, on the payload of the specification. *)
Lemma fenced_payload_extracted_alike_witness :
  fence_free (dq "{'is_covid': 'covid'}") ∧
  S02.extract_json (VStr (wrap (dq "{'is_covid': 'covid'}")))
    = S02.extract_json (VStr (dq "{'is_covid': 'covid'}")) ∧
  parsed (S02.extract_json (VStr (wrap (dq "{'is_covid': 'covid'}"))))
    = Some (VDict [("is_covid", VStr "covid")]).
Proof.
  assert (Hf : fence_free (dq "{'is_covid': 'covid'}")) by (vm_compute; reflexivity).
  destruct (fenced_payload_extracted_alike (dq "{'is_covid': 'covid'}"))
    as (H1 & _ & _ & H4 & _); [vm_compute; reflexivity | vm_compute; reflexivity | exact Hf |].
  split; [exact Hf|]. split; [exact H1|]. rewrite H4. vm_compute. reflexivity.
Defined.

(** C8 fails on JSON objects with a fence inside a string: with a brace
    before the fence the lazy pattern of scripts 02 and 05 cuts the
    fenced payload short; with a fenced object inside, the function of
    script 04 takes that object out of the bare payload. *)
Lemma fence_inside_payload_breaks_extraction :
  Json.loads brace_in_text = Some (VDict [("a", VStr "}```")]) ∧
  parsed (S02.extract_json (VStr brace_in_text)) = Some (VDict [("a", VStr "}```")]) ∧
  parsed (S02.extract_json (VStr (wrap brace_in_text))) = None ∧
  Json.loads fenced_object_in_text = Some (VDict [("a", VStr "```{}```")]) ∧
  parsed (S04.extract_json (VStr fenced_object_in_text)) = Some (VDict []) ∧
  parsed (S04.extract_json (VStr (wrap fenced_object_in_text)))
    = Some (VDict [("a", VStr "```{}```")]).
Proof. repeat split; vm_compute; reflexivity. Qed.
End ExtractTheorems.

(** ** The output of the education-relevance stage *)

Section Stage02Facts.
Import S02.

Lemma with_abstract_filter records :
  Forall abstract_is_text records →
  with_abstract records = Ok (filter (fun r => has_abstract r) records).
Proof.
  induction 1 as [|r records [s Hs] _ IH]; [done|].
  cbn [with_abstract]. rewrite Hs, IH. cbn [strip_ mbind result_bind].
  assert (Hh : has_abstract r = Py.nonempty (Py.strip s)).
  { unfold has_abstract. by rewrite Hs. }
  rewrite filter_cons, Hh.
  by destruct (Py.nonempty (Py.strip s)).
Qed.

Lemma task_cases shutdown_at client i r :
  has_abstract r = true →
  task shutdown_at client i r
  = if shutdown_at i then r
    else <["teaching_content" := teaching_value (client i) r]> r.
Proof.
  unfold has_abstract, task, process_patent, teaching_value. intros Hr.
  destruct (shutdown_at i); [done|].
  destruct (get r "abstract_text" (VStr "")) as [| | | |s| |]; try done.
  cbn [strip_ mbind result_bind]. rewrite Hr.
  by destruct (async_get_teaching_content (client i) (VStr (Py.strip s))).
Qed.

Lemma task_keeps_abstract shutdown_at client i r :
  has_abstract r = true → has_abstract (task shutdown_at client i r) = true.
Proof.
  intros Hr. rewrite task_cases by done. destruct (shutdown_at i); [done|].
  unfold has_abstract, get in *. by rewrite lookup_insert_ne.
Qed.

(** C10. The list written by the education-relevance stage holds exactly
    the processed records whose [teaching_content] is [True]. A record
    annotated with another value is left out; a record whose task saw the
    shutdown flag stays unannotated and is left out; a record with a
    blank abstract has no task, would be annotated [None], and is left
    out. *)
Theorem only_true_records_written (shutdown_at : nat -> bool)
    (client : nat -> nat -> reply) (records : list dict) :
  Forall abstract_is_text records →
  let kept := filter (fun r => has_abstract r) records in
  ∃ out,
    main shutdown_at client records = Ok out ∧
    (∀ r', r' ∈ out ↔
       ∃ i r, kept !! i = Some r ∧ r' = task shutdown_at client i r ∧
              r' !! "teaching_content" = Some (VBool true)) ∧
    (∀ i r, kept !! i = Some r → shutdown_at i = false →
       task shutdown_at client i r
         = <["teaching_content" := teaching_value (client i) r]> r ∧
       (task shutdown_at client i r ∈ out ↔ teaching_value (client i) r = VBool true)) ∧
    (∀ i r, kept !! i = Some r → shutdown_at i = true →
       task shutdown_at client i r = r ∧
       (r !! "teaching_content" = None → r ∉ out)) ∧
    (∀ r', r' ∈ out → has_abstract r' = true ∧ r' !! "teaching_content" = Some (VBool true)) ∧
  (∀ r s, get r "abstract_text" (VStr "") = VStr s → Py.nonempty (Py.strip s) = false →
     process_patent false (client 0%nat) r = Ok (<["teaching_content" := VNone]> r, []) ∧
     r ∉ kept).
Proof.
  intros Hwf kept. unfold main. rewrite with_abstract_filter by done.
  cbn [mbind result_bind]. fold kept. eexists. split; [done|].
  set (out := filter _ _).
  assert (Hkept : ∀ i r, kept !! i = Some r → has_abstract r = true).
  { intros i r Hi. assert (Hr : r ∈ kept) by (apply list_elem_of_lookup; eauto).
    apply list_elem_of_filter in Hr as [Hr _]. by apply Is_true_true. }
  assert (Hout : ∀ r', r' ∈ out ↔
       ∃ i r, kept !! i = Some r ∧ r' = task shutdown_at client i r ∧
              r' !! "teaching_content" = Some (VBool true)).
  { intros r'. unfold out. rewrite list_elem_of_filter, list_elem_of_lookup. split.
    - intros [Htrue [i Hi]]. rewrite list_lookup_imap in Hi.
      destruct (kept !! i) as [r|] eqn:Hr; [|done]. injection Hi as <-.
      exists i, r. split; [done|]. split; [done|].
      unfold is_True in Htrue.
      by destruct (task shutdown_at client i r !! "teaching_content") as [[| [] | | | | |]|].
    - intros (i & r & Hi & -> & Ht). split.
      + by rewrite Ht.
      + exists i. by rewrite list_lookup_imap, Hi. }
  assert (Hin : ∀ r', r' ∈ out → has_abstract r' = true ∧ r' !! "teaching_content" = Some (VBool true)).
  { intros r' (i & r & Hi & -> & Ht)%Hout. split; [|done].
    apply task_keeps_abstract. by eapply Hkept. }
  split; [exact Hout|]. split; [|split; [|split; [exact Hin|]]].
  - intros i r Hi Hs. pose proof (task_cases shutdown_at client i r (Hkept _ _ Hi)) as Ht.
    rewrite Hs in Ht. split; [done|]. rewrite Ht. split.
    + intros [_ Htc]%Hin. rewrite lookup_insert_eq in Htc. congruence.
    + intros Hv. apply Hout. exists i, r. split; [done|]. split; [done|].
      by rewrite lookup_insert_eq, Hv.
  - intros i r Hi Hs. pose proof (task_cases shutdown_at client i r (Hkept _ _ Hi)) as Ht.
    rewrite Hs in Ht. split; [done|]. intros Hnone [_ Htc]%Hin. congruence.
  - intros r s Hr Hblank. split.
    + unfold process_patent. rewrite Hr. cbn [strip_ mbind result_bind]. by rewrite Hblank.
    + unfold kept. rewrite list_elem_of_filter. intros [Hk _].
      unfold has_abstract in Hk. rewrite Hr, Hblank in Hk. done.
Qed.

(** C10 on four records: one kept, one annotated [False], one with a
    blank abstract, one whose task starts after the shutdown. *)
Lemma only_true_records_written_witness :
  Forall abstract_is_text four_records ∧
  main shutdown_from_2 four_clients four_records
    = Ok [ <["teaching_content" := VBool true]> (abstract_of "A method of teaching") ] ∧
  abstract_of "A classroom robot"
    ∉ [ <["teaching_content" := VBool true]> (abstract_of "A method of teaching") ].
Proof.
  assert (Hwf : Forall abstract_is_text four_records).
  { repeat constructor; eexists; vm_compute; reflexivity. }
  destruct (only_true_records_written shutdown_from_2 four_clients four_records Hwf)
    as (out & Hmain & _ & _ & Hdown & _ & _).
  assert (Hout : out = [ <["teaching_content" := VBool true]> (abstract_of "A method of teaching") ]).
  { assert (Hc : main shutdown_from_2 four_clients four_records
      = Ok [ <["teaching_content" := VBool true]> (abstract_of "A method of teaching") ])
      by (vm_compute; reflexivity).
    congruence. }
  split; [exact Hwf|]. split; [by rewrite Hmain, Hout|].
  rewrite <- Hout.
  apply (Hdown 2%nat (abstract_of "A classroom robot")); reflexivity.
Defined.
End Stage02Facts.

(** ** Shutdown *)

Section LoopFacts.
Import S04 Loop04.
Variable client : nat -> nat -> reply.







End LoopFacts.

Section LoopAlone.
Import S04 Loop04.

Ltac turn :=
  match goal with
  | |- context [step ?c (Build_loop ?a ?b ?d ?e) ?k] =>
      let x := eval cbv [step main_done tasks shutdown_requested trace] in
                 (step c (Build_loop a b d e) k) in
      change (step c (Build_loop a b d e) k) with x;
      cbn [lookup list_lookup resume at_ record fst snd];
      unfold loop_top;
      cbn [Nat.ltb Nat.leb retry_limit negb insert list_insert app at_ record]
  end.

(** A task that runs alone and without a signal ends as [process_patent]
    does. *)
Lemma run_alone (client : nat -> nat -> reply) (r : dict) :
  tasks (run client (replicate 9 (Resume 0)) (dispatch false [r]))
  = [ {| record := (process_patent (fun _ => false) (client 0%nat) r).1; at_ := Finished |} ].
Proof.
  unfold run, dispatch.
  cbn [replicate foldl fmap list_fmap].
  set (start := Build_loop _ _ _ _).
  unfold process_patent, async_get_edtech_classification. simpl. subst start.
  destruct (strip_ (get r "description" (VStr ""))) as [d|e] eqn:Hd.
  2:{ repeat (turn; rewrite ?Hd). reflexivity. }
  destruct (Py.nonempty d) eqn:He.
  2:{ repeat (turn; rewrite ?Hd, ?He). reflexivity. }
  destruct (Py.nonempty (Py.strip d)) eqn:Hs.
  2:{ repeat (turn; rewrite ?Hd, ?He; change (as_text (VStr d)) with d; rewrite ?Hs).
      reflexivity. }
  cbn [negb].
  destruct (attempt (client 0%nat) 1) as [r1|] eqn:A1.
  { repeat (turn; rewrite ?Hd, ?He; change (as_text (VStr d)) with d; rewrite ?Hs, ?A1;
            cbn [negb Nat.ltb Nat.leb retry_limit]).
    reflexivity. }
  destruct (attempt (client 0%nat) 2) as [r2|] eqn:A2.
  { repeat (turn; rewrite ?Hd, ?He; change (as_text (VStr d)) with d; rewrite ?Hs, ?A1, ?A2;
            cbn [negb Nat.ltb Nat.leb retry_limit]).
    reflexivity. }
  destruct (attempt (client 0%nat) 3) as [r3|] eqn:A3.
  { repeat (turn; rewrite ?Hd, ?He; change (as_text (VStr d)) with d; rewrite ?Hs, ?A1, ?A2, ?A3;
            cbn [negb Nat.ltb Nat.leb retry_limit]).
    reflexivity. }
  repeat (turn; rewrite ?Hd, ?He; change (as_text (VStr d)) with d; rewrite ?Hs, ?A1, ?A2, ?A3;
          cbn [negb Nat.ltb Nat.leb retry_limit]).
  reflexivity.
Qed.
End LoopAlone.


(** ** The rest of the pipeline

    Keys and addresses, the worker, the steps of [main] of script 01, the
    classifiers, the description stage and the runs of the loop. *)

Section KeyFacts.
Import S01.

Lemma upper_char_idem c : Py.upper_char (Py.upper_char c) = Py.upper_char c.
Proof. destruct c as [[] [] [] [] [] [] [] []]; reflexivity. Qed.

Lemma upper_char_not_lower c : is_lower (Py.upper_char c) = false.
Proof. destruct c as [[] [] [] [] [] [] [] []]; reflexivity. Qed.

Lemma all_chars_remove p s : all_chars (fun c => negb (p c)) (Py.remove_chars p s) = true.
Proof.
  induction s as [|c s IH]; simpl; [done|].
  destruct (p c) eqn:E; simpl; [done|]. by rewrite E.
Qed.

Lemma remove_chars_id p s : all_chars (fun c => negb (p c)) s = true → Py.remove_chars p s = s.
Proof.
  induction s as [|c s IH]; simpl; [done|].
  intros [Hc Hs]%andb_prop. apply negb_true_iff in Hc. rewrite Hc. by rewrite IH.
Qed.

Lemma lstrip_no_space s : all_chars (fun c => negb (Py.is_space c)) s = true → Py.lstrip s = s.
Proof.
  destruct s as [|c s]; simpl; [done|].
  intros [Hc _]%andb_prop. apply negb_true_iff in Hc. by rewrite Hc.
Qed.

Lemma rstrip_no_space s : all_chars (fun c => negb (Py.is_space c)) s = true → Py.rstrip s = s.
Proof.
  induction s as [|c s IH]; simpl; [done|].
  intros [Hc Hs]%andb_prop. apply negb_true_iff in Hc. rewrite (IH Hs), Hc.
  by destruct s.
Qed.

Lemma strip_no_space s : all_chars (fun c => negb (Py.is_space c)) s = true → Py.strip s = s.
Proof. intros H. unfold Py.strip. by rewrite (lstrip_no_space _ H), (rstrip_no_space _ H). Qed.

Lemma all_chars_impl (p q : ascii -> bool) s :
  (∀ c, p c = true → q c = true) → all_chars p s = true → all_chars q s = true.
Proof.
  intros Hpq. induction s as [|c s IH]; simpl; [done|].
  intros [Hc Hs]%andb_prop. by rewrite (Hpq _ Hc), (IH Hs).
Qed.

Lemma upper_remove_upper p s :
  Py.upper (Py.remove_chars p (Py.upper s)) = Py.remove_chars p (Py.upper s).
Proof.
  induction s as [|c s IH]; simpl; [done|].
  destruct (p (Py.upper_char c)); simpl; [done|].
  by rewrite upper_char_idem, IH.
Qed.

Lemma all_chars_remove_upper p s :
  all_chars (fun c => negb (is_lower c)) (Py.remove_chars p (Py.upper s)) = true.
Proof.
  induction s as [|c s IH]; cbn [Py.upper Py.remove_chars all_chars]; [done|].
  destruct (p (Py.upper_char c)); cbn [all_chars]; [done|].
  by rewrite upper_char_not_lower, IH.
Qed.

Lemma all_chars_and p q s :
  all_chars (fun c => p c && q c) s = all_chars p s && all_chars q s.
Proof.
  induction s as [|c s IH]; simpl; [done|]. rewrite IH.
  destruct (p c), (q c), (all_chars p s), (all_chars q s); done.
Qed.

Lemma normalize_text_key_chars s : all_chars key_char (normalize_text s) = true.
Proof.
  unfold key_char.
  rewrite all_chars_and. apply andb_true_intro. split.
  - unfold normalize_text.
    eapply all_chars_impl; [|apply all_chars_remove]. simpl. intros c.
    by rewrite negb_orb.
  - apply all_chars_remove_upper.
Qed.

Lemma normalize_text_idem s : normalize_text (normalize_text s) = normalize_text s.
Proof.
  pose proof (all_chars_remove (fun c => Py.is_space c || Ascii.eqb c "-") (Py.upper (Py.strip s))) as H.
  unfold normalize_text at 1.
  rewrite strip_no_space.
  2:{ eapply all_chars_impl; [|exact H]. simpl. intros c. rewrite negb_orb. by intros [? _]%andb_prop. }
  unfold normalize_text. rewrite upper_remove_upper.
  by apply remove_chars_id.
Qed.

(** X1. A key returned by [normalize_id] is a fixed point of [normalize_id],
    and holds no white space, no hyphen and no lower-case letter. *)
Theorem normalize_id_idempotent (pid : value) (k : string) :
  normalize_id pid = Ok k →
  normalize_id (VStr k) = Ok k ∧ all_chars key_char k = true.
Proof.
  destruct pid; try discriminate. rewrite normalize_id_text. intros [= <-].
  rewrite normalize_id_text, normalize_text_idem. split; [done|].
  apply normalize_text_key_chars.
Qed.

Lemma normalize_id_idempotent_witness :
  normalize_id (VStr "Us-12 3a") = Ok "US123A"
  ∧ normalize_id (VStr "US123A") = Ok "US123A" ∧ all_chars key_char "US123A" = true.
Proof.
  split; [reflexivity|].
  apply (normalize_id_idempotent (VStr "Us-12 3a")). reflexivity.
Defined.

End KeyFacts.

Section UrlFacts.
Import S01.

Lemma rstrip_rstrip s : Py.rstrip (Py.rstrip s) = Py.rstrip s.
Proof.
  induction s as [|c s IH]; [done|]. cbn [Py.rstrip].
  destruct (Py.rstrip s) as [|d r] eqn:E.
  - destruct (Py.is_space c) eqn:Hc; [done|]. simpl. by rewrite Hc.
  - cbn [Py.rstrip]. cbn [Py.rstrip] in IH. by rewrite IH.
Qed.

Lemma rstrip_head c s :
  Py.is_space c = false → ∃ r, Py.rstrip (String c s) = String c r.
Proof.
  intros Hc. cbn [Py.rstrip]. destruct (Py.rstrip s); rewrite ?Hc; eauto.
Qed.

Lemma lstrip_head s :
  Py.lstrip s = EmptyString ∨ ∃ c r, Py.lstrip s = String c r ∧ Py.is_space c = false.
Proof.
  induction s as [|c s IH]; [by left|]. simpl.
  destruct (Py.is_space c) eqn:Hc; [done|]. right. eauto.
Qed.

Lemma strip_strip s : Py.strip (Py.strip s) = Py.strip s.
Proof.
  unfold Py.strip.
  destruct (lstrip_head s) as [->|(c & r & -> & Hc)]; [done|].
  destruct (rstrip_head c r Hc) as [r' Hr].
  assert (Py.lstrip (Py.rstrip (String c r)) = Py.rstrip (String c r)) as ->.
  { rewrite Hr. simpl. by rewrite Hc. }
  apply rstrip_rstrip.
Qed.

Lemma star_to_slash {A} (k : @Re.cont A) id t x :
  all_chars Re.not_slash id = true →
  k (String "/" t) = Some x →
  Re.star Re.not_slash k (id +:+ String "/" t) = Some x.
Proof.
  intros Hid Hk. induction id as [|c id IH].
  - simpl. exact Hk.
  - cbn [all_chars] in Hid. apply andb_prop in Hid as [Hc Hid].
    rewrite append_cons. cbn [Re.star]. rewrite Hc. by rewrite IH.
Qed.

Lemma star_no_slash {A} (k : string -> @Re.cont A) s :
  all_chars Re.not_slash s = true →
  Re.star Re.not_slash (fun r => Re.lit "/" (k r) r) s = None.
Proof.
  induction s as [|c s IH]; [done|].
  cbn [all_chars]. intros [Hc Hs]%andb_prop.
  cbn [Re.star]. rewrite Hc, (IH Hs).
  unfold Re.lit. cbn [Py.strip_prefix].
  unfold Re.not_slash in Hc. apply negb_true_iff in Hc.
  rewrite Ascii.eqb_sym in Hc. by rewrite Hc.
Qed.

Lemma search_no_slash {A} (k : @Re.cont A) s :
  all_chars Re.not_slash s = true →
  Re.search (Re.lit "/patent/" k) s = None.
Proof.
  induction s as [|c s IH]; [done|].
  cbn [all_chars]. intros [Hc Hs]%andb_prop.
  cbn [Re.search]. unfold Re.lit at 1. cbn [Py.strip_prefix].
  unfold Re.not_slash in Hc. apply negb_true_iff in Hc.
  rewrite Ascii.eqb_sym in Hc. rewrite Hc. by apply IH.
Qed.

Lemma patent_prefix_no_slash s :
  all_chars Re.not_slash s = true → Py.strip_prefix "patent/" s = None.
Proof.
  intros H.
  do 7 (destruct s as [|? s]; [done|]; cbn [Py.strip_prefix];
        match goal with |- context [Ascii.eqb ?a ?b] =>
          destruct (Ascii.eqb_spec a b) as [<-|]; [|done] end;
        cbn [all_chars] in H; apply andb_prop in H as [? H]; try done).
Qed.

Lemma all_chars_convert original_id :
  Py.strip (S03._convert_id_to_url_format original_id)
  = S03._convert_id_to_url_format original_id.
Proof. apply strip_strip. Qed.

Lemma search_miss {A} (m : @Re.cont A) c s :
  m (String c s) = None → Re.search m (String c s) = Re.search m s.
Proof. intros H. cbn [Re.search]. by rewrite H. Qed.

Lemma search_hit {A} (m : @Re.cont A) s x : m s = Some x → Re.search m s = Some x.
Proof. intros H. destruct s; cbn [Re.search]; by rewrite H. Qed.

Lemma plus_to_slash {A} (k : @Re.cont A) id t x :
  id ≠ EmptyString → all_chars Re.not_slash id = true →
  k (String "/" t) = Some x →
  Re.plus Re.not_slash k (id +:+ String "/" t) = Some x.
Proof.
  intros Hne Hid Hk. destruct id as [|c id]; [done|].
  cbn [all_chars] in Hid. apply andb_prop in Hid as [Hc Hid].
  rewrite append_cons. unfold Re.plus. rewrite Hc. by apply star_to_slash.
Qed.

Lemma plus_no_slash {A} (k : string -> @Re.cont A) s :
  all_chars Re.not_slash s = true →
  Re.plus Re.not_slash (fun r => Re.lit "/" (k r) r) s = None.
Proof.
  intros Hs. destruct s as [|c s]; [done|]. unfold Re.plus.
  cbn [all_chars] in Hs. apply andb_prop in Hs as [Hc Hs]. rewrite Hc.
  by apply star_no_slash.
Qed.

(** X2. The address the fetcher of script 03 builds for an identifier, with
    its [/en] ending, gives the identifier in address form back under
    [extract_patent_id] of script 01, when that form is not empty and holds
    no slash. The address without the ending gives the empty text: the
    pattern asks for a slash after the identifier. *)
Theorem page_url_gives_id_back (original_id : string) :
  S03._convert_id_to_url_format original_id ≠ EmptyString →
  all_chars Re.not_slash (S03._convert_id_to_url_format original_id) = true →
  extract_patent_id (VStr (en_url original_id))
    = Ok (S03._convert_id_to_url_format original_id)
  ∧ extract_patent_id (VStr (base_url original_id)) = Ok EmptyString.
Proof.
  unfold en_url, base_url.
  pose proof (all_chars_convert original_id) as Hstrip.
  generalize dependent (S03._convert_id_to_url_format original_id).
  intros u Hstrip Hne Hu. split.
  - unfold extract_patent_id. simpl. unfold Re.patent_id.
    rewrite !append_cons. change (EmptyString +:+ ?x) with x.
    do 26 (rewrite search_miss by reflexivity).
    erewrite search_hit; [by rewrite Hstrip|].
    unfold Re.lit at 1. change (Py.strip_prefix "/patent/" ?s) with (Some (u +:+ "/en")).
    cbv beta iota.
    rewrite (plus_to_slash _ u "en" u); [done | done | done |].
    unfold Re.lit. change (Py.strip_prefix "/" "/en") with (Some "en").
    cbv beta iota. by rewrite captured_app.
  - unfold extract_patent_id. simpl. unfold Re.patent_id.
    rewrite !append_cons. change (EmptyString +:+ ?x) with x.
    do 26 (rewrite search_miss by reflexivity).
    rewrite search_miss.
    2:{ unfold Re.lit at 1. change (Py.strip_prefix "/patent/" ?s) with (Some u).
        cbv beta iota. by apply (plus_no_slash (fun r _ => Some (Re.captured u r))). }
    do 6 (rewrite search_miss by reflexivity).
    rewrite search_miss.
    2:{ unfold Re.lit at 1. change (Py.strip_prefix "/patent/" ?s) with (Py.strip_prefix "patent/" u).
        by rewrite patent_prefix_no_slash. }
    by rewrite search_no_slash.
Qed.

Lemma page_url_gives_id_back_witness :
  extract_patent_id (VStr (en_url "US-123-A")) = Ok "US123A"
  ∧ extract_patent_id (VStr (base_url "US-123-A")) = Ok EmptyString.
Proof.
  apply (page_url_gives_id_back "US-123-A"); [done | reflexivity].
Defined.
End UrlFacts.

Section WorkerFacts.
Import S01.

Lemma nonempty_spec s : Py.nonempty s = true ↔ s ≠ EmptyString.
Proof. by destruct s. Qed.

Lemma normalize_text_strip s : normalize_text (Py.strip s) = normalize_text s.
Proof. unfold normalize_text. by rewrite strip_strip. Qed.

Lemma resolves_error_row_id pid e :
  pid ≠ EmptyString → normalize_text pid = pid →
  resolves (error_row pid [("error", e)]) pid.
Proof.
  intros Hne Hpid. unfold resolves, scan_entry, error_row, get.
  cbn [list_to_map foldr uncurry fst snd].
  rewrite (lookup_insert_ne _ "id" "original_id"), (lookup_insert_ne _ "error" "original_id"),
    (lookup_insert_ne _ "id" "url"), (lookup_insert_ne _ "error" "url"), !lookup_empty,
    lookup_insert_eq by done.
  simpl. apply nonempty_spec in Hne. rewrite Hne. simpl.
  unfold normalize_text in Hpid. rewrite Hpid. f_equal. set_solver.
Qed.

Lemma resolves_error_row_url pid url e :
  pid ≠ EmptyString → url ≠ EmptyString → normalize_text pid = pid → link_agrees url pid →
  resolves (error_row pid [("url", VStr url); ("error", e)]) pid.
Proof.
  intros Hne Hu Hpid Hl. unfold resolves, scan_entry, error_row, get.
  cbn [list_to_map foldr uncurry fst snd].
  rewrite (lookup_insert_ne _ "id" "original_id"), (lookup_insert_ne _ "url" "original_id"),
    (lookup_insert_ne _ "error" "original_id"), lookup_empty,
    (lookup_insert_ne _ "id" "url"), !lookup_insert_eq by done.
  apply nonempty_spec in Hu. unfold Value.or_. simpl. rewrite Hu.
  unfold extract_patent_id. simpl. rewrite Hu. simpl.
  unfold link_agrees in Hl.
  assert (normalize_id (VStr pid) = Ok pid) as Hn.
  { rewrite normalize_id_text. by rewrite Hpid. }
  apply nonempty_spec in Hne.
  destruct (Re.patent_id url) as [g|].
  - destruct (Py.nonempty (Py.strip g)) eqn:Hg.
    + destruct Hl as [Hl|Hl]; [by rewrite Hl in Hg|].
      change (Py.remove_chars _ (Py.upper (Py.strip ?x))) with (normalize_text x).
      rewrite Hl. simpl. f_equal. set_solver.
    + simpl. rewrite Hne. simpl.
      change (Py.remove_chars _ (Py.upper (Py.strip ?x))) with (normalize_text x).
      rewrite Hpid. f_equal. set_solver.
  - simpl. rewrite Hne. simpl.
    change (Py.remove_chars _ (Py.upper (Py.strip ?x))) with (normalize_text x).
    rewrite Hpid. f_equal. set_solver.
Qed.

Lemma resolves_scraped scraper row pid url n s data :
  row !! "id" = Some (VStr s) → s ≠ EmptyString →
  attempt scraper row pid url n = Ok data → resolves data (normalize_text s).
Proof.
  intros Hid Hs. unfold attempt.
  destruct (scraper n) as [e|err final_url d]; [done|].
  destruct (negb (String.eqb err "Success")); [done|].
  unfold get. rewrite Hid. rewrite normalize_id_text. simpl. intros [= <-].
  unfold resolves, scan_entry, get. rewrite lookup_insert_eq.
  apply nonempty_spec in Hs. cbn [Value.truthy]. rewrite Hs, normalize_id_text. simpl.
  f_equal. set_solver.
Qed.

(** X3. For a row with a text id that is not blank and a link that carries
    no identifier or one with the key of the row, every record [process_row]
    returns, scraped or failed, resolves under [load_processed_ids] to the
    key [get_csv_patent_id] gives the row: once stored, the row counts as
    processed, also when all its attempts failed. *)
Theorem every_result_counts_as_processed (scraper : nat -> scrape) (row : dict)
    (s pid url : string) (data : dict) (log : list event) :
  row !! "id" = Some (VStr s) → Py.nonempty (Py.strip s) = true →
  get_csv_patent_id row = Ok pid → pid ≠ EmptyString →
  strip_ (get row "result link" (VStr "")) = Ok url → link_agrees url pid →
  process_row scraper row = Ok (Some data, log) →
  resolves data pid.
Proof.
  intros Hid Hs Hpid Hne Hurl Hl.
  assert (pid = normalize_text s) as Hkey.
  { unfold get_csv_patent_id, get in Hpid. rewrite Hid in Hpid. simpl in Hpid.
    assert (Value.or_ (VStr s) (VStr "") = VStr s) as Hor.
    { unfold Value.or_. simpl. destruct s; [done|done]. }
    rewrite Hor in Hpid. simpl in Hpid. rewrite Hs in Hpid.
    rewrite normalize_id_text, normalize_text_strip in Hpid. congruence. }
  assert (s ≠ EmptyString) as Hs' by (by destruct s).
  assert (normalize_text pid = pid) as Hidem.
  { rewrite Hkey. apply normalize_text_idem. }
  unfold process_row. rewrite Hpid. simpl. rewrite Hurl. simpl.
  destruct (negb (Py.nonempty url) || negb (Py.nonempty pid)) eqn:Hmiss.
  { intros [= <- <-]. by apply resolves_error_row_id. }
  apply orb_false_elim in Hmiss as [Hu _]. apply negb_false_iff, nonempty_spec in Hu.
  destruct (attempt scraper row pid url 1) as [d1|e1] eqn:H1; simpl.
  { intros [= <- <-]. rewrite Hkey. by eapply resolves_scraped. }
  destruct (attempt scraper row pid url 2) as [d2|e2] eqn:H2; simpl.
  { intros [= <- <-]. rewrite Hkey. by eapply resolves_scraped. }
  destruct (attempt scraper row pid url 3) as [d3|e3] eqn:H3; simpl.
  { intros [= <- <-]. rewrite Hkey. by eapply resolves_scraped. }
  intros [= <- <-]. by apply resolves_error_row_url.
Qed.

Lemma every_result_counts_as_processed_witness :
  resolves (error_row "US1A"
              [("url", VStr "https://patents.google.com/patent/US1A/en");
               ("error", VStr "timeout")]) "US1A".
Proof.
  apply (every_result_counts_as_processed always_down
           {[ "id" := VStr "US-1-A";
              "result link" := VStr "https://patents.google.com/patent/US1A/en" ]}
           "US-1-A" "US1A" "https://patents.google.com/patent/US1A/en" _
           [Call 1%nat; Sleep 2; Call 2%nat; Sleep 4; Call 3%nat]).
  - reflexivity.
  - reflexivity.
  - reflexivity.
  - done.
  - reflexivity.
  - right. reflexivity.
  - reflexivity.
Defined.

(** X4. Whenever [process_row] returns, it returns a record and never
    [None]; it has called the scraper at most three times, slept 2 seconds
    after the first failure and 4 after the second, and not slept after its
    last call. *)
Theorem process_row_at_most_three_calls (scraper : nat -> scrape) (row : dict)
    (r : option dict) (log : list event) :
  process_row scraper row = Ok (r, log) →
  is_Some r
  ∧ (log = [] ∨ log = [Call 1%nat] ∨ log = [Call 1%nat; Sleep 2; Call 2%nat]
     ∨ log = [Call 1%nat; Sleep 2; Call 2%nat; Sleep 4; Call 3%nat]).
Proof.
  unfold process_row.
  destruct (get_csv_patent_id row) as [pid|]; [simpl|done].
  destruct (strip_ (get row "result link" (VStr ""))) as [url|]; [simpl|done].
  destruct (negb (Py.nonempty url) || negb (Py.nonempty pid)).
  { intros [= <- <-]. split; [done|by left]. }
  destruct (attempt scraper row pid url 1) as [d1|e1]; simpl.
  { intros [= <- <-]. split; [done|]. right. by left. }
  destruct (attempt scraper row pid url 2) as [d2|e2]; simpl.
  { intros [= <- <-]. split; [done|]. right. right. by left. }
  destruct (attempt scraper row pid url 3) as [d3|e3]; simpl.
  all: intros [= <- <-]; split; [done|]; right; right; by right.
Qed.

Lemma process_row_at_most_three_calls_witness :
  is_Some (Some (error_row "US1A"
              [("url", VStr "https://patents.google.com/patent/US1A/en");
               ("error", VStr "timeout")]))
  ∧ ([Call 1%nat; Sleep 2; Call 2%nat; Sleep 4; Call 3%nat] = []
     ∨ [Call 1%nat; Sleep 2; Call 2%nat; Sleep 4; Call 3%nat] = [Call 1%nat]
     ∨ [Call 1%nat; Sleep 2; Call 2%nat; Sleep 4; Call 3%nat]
       = [Call 1%nat; Sleep 2; Call 2%nat]
     ∨ [Call 1%nat; Sleep 2; Call 2%nat; Sleep 4; Call 3%nat]
       = [Call 1%nat; Sleep 2; Call 2%nat; Sleep 4; Call 3%nat]).
Proof.
  apply (process_row_at_most_three_calls always_down
           {[ "id" := VStr "US-1-A";
              "result link" := VStr "https://patents.google.com/patent/US1A/en" ]}).
  reflexivity.
Defined.
End WorkerFacts.

Section ClassifierFacts.

Lemma read_answer_cases key default cleaned :
  S02.read_answer key default cleaned = default
  ∨ ∃ d, Json.loads cleaned = Some (VDict d)
         ∧ Value.assoc d key = Some (S02.read_answer key default cleaned).
Proof.
  unfold S02.read_answer.
  destruct (Json.loads cleaned) as [parsed|]; [|by left].
  destruct parsed as [| | | | s|l|d]; simpl; try by left.
  - destruct (Re.occurs key s); by left.
  - destruct (existsb _ l); by left.
  - destruct (Value.assoc d key) as [x|] eqn:E; simpl.
    + right. exists d. by rewrite E.
    + by left.
Qed.

Lemma attempt02_cases key default client n v :
  S02.attempt key default client n = Ok v → v = default ∨ answers key (client n) v.
Proof.
  unfold S02.attempt, answers.
  destruct (client n) as [e| |content]; [done| by intros [= <-]; left |].
  destruct (S02.extract_json content) as [cleaned|] eqn:E; [simpl|done].
  intros [= <-].
  destruct (read_answer_cases key default cleaned) as [->|(d & Hl & Ha)]; [by left|].
  right. by exists content, cleaned, d.
Qed.

Lemma classify_cases (key : string) (default : value)
    (client : nat -> reply) (text : value) :
  let '(v, log) := S02.classify key default client text in
  (v = default ∨ ∃ n, up_to_three n ∧ answers key (client n) v)
  ∧ (log = [] ∨ log = [Call 1%nat] ∨ log = [Call 1%nat; Sleep 1; Call 2%nat]
     ∨ log = [Call 1%nat; Sleep 1; Call 2%nat; Sleep 2; Call 3%nat]).
Proof.
  unfold S02.classify.
  destruct (negb (Py.nonempty (Py.strip (as_text text)))).
  { split; by left. }
  simpl.
  destruct (S02.attempt key default client 1) as [v1|e1] eqn:H1; simpl.
  { split; [|right; by left].
    apply attempt02_cases in H1 as [->|H1]; [by left|].
    right. exists 1%nat. split; [unfold up_to_three; lia | done]. }
  destruct (S02.attempt key default client 2) as [v2|e2] eqn:H2; simpl.
  { split; [|right; right; by left].
    apply attempt02_cases in H2 as [->|H2]; [by left|].
    right. exists 2%nat. split; [unfold up_to_three; lia | done]. }
  destruct (S02.attempt key default client 3) as [v3|e3] eqn:H3; simpl.
  { split; [|right; right; by right].
    apply attempt02_cases in H3 as [->|H3]; [by left|].
    right. exists 3%nat. split; [unfold up_to_three; lia | done]. }
  split; [by left | right; right; by right].
Qed.

(** X5. The value the classifier of scripts 02 and 05 returns is the
    default, or the value a reply of one of its three calls holds under the
    key in a JSON object; it calls the client at most three times and sleeps
    1 second after the first exception and 2 after the second. A cleaned
    reply that parses to anything but a JSON object, a list or a text that
    holds the key included, gives the default. *)
Theorem answer_comes_from_a_reply (key : string) (default : value)
    (client : nat -> reply) (text : value) :
  (let '(v, log) := S02.classify key default client text in
   (v = default ∨ ∃ n, up_to_three n ∧ answers key (client n) v)
   ∧ (log = [] ∨ log = [Call 1%nat] ∨ log = [Call 1%nat; Sleep 1; Call 2%nat]
      ∨ log = [Call 1%nat; Sleep 1; Call 2%nat; Sleep 2; Call 3%nat]))
  ∧ (∀ cleaned parsed,
       Json.loads cleaned = Some parsed → (∀ d, parsed ≠ VDict d) →
       S02.read_answer key default cleaned = default).
Proof.
  split; [apply classify_cases|].
  intros cleaned parsed Hl Hnd.
  destruct (read_answer_cases key default cleaned) as [->|(d & Hd & _)]; [done|].
  rewrite Hl in Hd. injection Hd as ->. by destruct (Hnd d).
Qed.

Lemma attempt04_shape client n r :
  S04.attempt client n = Some r → ∃ c x, r = S04.classification c x.
Proof.
  unfold S04.attempt. destruct (client n) as [| |content]; [done|done|].
  unfold S04.read_answer.
  destruct (S04.extract_json content) as [cleaned|]; [simpl|done].
  destruct (Json.loads cleaned) as [[| | | | | |d]|]; try done.
  destruct (Value.assoc d "technology_class"), (Value.assoc d "reason");
    intros [= <-]; eauto.
Qed.

Lemma get_classification c x :
  get (S04.classification c x) "technology_class" (VStr "Error") = c
  ∧ get (S04.classification c x) "reason" (VStr "Error") = x.
Proof.
  unfold get, S04.classification. split.
  - by rewrite lookup_insert_eq.
  - rewrite lookup_insert_ne by done. by rewrite lookup_singleton_eq.
Qed.

(** X6. What [async_get_edtech_classification] returns always holds both
    [technology_class] and [reason], and its calls and sleeps are an initial
    part of: call, 2 seconds, call, 4 seconds, call. *)
Theorem classification_has_both_fields (shutdown : nat -> bool) (client : nat -> reply)
    (text : value) :
  let '(r, log) := S04.async_get_edtech_classification shutdown client text in
  (∃ c x, r = S04.classification c x)
  ∧ log `prefix_of` [Call 1%nat; Sleep 2; Call 2%nat; Sleep 4; Call 3%nat].
Proof.
  unfold S04.async_get_edtech_classification.
  destruct (negb (Py.nonempty (Py.strip (as_text text)))).
  { split; [unfold S04.default_result; eauto | by apply prefix_nil]. }
  simpl.
  assert (∃ c x, S04.error_result = S04.classification c x) as Herr
    by (unfold S04.error_result; eauto).
  destruct (shutdown 1%nat); [split; [done | by apply prefix_nil]|].
  destruct (S04.attempt client 1) as [r1|] eqn:H1; simpl.
  { split; [by eapply attempt04_shape | by exists [Sleep 2; Call 2%nat; Sleep 4; Call 3%nat]]. }
  destruct (shutdown 2%nat); simpl; [split; [done | by exists [Call 2%nat; Sleep 4; Call 3%nat]]|].
  destruct (S04.attempt client 2) as [r2|] eqn:H2; simpl.
  { split; [by eapply attempt04_shape | by exists [Sleep 4; Call 3%nat]]. }
  destruct (shutdown 3%nat); simpl; [split; [done | by exists [Call 3%nat]]|].
  destruct (S04.attempt client 3) as [r3|] eqn:H3; simpl.
  { split; [by eapply attempt04_shape | done]. }
  split; [done | done].
Qed.

(** X7. Every path through [process_patent] of script 04 sets both
    [technology_class] and [reason] and leaves every other field of the
    record as it was; with the flag set on entry the class is [Shutdown]. *)
Theorem every_path_annotates (shutdown : nat -> bool) (client : nat -> reply)
    (record : dict) :
  let record' := (S04.process_patent shutdown client record).1 in
  is_Some (record' !! "technology_class") ∧ is_Some (record' !! "reason")
  ∧ (∀ k, k ≠ "technology_class" → k ≠ "reason" → record' !! k = record !! k)
  ∧ (shutdown 0%nat = true → record' !! "technology_class" = Some (VStr "Shutdown")).
Proof.
  assert (∀ c x, let r := S04.annotate c x record in
            is_Some (r !! "technology_class") ∧ is_Some (r !! "reason")
            ∧ (∀ k, k ≠ "technology_class" → k ≠ "reason" → r !! k = record !! k)) as Hann.
  { intros c x. unfold S04.annotate. simpl. split; [|split].
    - rewrite lookup_insert_ne by done. by rewrite lookup_insert_eq.
    - by rewrite lookup_insert_eq.
    - intros k H1 H2. by rewrite !lookup_insert_ne. }
  unfold S04.process_patent.
  destruct (shutdown 0%nat) eqn:H0; simpl.
  { destruct (Hann (VStr "Shutdown") (VStr "Shutdown requested")) as (?&?&?).
    repeat split; try done. intros _. unfold S04.annotate.
    rewrite lookup_insert_ne by done. by rewrite lookup_insert_eq. }
  destruct (strip_ (get record "description" (VStr ""))) as [description|]; simpl.
  2:{ destruct (Hann (VStr "Error") (VStr "Exception during processing")) as (?&?&?).
      repeat split; done. }
  destruct (Py.nonempty description).
  2:{ destruct (Hann (VStr "No Description") (VStr "No description provided")) as (?&?&?).
      repeat split; done. }
  destruct (S04.async_get_edtech_classification shutdown client (VStr description)) as [r log].
  simpl.
  destruct (Hann (get r "technology_class" (VStr "Error")) (get r "reason" (VStr "Error")))
    as (?&?&?).
  repeat split; done.
Qed.

End ClassifierFacts.

Section LoopInvariants.
Import S04 Loop04.
Variable client : nat -> nat -> reply.

Lemma annotate_fields c x (r : dict) :
  is_Some (annotate c x r !! "technology_class")
  ∧ is_Some (annotate c x r !! "reason")
  ∧ ∀ k, k ≠ "technology_class" → k ≠ "reason" → annotate c x r !! k = r !! k.
Proof.
  unfold annotate. split; [|split].
  - rewrite lookup_insert_ne by done. by rewrite lookup_insert_eq.
  - by rewrite lookup_insert_eq.
  - intros k H1 H2. by rewrite !lookup_insert_ne.
Qed.

Lemma finish_ok r0 r t :
  record t = r → annotated_or_untouched r (finish r0 t).
Proof. intros <-. unfold annotated_or_untouched, finish. simpl. apply annotate_fields. Qed.

Lemma loop_top_ok flag i n r t :
  record t = r → annotated_or_untouched r (loop_top flag i n t).1.
Proof.
  intros H. unfold loop_top.
  destruct (retry_limit <? n)%nat; [by apply finish_ok|].
  destruct flag; [by apply finish_ok|]. done.
Qed.

Lemma resume_ok flag i r t :
  annotated_or_untouched r t → annotated_or_untouched r (resume client flag i t).1.
Proof.
  intros H. unfold resume. unfold annotated_or_untouched in H.
  destruct (at_ t) eqn:Hat.
  - destruct flag.
    { unfold annotated_or_untouched. simpl. rewrite H. apply annotate_fields. }
    destruct (strip_ _) as [d|].
    2:{ unfold annotated_or_untouched. simpl. rewrite H. apply annotate_fields. }
    destruct (Py.nonempty d).
    2:{ unfold annotated_or_untouched. simpl. rewrite H. apply annotate_fields. }
    destruct (negb _); [by apply finish_ok | by apply loop_top_ok].
  - done.
  - destruct (attempt (client i) n); [by apply finish_ok|].
    destruct (n <? retry_limit)%nat; [done | by apply loop_top_ok].
  - by apply loop_top_ok.
  - unfold annotated_or_untouched. simpl. by rewrite Hat.
  - unfold annotated_or_untouched. simpl. by rewrite Hat.
Qed.

Lemma cancel_ok r t : annotated_or_untouched r t → annotated_or_untouched r (cancel t).
Proof.
  unfold cancel, done, annotated_or_untouched. destruct (at_ t) eqn:Hat; simpl; try done.
  all: by rewrite Hat.
Qed.

Lemma step_ok records s k :
  Forall2 annotated_or_untouched records (tasks s) →
  Forall2 annotated_or_untouched records (tasks (step client s k)).
Proof.
  intros H. unfold step. destruct (main_done s); [done|].
  destruct k as [|i|]; [done | |].
  - destruct (tasks s !! i) as [t|] eqn:Hi; [|done].
    pose proof (fun r => resume_ok (shutdown_requested s) i r t) as Hr.
    destruct (resume client (shutdown_requested s) i t) as [t' notes]. simpl.
    apply Forall2_same_length_lookup. apply Forall2_same_length_lookup in H as [Hlen H].
    split; [by rewrite length_insert|].
    intros j r u Hr' Hu.
    destruct (decide (i = j)) as [->|Hne].
    + rewrite list_lookup_insert_eq in Hu by (by eapply lookup_lt_Some).
      injection Hu as <-. apply Hr. by eapply H.
    + rewrite list_lookup_insert_ne in Hu by done. by eapply H.
  - destruct (shutdown_requested s); simpl; [|done].
    apply Forall2_fmap_r. eapply Forall2_impl; [exact H|].
    intros r t. apply cancel_ok.
Qed.

(** X8. In every run of the loop of script 04, whatever the order of the
    turns and the signals, there is one task per record, a finished task
    holds its record with the two fields of the annotation set and the
    others unchanged, and any other task, cancelled ones included, holds its
    record as it was read. *)
Theorem run_annotates_or_leaves (ticks : list tick) (records : list dict) :
  Forall2 annotated_or_untouched records (tasks (run client ticks (dispatch false records))).
Proof.
  assert (∀ s, Forall2 annotated_or_untouched records (tasks s) →
               Forall2 annotated_or_untouched records (tasks (run client ticks s))) as Hrun.
  { induction ticks as [|k ticks IH]; intros s Hs; [done|].
    unfold run in *. simpl. apply IH. by apply step_ok. }
  apply Hrun. unfold dispatch. simpl.
  apply Forall2_fmap_r. apply Forall_Forall2_diag. apply Forall_forall. intros r _. done.
Qed.

Lemma within_le p c : within p c → (c ≤ 3)%nat.
Proof. destruct p; simpl; lia. Qed.

Lemma loop_top_calls flag i n t c :
  (2 ≤ n ≤ 4)%nat → S c = n →
  let '(t', notes) := loop_top flag i n t in
  within (at_ t') (c + length (filter (is_call_of i) notes)).
Proof.
  intros Hn Hc. unfold loop_top.
  destruct (retry_limit <? n)%nat eqn:E; simpl.
  { apply Nat.ltb_lt in E. unfold retry_limit in E. lia. }
  apply Nat.ltb_ge in E. unfold retry_limit in E.
  destruct flag; simpl; lia.
Qed.

Lemma filter_called j i n :
  filter (is_call_of j) [Called i n] = if bool_decide (i = j) then [Called i n] else [].
Proof.
  rewrite filter_cons, filter_nil. simpl.
  destruct (decide (is_call_of j (Called i n))) as [H|H]; simpl in H;
    destruct (bool_decide (i = j)); done.
Qed.

Lemma resume_calls flag i t c :
  within (at_ t) c →
  let '(t', notes) := resume client flag i t in
  within (at_ t') (c + length (filter (is_call_of i) notes))
  ∧ ∀ j, j ≠ i → filter (is_call_of j) notes = [].
Proof.
  intros H. unfold resume.
  destruct (at_ t) eqn:Hat; simpl in H.
  - destruct flag; [simpl; split; [lia|done]|].
    destruct (strip_ _) as [d|]; [|simpl; split; [lia|done]].
    destruct (Py.nonempty d); [|simpl; split; [lia|done]].
    destruct (negb _); [simpl; split; [lia|done]|].
    unfold loop_top. simpl. subst c. split; [lia|done].
  - cbn [fst snd at_]. rewrite filter_called, bool_decide_eq_true_2 by done. simpl.
    split; [lia|]. intros j Hj. by rewrite filter_called, bool_decide_eq_false_2.
  - destruct (attempt (client i) n); [simpl; split; [lia|done]|].
    destruct (n <? retry_limit)%nat eqn:E.
    + apply Nat.ltb_lt in E. unfold retry_limit in E. simpl. split; [lia|done].
    + apply Nat.ltb_ge in E. unfold retry_limit in E.
      unfold loop_top. replace (retry_limit <? S n)%nat with true.
      2:{ symmetry. apply Nat.ltb_lt. unfold retry_limit. lia. }
      simpl. split; [lia|done].
  - pose proof (loop_top_calls flag i (S n) t c) as Hl.
    unfold loop_top in *.
    destruct (retry_limit <? S n)%nat; [simpl; split; [lia|done]|].
    destruct flag; simpl; (split; [lia|]); try done.
  - rewrite Hat. simpl. split; [lia|done].
  - rewrite Hat. simpl. split; [lia|done].
Qed.

Lemma step_counted s k : counted s → counted (step client s k).
Proof.
  intros H. unfold step. destruct (main_done s); [done|].
  destruct k as [|i|]; [done | |].
  - destruct (tasks s !! i) as [t|] eqn:Hi; [|done].
    pose proof (H i) as Hwi. rewrite Hi in Hwi.
    pose proof (resume_calls (shutdown_requested s) i t _ Hwi) as Hr.
    destruct (resume client (shutdown_requested s) i t) as [t' notes].
    destruct Hr as [Hr Hother].
    intros j. unfold calls_of. simpl. rewrite filter_app, length_app.
    destruct (decide (i = j)) as [->|Hne].
    + rewrite list_lookup_insert_eq by (by eapply lookup_lt_Some). exact Hr.
    + rewrite list_lookup_insert_ne by done. rewrite (Hother j) by done.
      simpl. rewrite Nat.add_0_r. apply H.
  - destruct (shutdown_requested s); simpl; [|exact H].
    intros j. specialize (H j). unfold calls_of in *. simpl.
    rewrite list_lookup_fmap. destruct (tasks s !! j) as [t|]; simpl; [|done].
    apply within_le in H as Hle.
    unfold cancel, done. destruct (at_ t) eqn:Hat; simpl; rewrite ?Hat; simpl; try lia.
    all: by rewrite Hat in H.
Qed.

(** X9. In every run of the loop of script 04 a task sends at most three
    requests. *)
Theorem at_most_three_requests (ticks : list tick) (flag : bool) (records : list dict)
    (i : nat) :
  (calls_of i (run client ticks (dispatch flag records)) ≤ 3)%nat.
Proof.
  assert (∀ s, counted s → counted (run client ticks s)) as Hrun.
  { induction ticks as [|k ticks IH]; intros s Hs; [done|].
    unfold run in *. simpl. apply IH. by apply step_counted. }
  assert (counted (dispatch flag records)) as H0.
  { intros j. unfold dispatch, calls_of. simpl. destruct flag; simpl; [done|].
    rewrite list_lookup_fmap. by destruct (records !! j). }
  specialize (Hrun _ H0 i).
  destruct (tasks _ !! i); [by eapply within_le | lia].
Qed.

End LoopInvariants.

Section StoreMore.
Import S01.

Global Instance Ok_inj {A} : Inj (=) (=) (@Ok A).
Proof. by intros x y [= ->]. Qed.

Lemma existing_sorted fd : StronglySorted index_le (list_existing_json fd).
Proof. apply StronglySorted_merge_sort; apply _. Qed.

Lemma existing_unique fd l :
  StronglySorted index_le l → l ≡ₚ map_to_list (chunks fd) → list_existing_json fd = l.
Proof.
  intros Hl Hp. apply (StronglySorted_unique_strong index_le).
  - intros [i f] [j g] H1 H2 Hij Hji. unfold index_le in *. simpl in *.
    assert (i = j) as -> by lia.
    apply elem_of_list_existing_json in H1. rewrite Hp in H2.
    apply elem_of_map_to_list in H2. congruence.
  - apply existing_sorted.
  - done.
  - by rewrite list_existing_json_perm.
Qed.

Lemma existing_snoc fd fd' i f :
  chunks fd' = <[i := f]> (chunks fd) →
  (∀ j g, chunks fd !! j = Some g → j < i) →
  list_existing_json fd' = list_existing_json fd ++ [(i, f)].
Proof.
  intros Hfd' Hlt. apply existing_unique.
  - apply StronglySorted_app_2.
    + intros [j g] x Hj ->%list_elem_of_singleton.
      apply elem_of_list_existing_json in Hj. apply Hlt in Hj. unfold index_le. simpl. lia.
    + apply existing_sorted.
    + repeat constructor.
  - rewrite Hfd', map_to_list_insert.
    + rewrite <- Permutation_cons_append. by rewrite list_existing_json_perm.
    + destruct (chunks fd !! i) eqn:E; [|done]. apply Hlt in E. lia.
Qed.

Lemma records_snoc fd fd' i f :
  chunks fd' = <[i := f]> (chunks fd) →
  (∀ j g, chunks fd !! j = Some g → j < i) →
  records_of fd' = records_of fd ++ content_of f.
Proof.
  intros H1 H2. unfold records_of. rewrite (existing_snoc fd fd' i f) by done.
  rewrite map_app, concat_app. simpl. by rewrite app_nil_r.
Qed.

Lemma records_replace_last fd fd' i f f' :
  chunks fd !! i = Some f → (∀ j g, chunks fd !! j = Some g → j ≤ i) →
  chunks fd' = <[i := f']> (chunks fd) →
  ∃ pre, records_of fd = pre ++ content_of f ∧ records_of fd' = pre ++ content_of f'.
Proof.
  intros Hi Hmax Hfd'.
  set (fd0 := {| chunks := delete i (chunks fd); tmps := ∅ |}).
  assert (∀ j g, chunks fd0 !! j = Some g → j < i) as Hlt.
  { intros j g. simpl. intros [Hne Hj]%lookup_delete_Some. apply Hmax in Hj. lia. }
  exists (records_of fd0). split.
  - apply (records_snoc fd0 fd i f); [|done]. simpl. by rewrite insert_delete_id.
  - apply (records_snoc fd0 fd' i f'); [|done]. simpl. by rewrite insert_delete_eq.
Qed.

Lemma records_write_chunks fuel cap (l : list dict) idx fd :
  (0 < cap)%nat → (length l ≤ fuel)%nat →
  (∀ j g, chunks fd !! j = Some g → j < idx) →
  records_of (write_chunks fuel cap l idx fd) = records_of fd ++ l.
Proof.
  intros Hcap. revert l idx fd. induction fuel as [|fuel IH]; intros l idx fd Hlen Hlt.
  - destruct l; simpl in *; [|lia]. by rewrite app_nil_r.
  - destruct l as [|x l]; simpl; [by rewrite app_nil_r|].
    rewrite IH.
    + rewrite (records_snoc fd _ idx (Parsed (take cap (x :: l)))).
      * simpl. rewrite <- app_assoc. f_equal. apply (take_drop cap (x :: l)).
      * apply chunks_write_chunk.
      * done.
    + rewrite length_drop. simpl in *. lia.
    + intros j g. rewrite chunks_write_chunk.
      intros [[<- _]|[_ Hj]]%lookup_insert_Some; [lia|]. apply Hlt in Hj. lia.
Qed.

Lemma records_append (new_list : list dict) (fd : folder) (chunk : Z) :
  0 < chunk →
  ∃ fd',
    append_patents new_list fd chunk = Ok fd'
    ∧ records_of fd' = records_of fd ++ new_list.
Proof.
  intros Hchunk. unfold append_patents. destruct new_list as [|x new_list].
  { exists fd. by rewrite app_nil_r. }
  set (new_list' := x :: new_list) in *.
  destruct (Z.eqb_spec chunk 0) as [|_]; [lia|].
  destruct (Z.ltb_spec chunk 0) as [|_]; [lia|].
  assert (Hcap : (0 < Z.to_nat chunk)%nat) by lia.
  destruct (last (list_existing_json fd)) as [[last_idx last_file]|] eqn:Hlast.
  - apply last_existing_Some in Hlast as [Hi Hmax].
    change (match last_file with Parsed c => c | Unparsable => [] end)
      with (content_of last_file).
    destruct (Z.ltb_spec (Z.of_nat (length (content_of last_file))) chunk) as [Hroom|Hfull].
    + set (space := Z.to_nat (chunk - Z.of_nat (length (content_of last_file)))).
      eexists. split; [done|].
      destruct (records_replace_last fd
                  (write_chunk last_idx (content_of last_file ++ take space new_list') fd)
                  last_idx last_file
                  (Parsed (content_of last_file ++ take space new_list')) Hi Hmax)
        as (pre & Hpre & Hpre'); [apply chunks_write_chunk|].
      rewrite records_write_chunks; [| done | lia |].
      * rewrite Hpre', Hpre. simpl. rewrite <- !app_assoc. do 2 f_equal.
        apply take_drop.
      * intros j g. rewrite chunks_write_chunk.
        intros [[<- _]|[_ Hj]]%lookup_insert_Some; [lia|]. apply Hmax in Hj. lia.
    + eexists. split; [done|].
      apply records_write_chunks; [done | lia |].
      intros j g Hj. apply Hmax in Hj. lia.
  - eexists. split; [done|].
    apply records_write_chunks; [done | lia |].
    intros j g Hj. apply last_existing_None in Hlast. by rewrite Hlast, lookup_empty in Hj.
Qed.

(** X10. For a positive capacity [append_patents] returns, and the records
    of the folder, read chunk after chunk by ascending index, are those it
    held followed by the new ones in their order; a last chunk that cannot
    be parsed counts for no record. *)
Theorem append_keeps_order (new_list : list dict) (fd : folder) (chunk : Z) :
  0 < chunk →
  ∃ fd',
    append_patents new_list fd chunk = Ok fd'
    ∧ records_of fd' = records_of fd ++ new_list.
Proof. apply records_append. Qed.

Lemma append_keeps_order_witness :
  ∃ fd',
    append_patents five_new one_chunk_of_two 3 = Ok fd'
    ∧ records_of fd' = records_of one_chunk_of_two ++ five_new.
Proof. apply (append_keeps_order five_new one_chunk_of_two 3). lia. Defined.

(** What [append_patents] does for a positive capacity: it may fill the
    last chunk, then writes the records left from the next index on. *)
Lemma append_chunks (new_list : list dict) (fd fd' : folder) (chunk : Z) :
  0 < chunk → new_list ≠ [] → append_patents new_list fd chunk = Ok fd' →
  ∃ fd1 rest idx,
    fd' = write_chunks (length rest) (Z.to_nat chunk) rest idx fd1
    ∧ ((chunks fd = ∅ ∧ fd1 = fd ∧ rest = new_list)
       ∨ (∃ f, last_chunk fd (idx - 1) f
               ∧ chunk ≤ Z.of_nat (length (content_of f))
               ∧ fd1 = fd ∧ rest = new_list)
       ∨ (∃ f, last_chunk fd (idx - 1) f
               ∧ Z.of_nat (length (content_of f)) < chunk
               ∧ fd1 = write_chunk (idx - 1)
                         (content_of f
                          ++ take (Z.to_nat (chunk - Z.of_nat (length (content_of f))))
                               new_list)
                         fd
               ∧ rest = drop (Z.to_nat (chunk - Z.of_nat (length (content_of f)))) new_list)).
Proof.
  intros Hchunk Hne. unfold append_patents. destruct new_list as [|x new_list]; [done|].
  set (new_list' := x :: new_list) in *.
  destruct (Z.eqb_spec chunk 0) as [|_]; [lia|].
  destruct (Z.ltb_spec chunk 0) as [|_]; [lia|].
  destruct (last (list_existing_json fd)) as [[last_idx last_file]|] eqn:Hlast.
  - apply last_existing_Some in Hlast.
    change (match last_file with Parsed c => c | Unparsable => [] end)
      with (content_of last_file).
    destruct (Z.ltb_spec (Z.of_nat (length (content_of last_file))) chunk) as [Hroom|Hfull].
    + intros H. eexists _, _, (last_idx + 1). split; [symmetry; by apply (inj Ok)|].
      right. right. exists last_file. replace (last_idx + 1 - 1) with last_idx by lia. done.
    + intros H. exists fd, new_list', (last_idx + 1). split; [symmetry; by apply (inj Ok)|].
      right. left. exists last_file. replace (last_idx + 1 - 1) with last_idx by lia. done.
  - intros H. exists fd, new_list', 0. split; [symmetry; by apply (inj Ok)|].
    apply last_existing_None in Hlast. by left.
Qed.

Lemma well_filled_append (new_list : list dict) (fd fd' : folder) (chunk : Z) :
  0 < chunk → well_filled (Z.to_nat chunk) fd →
  append_patents new_list fd chunk = Ok fd' →
  well_filled (Z.to_nat chunk) fd'.
Proof.
  intros Hchunk Hwf Happ.
  destruct new_list as [|x new_list]; [by injection Happ as <-|].
  apply append_chunks in Happ as (fd1 & rest & idx & -> & Hcase); [|done..].
  set (cap := Z.to_nat chunk) in *.
  assert (Hcap : (0 < cap)%nat) by (unfold cap; lia).
  assert ((∀ j g, chunks fd1 !! j = Some g → j < idx)
          ∧ well_filled cap fd1
          ∧ (rest ≠ [] → ∀ i f, chunks fd1 !! i = Some f →
                          ∃ arr, f = Parsed arr ∧ length arr = cap)) as (Hlt & Hwf1 & Hfull1).
  { destruct Hcase as [(Hempty & -> & ->)|[(f & [Hf Hmax] & Hfull & -> & ->)
                                          |(f & [Hf Hmax] & Hroom & -> & ->)]].
    - split; [|split; [done|]].
      + intros j g Hj. by rewrite Hempty, lookup_empty in Hj.
      + intros _ i g Hi. by rewrite Hempty, lookup_empty in Hi.
    - split; [|split; [done|]].
      + intros j g Hj. apply Hmax in Hj. lia.
      + intros _ i g Hi. destruct (Hwf i g Hi) as (arr & -> & Hle & Hnext).
        exists arr. split; [done|].
        destruct (decide (i = idx - 1)) as [->|Hne].
        * rewrite Hf in Hi. injection Hi as ->. simpl in Hfull. lia.
        * apply (Hnext (idx - 1) f Hf). apply Hmax in Hi. lia.
    - set (space := Z.to_nat (chunk - Z.of_nat (length (content_of f)))) in *.
      destruct (Hwf _ _ Hf) as (content & -> & Hle & _). simpl in *.
      assert (∀ i g, chunks (write_chunk (idx - 1) (content ++ take space (x :: new_list)) fd)
                       !! i = Some g →
                (i = idx - 1 ∧ g = Parsed (content ++ take space (x :: new_list)))
                ∨ (i < idx - 1 ∧ chunks fd !! i = Some g)) as Hlook.
      { intros i g. rewrite chunks_write_chunk.
        intros [[<- <-]|[Hne Hi]]%lookup_insert_Some; [by left|].
        right. split; [|done]. apply Hmax in Hi. lia. }
      split; [|split].
      + intros j g [[-> _]|[? _]]%Hlook; lia.
      + intros i g [[-> ->]|[Hi Hg]]%Hlook.
        * eexists. split; [done|]. rewrite length_app, length_take. split; [lia|].
          intros j g' [[-> _]|[? _]]%Hlook; lia.
        * destruct (Hwf i g Hg) as (arr & -> & Hle' & Hnext).
          exists arr. split; [done|]. split; [done|]. intros _ _ _ _.
          apply (Hnext (idx - 1) _ Hf). lia.
      + intros Hrest i g [[-> ->]|[Hi Hg]]%Hlook.
        * eexists. split; [done|]. rewrite length_app, length_take.
          assert (length (drop space (x :: new_list)) ≠ 0)%nat as Hd
            by (by destruct (drop space (x :: new_list))).
          rewrite length_drop in Hd. lia.
        * destruct (Hwf i g Hg) as (arr & -> & Hle' & Hnext).
          exists arr. split; [done|]. apply (Hnext (idx - 1) _ Hf). lia. }
  clear Hcase Hwf.
  assert (∀ i f, chunks (write_chunks (length rest) cap rest idx fd1) !! i = Some f →
            (∃ m : nat, i = idx + Z.of_nat m ∧ (m * cap < length rest)%nat
                        ∧ f = Parsed (take cap (drop (m * cap) rest)))
            ∨ (i < idx ∧ chunks fd1 !! i = Some f)) as Hlook.
  { intros i f. rewrite write_chunks_lookup by lia.
    case_decide as Hd.
    - intros [= <-]. left. exists (Z.to_nat (i - idx)). split; [lia|]. by destruct Hd.
    - intros Hi. right. split; [|done]. by apply Hlt in Hi. }
  intros i f [(m & -> & Hm & ->)|[Hi Hf]]%Hlook.
  - eexists. split; [done|]. rewrite length_take, length_drop. split; [lia|].
    intros j g [(m' & -> & Hm' & _)|[Hj _]]%Hlook Hij; [|lia].
    assert (m < m')%nat by lia. nia.
  - destruct (Hwf1 i f Hf) as (arr & -> & Hle & Hnext).
    exists arr. split; [done|]. split; [done|].
    intros j g [(m' & -> & Hm' & _)|[Hj Hg]]%Hlook Hij.
    + destruct (Hfull1 ltac:(by destruct rest; simpl in *; [lia|]) i _ Hf) as (arr' & [= <-] & ?).
      done.
    + by eapply Hnext.
Qed.

(** X11. When every chunk holds at most [chunk] records and every chunk but
    the last exactly [chunk], the same holds after an append. *)
Theorem append_keeps_chunks_full (new_list : list dict) (fd fd' : folder) (chunk : Z) :
  0 < chunk → well_filled (Z.to_nat chunk) fd →
  append_patents new_list fd chunk = Ok fd' →
  well_filled (Z.to_nat chunk) fd'.
Proof. apply well_filled_append. Qed.

Lemma well_filled_one_chunk_of_two : well_filled 3 one_chunk_of_two.
Proof.
  intros i f. unfold one_chunk_of_two. simpl.
  intros [<- <-]%lookup_singleton_Some. eexists. split; [done|]. split; [simpl; lia|].
  intros j g [<- _]%lookup_singleton_Some. lia.
Defined.

Lemma append_keeps_chunks_full_witness :
  well_filled 3 (write_chunks 2 3 (drop 1 five_new) 1
                   (write_chunk 0 ([entry "US-1"; entry "US-2"] ++ take 1 five_new)
                      one_chunk_of_two)).
Proof.
  apply (append_keeps_chunks_full five_new one_chunk_of_two _ 3).
  - lia.
  - exact well_filled_one_chunk_of_two.
  - vm_compute. reflexivity.
Defined.

Lemma tmps_append (new_list : list dict) (fd fd' : folder) (chunk : Z) :
  append_patents new_list fd chunk = Ok fd' → tmps fd' ⊆ tmps fd.
Proof.
  assert (∀ fuel cap (l : list dict) idx fd0,
            tmps (write_chunks fuel cap l idx fd0) ⊆ tmps fd0) as Hloop.
  { induction fuel as [|fuel IH]; intros cap l idx fd0; [done|].
    destruct l as [|x l]; simpl; [done|].
    etrans; [apply IH|]. rewrite tmps_write_chunk. apply delete_subseteq. }
  unfold append_patents. destruct new_list as [|x new_list]; [by intros [= <-]|].
  destruct (last (list_existing_json fd)) as [[last_idx last_file]|].
  - destruct (_ <? chunk); destruct (chunk =? 0); try done;
      destruct (chunk <? 0); intros H; apply (inj Ok) in H; subst fd'; try done.
    all: first [ apply Hloop
               | rewrite tmps_write_chunk; apply delete_subseteq
               | etrans; [apply Hloop|]; rewrite tmps_write_chunk; apply delete_subseteq ].
  - destruct (chunk =? 0); [done|].
    destruct (chunk <? 0); intros H; apply (inj Ok) in H; subst fd'; [done|].
    apply Hloop.
Qed.

(** X12. An append leaves no temporary file behind: the temporary files
    after it are among those that were there before it. *)
Theorem append_leaves_no_temporary (new_list : list dict) (fd fd' : folder) (chunk : Z) :
  append_patents new_list fd chunk = Ok fd' → tmps fd' ⊆ tmps fd.
Proof. apply tmps_append. Qed.

Lemma append_leaves_no_temporary_witness :
  tmps (write_chunk 0 [entry "US-1"; entry "US-3"] stale_tmp) ⊆ tmps stale_tmp.
Proof.
  apply (append_leaves_no_temporary [entry "US-3"] stale_tmp _ 3). vm_compute. reflexivity.
Defined.

(** X13. With a capacity of zero an append of at least one record raises
    [ValueError], with a negative capacity it returns; in both cases nothing
    is written and the new records are dropped. *)
Theorem no_capacity_no_write (new_list : list dict) (fd : folder) (chunk : Z) :
  new_list ≠ [] → chunk ≤ 0 →
  append_patents new_list fd chunk
  = if chunk =? 0 then Raise (ValueError "range() arg 3 must not be zero") else Ok fd.
Proof.
  intros Hne Hchunk. unfold append_patents. destruct new_list as [|x new_list]; [done|].
  destruct (last (list_existing_json fd)) as [[last_idx last_file]|].
  - destruct (Z.ltb_spec (Z.of_nat (length match last_file with
                                           | Parsed c => c | Unparsable => [] end)) chunk);
      [lia|].
    destruct (Z.eqb_spec chunk 0); [done|]. destruct (Z.ltb_spec chunk 0); [done|lia].
  - destruct (Z.eqb_spec chunk 0); [done|]. destruct (Z.ltb_spec chunk 0); [done|lia].
Qed.

Lemma no_capacity_no_write_witness :
  append_patents five_new one_chunk_of_two 0
  = Raise (ValueError "range() arg 3 must not be zero")
  ∧ append_patents five_new one_chunk_of_two (-1) = Ok one_chunk_of_two.
Proof.
  split.
  - apply (no_capacity_no_write five_new one_chunk_of_two 0); [done | lia].
  - apply (no_capacity_no_write five_new one_chunk_of_two (-1)); [done | lia].
Defined.

Lemma scan_files_app p a b :
  scan_files p (a ++ b) = scan_files p a ≫= fun p' => scan_files p' b.
Proof.
  revert p. induction a as [|[i f] a IH]; intros p; [done|].
  rewrite <- app_comm_cons, !scan_files_cons.
  destruct (scan_file p f); simpl; [apply IH | done].
Qed.

(** X14. A chunk that cannot be parsed does not change what
    [load_processed_ids] gives: the result, keys or exception, is that of
    the folder without the chunk. *)
Theorem unparsable_chunk_is_skipped (fd : folder) (i : Z) (t : gmap Z file) :
  chunks fd !! i = Some Unparsable →
  load_processed_ids {| chunks := delete i (chunks fd); tmps := t |}
  = load_processed_ids fd.
Proof.
  intros Hi. unfold load_processed_ids.
  pose proof (existing_sorted fd) as Hsorted.
  pose proof (list_existing_json_perm fd) as Hperm.
  pose proof Hi as Hin.
  apply elem_of_list_existing_json, list_elem_of_split in Hin as (l1 & l2 & Hl).
  rewrite Hl in Hsorted, Hperm |- *.
  rewrite (existing_unique _ (l1 ++ l2)).
  - rewrite !scan_files_app. by destruct (scan_files ∅ l1).
  - apply StronglySorted_app in Hsorted as (H12 & H1 & H2).
    apply StronglySorted_app_2; [|done|by apply StronglySorted_cons in H2 as [_ ?]].
    intros x1 x2 Hx1 Hx2. apply H12; [done|]. by right.
  - simpl. apply (Permutation_cons_inv (a := (i, Unparsable))).
    rewrite (map_to_list_delete (chunks fd) i Unparsable Hi).
    rewrite <- Hperm. apply Permutation_middle.
Qed.

Lemma unparsable_chunk_is_skipped_witness :
  load_processed_ids {| chunks := delete 1 (chunks broken_last_chunk); tmps := ∅ |}
  = load_processed_ids broken_last_chunk.
Proof. apply (unparsable_chunk_is_skipped broken_last_chunk 1 ∅). vm_compute. reflexivity. Defined.

(** Keys after an append, whatever the new records resolve to. *)
Lemma load_append_keys (fd : folder) (new_list : list dict) (chunk : Z) (s K : gset string) :
  load_processed_ids fd = Ok s →
  scan_entries ∅ new_list = Ok K →
  0 < chunk →
  ∃ fd', append_patents new_list fd chunk = Ok fd' ∧ load_processed_ids fd' = Ok (K ∪ s).
Proof.
  intros Hs%load_processed_ids_Ok HK Hchunk.
  unfold append_patents. destruct new_list as [|x new_list].
  { exists fd. split; [done|]. apply load_processed_ids_Ok.
    injection HK as <-. by replace (∅ ∪ s) with s by set_solver. }
  set (new_list' := x :: new_list) in *.
  destruct (Z.eqb_spec chunk 0) as [|_]; [lia|].
  destruct (Z.ltb_spec chunk 0) as [|_]; [lia|].
  assert (Hcap : (0 < Z.to_nat chunk)%nat) by lia.
  destruct (last (list_existing_json fd)) as [[last_idx last_file]|] eqn:Hlast.
  - apply last_existing_Some in Hlast as [Hi Hmax].
    set (content := match last_file with Parsed c => c | Unparsable => [] end).
    destruct (Z.ltb_spec (Z.of_nat (length content)) chunk) as [Hroom|Hfull].
    + set (space := Z.to_nat (chunk - Z.of_nat (length content))).
      eexists. split; [done|]. apply load_processed_ids_Ok.
      rewrite <- (take_drop space new_list') in HK.
      apply scan_entries_app_Ok in HK as (Kt & Kd & Ht & Hd & ->).
      replace (Kd ∪ Kt ∪ s) with (Kd ∪ (Kt ∪ s)) by set_solver.
      apply scan_write_chunks; [done | lia | | | done].
      * intros j Hj. rewrite chunks_write_chunk, lookup_insert_ne by lia.
        destruct (chunks fd !! j) eqn:Hj'; [|done]. apply Hmax in Hj'. lia.
      * rewrite chunks_write_chunk, <- insert_delete_eq.
        apply scan_insert_fresh; [apply lookup_delete_eq|].
        eapply scan_files_perm in Hs; [|symmetry; by apply map_to_list_delete].
        apply scan_files_cons_Ok in Hs as (Kc & Hc & Hrest).
        apply scan_files_cons_Ok. simpl.
        assert (Hcontent : scan_entries ∅ content = Ok Kc).
        { unfold content. by destruct last_file. }
        exists (Kt ∪ Kc). split.
        -- rewrite scan_entries_app, Hcontent; simpl. by rewrite scan_entries_union, Ht.
        -- rewrite <- (assoc_L (∪)). by apply scan_files_more.
    + eexists. split; [done|]. apply load_processed_ids_Ok.
      apply scan_write_chunks; [done | lia | | done | done].
      intros j Hj. destruct (chunks fd !! j) eqn:Hj'; [|done]. apply Hmax in Hj'. lia.
  - eexists. split; [done|]. apply load_processed_ids_Ok.
    apply scan_write_chunks; [done | lia | | done | done].
    intros j _. apply last_existing_None in Hlast. by rewrite Hlast, lookup_empty.
Qed.

Lemma flush_facts (results : list dict) (fd : folder) :
  ∃ fd',
    flush results [] fd = Ok fd'
    ∧ records_of fd' = records_of fd ++ results
    ∧ (well_filled (Z.to_nat CHUNK_SIZE) fd → well_filled (Z.to_nat CHUNK_SIZE) fd')
    ∧ tmps fd' ⊆ tmps fd
    ∧ (∀ s K, load_processed_ids fd = Ok s → scan_entries ∅ results = Ok K →
              load_processed_ids fd' = Ok (K ∪ s)).
Proof.
  assert (0 < CHUNK_SIZE) as Hpos by done.
  assert (∀ buffer fd0, ∃ fd',
            flush results buffer fd0 = Ok fd'
            ∧ records_of fd' = records_of fd0 ++ buffer ++ results
            ∧ (well_filled (Z.to_nat CHUNK_SIZE) fd0 → well_filled (Z.to_nat CHUNK_SIZE) fd')
            ∧ tmps fd' ⊆ tmps fd0
            ∧ (∀ s K, load_processed_ids fd0 = Ok s →
                      scan_entries ∅ (buffer ++ results) = Ok K →
                      load_processed_ids fd' = Ok (K ∪ s))) as H.
  { induction results as [|x results IH]; intros buffer fd0.
    - cbn [flush]. rewrite app_nil_r. destruct buffer as [|b buffer].
      + exists fd0. rewrite app_nil_r. repeat split; try done.
        intros s K Hs [= <-]. by replace (∅ ∪ s) with s by set_solver.
      + destruct (records_append (b :: buffer) fd0 CHUNK_SIZE Hpos) as (fd' & Happ & Hrec).
        exists fd'. split; [done|]. split; [done|]. split; [|split].
        * intros Hwf. by eapply well_filled_append.
        * by eapply tmps_append.
        * intros s K Hs HK.
          destruct (load_append_keys fd0 (b :: buffer) CHUNK_SIZE s K Hs HK Hpos)
            as (fd'' & Happ' & Hload). congruence.
    - cbn [flush]. cbv zeta.
      destruct (CHUNK_SIZE <=? Z.of_nat (length (buffer ++ [x]))).
      + destruct (records_append (buffer ++ [x]) fd0 CHUNK_SIZE Hpos)
          as (fd1 & Happ & Hrec).
        rewrite Happ. simpl.
        destruct (IH [] fd1) as (fd' & Hflush & Hrec' & Hwf' & Htmp' & Hload').
        exists fd'. split; [done|]. split; [|split; [|split]].
        * rewrite Hrec', Hrec. simpl. by rewrite <- !app_assoc.
        * intros Hwf. apply Hwf'. by eapply well_filled_append.
        * etrans; [exact Htmp'|]. by eapply tmps_append.
        * intros s K Hs HK.
          replace (buffer ++ x :: results) with ((buffer ++ [x]) ++ results) in HK
            by (by rewrite <- app_assoc).
          apply scan_entries_app_Ok in HK as (Kb & Kr & Hb & Hr & ->).
          destruct (load_append_keys fd0 (buffer ++ [x]) CHUNK_SIZE s Kb Hs Hb Hpos)
            as (fd'' & Happ' & Hload).
          assert (fd'' = fd1) as -> by congruence.
          rewrite (Hload' _ _ Hload Hr). f_equal. set_solver.
      + destruct (IH (buffer ++ [x]) fd0) as (fd' & Hflush & Hrec' & Hwf' & Htmp' & Hload').
        exists fd'. split; [done|]. rewrite <- !app_assoc in Hrec'.
        split; [done|]. split; [done|]. split; [done|].
        intros s K Hs HK. apply Hload'; [done|]. by rewrite <- app_assoc. }
  destruct (H [] fd) as (fd' & ? & ? & ? & ? & ?). exists fd'. done.
Qed.

(** X15. The flush loop of [main] always returns. Whatever the places where
    the buffer is flushed, the folder then holds the records it held
    followed by the results in the order they arrived, keeps its chunks full
    when they were, has no new temporary file, and its keys are the keys it
    had and those of the results. *)
Theorem flush_is_one_append (results : list dict) (fd : folder) :
  ∃ fd',
    flush results [] fd = Ok fd'
    ∧ records_of fd' = records_of fd ++ results
    ∧ (well_filled (Z.to_nat CHUNK_SIZE) fd → well_filled (Z.to_nat CHUNK_SIZE) fd')
    ∧ tmps fd' ⊆ tmps fd
    ∧ (∀ s K, load_processed_ids fd = Ok s → scan_entries ∅ results = Ok K →
              load_processed_ids fd' = Ok (K ∪ s)).
Proof. apply flush_facts. Qed.
End StoreMore.

Section MainFacts.
Import S01.

(** What the dedupe loop keeps true of the dict [u] and the rows [seen]
    so far. *)
Lemma dedupe_inv (todo seen : list dict) (u u' : list (string * dict)) :
  NoDup u.*1 →
  (∀ pid r, (pid, r) ∈ u →
     pid ≠ EmptyString
     ∧ ∃ before after, seen = before ++ r :: after ∧ get_csv_patent_id r = Ok pid
                       ∧ ∀ r', r' ∈ before → get_csv_patent_id r' ≠ Ok pid) →
  (∀ r pid, r ∈ seen → get_csv_patent_id r = Ok pid → pid ≠ EmptyString → pid ∈ u.*1) →
  dedupe u todo = Ok u' →
  NoDup u'.*1
  ∧ (∀ pid r, (pid, r) ∈ u' →
       pid ≠ EmptyString
       ∧ ∃ before after, seen ++ todo = before ++ r :: after ∧ get_csv_patent_id r = Ok pid
                         ∧ ∀ r', r' ∈ before → get_csv_patent_id r' ≠ Ok pid)
  ∧ (∀ r pid, r ∈ seen ++ todo → get_csv_patent_id r = Ok pid → pid ≠ EmptyString →
              pid ∈ u'.*1).
Proof.
  revert seen u. induction todo as [|x todo IH]; intros seen u Hnd Hfirst Hall.
  - intros [= <-]. rewrite app_nil_r. done.
  - cbn [dedupe]. destruct (get_csv_patent_id x) as [pid|] eqn:Hx; [|done]. simpl.
    replace (seen ++ x :: todo) with ((seen ++ [x]) ++ todo) by (by rewrite <- app_assoc).
    destruct (Py.nonempty pid && negb (bool_decide (pid ∈ u.*1))) eqn:Hnew.
    + apply andb_prop in Hnew as [Hne Hnot]. apply nonempty_spec in Hne.
      apply negb_true_iff, bool_decide_eq_false in Hnot.
      apply IH.
      * rewrite fmap_app. apply NoDup_app. split; [done|]. split; [|apply NoDup_singleton].
        intros k Hk ->%list_elem_of_singleton. done.
      * intros k r [Hin| [= -> ->]%list_elem_of_singleton]%elem_of_app.
        -- destruct (Hfirst k r Hin) as (Hk & before & after & -> & Hr & Hb).
           split; [done|]. exists before, (after ++ [x]). by rewrite <- app_assoc.
        -- split; [done|]. exists seen, []. split; [done|].
           split; [done|]. intros r' Hr' Hkey. apply Hnot. by eapply Hall.
      * intros r k [Hin| ->%list_elem_of_singleton]%elem_of_app Hr Hk.
        -- rewrite fmap_app. apply elem_of_app. left. by eapply Hall.
        -- rewrite fmap_app. apply elem_of_app. right. simpl.
           apply list_elem_of_singleton. congruence.
    + apply IH; [done| |].
      * intros k r Hin. destruct (Hfirst k r Hin) as (Hk & before & after & -> & Hr & Hb).
        split; [done|]. exists before, (after ++ [x]). by rewrite <- app_assoc.
      * intros r k [Hin| ->%list_elem_of_singleton]%elem_of_app Hr Hk; [by eapply Hall|].
        assert (k = pid) as -> by congruence.
        apply andb_false_iff in Hnew as [Hnew|Hnew].
        -- by apply nonempty_spec in Hk; rewrite Hk in Hnew.
        -- by apply negb_false_iff, bool_decide_eq_true in Hnew.
Qed.

Lemma dedupe_facts (all_rows : list dict) (unique : list (string * dict)) :
  dedupe [] all_rows = Ok unique →
  NoDup unique.*1
  ∧ (∀ pid r, (pid, r) ∈ unique →
       pid ≠ EmptyString
       ∧ ∃ before after, all_rows = before ++ r :: after ∧ get_csv_patent_id r = Ok pid
                         ∧ ∀ r', r' ∈ before → get_csv_patent_id r' ≠ Ok pid)
  ∧ (∀ r pid, r ∈ all_rows → get_csv_patent_id r = Ok pid → pid ≠ EmptyString →
              pid ∈ unique.*1).
Proof.
  intros H. apply (dedupe_inv all_rows [] [] unique); [constructor | | | done].
  - intros pid r Hin. by apply elem_of_nil in Hin.
  - intros r pid Hin. by apply elem_of_nil in Hin.
Qed.

(** X16. The dedupe step of [main] keeps one row per key that is not empty:
    the keys kept are pairwise distinct, each is kept with the first row of
    the input that has it, and every key of the input that is not empty is
    kept. *)
Theorem dedupe_keeps_first_row (all_rows : list dict) (unique : list (string * dict)) :
  dedupe [] all_rows = Ok unique →
  NoDup unique.*1
  ∧ (∀ pid r, (pid, r) ∈ unique →
       pid ≠ EmptyString
       ∧ ∃ before after, all_rows = before ++ r :: after ∧ get_csv_patent_id r = Ok pid
                         ∧ ∀ r', r' ∈ before → get_csv_patent_id r' ≠ Ok pid)
  ∧ (∀ r pid, r ∈ all_rows → get_csv_patent_id r = Ok pid → pid ≠ EmptyString →
              pid ∈ unique.*1).
Proof. apply dedupe_facts. Qed.

Lemma dedupe_keeps_first_row_witness :
  NoDup [("US1", csv_row "US-1"); ("US3", csv_row "US-3")].*1
  ∧ (∀ pid r, (pid, r) ∈ [("US1", csv_row "US-1"); ("US3", csv_row "US-3")] →
       pid ≠ EmptyString
       ∧ ∃ before after, three_rows = before ++ r :: after ∧ get_csv_patent_id r = Ok pid
                         ∧ ∀ r', r' ∈ before → get_csv_patent_id r' ≠ Ok pid)
  ∧ (∀ r pid, r ∈ three_rows → get_csv_patent_id r = Ok pid → pid ≠ EmptyString →
              pid ∈ [("US1", csv_row "US-1"); ("US3", csv_row "US-3")].*1).
Proof. apply (dedupe_keeps_first_row three_rows). vm_compute. reflexivity. Defined.

Lemma select_new_inv processed (deduped acc new_rows : list dict) (n skipped : nat) :
  select_new processed deduped acc n = Ok (new_rows, skipped) →
  ∃ more,
    new_rows = acc ++ more
    ∧ (length more + skipped = length deduped + n)%nat
    ∧ more `sublist_of` deduped
    ∧ (∀ r, r ∈ more → ∃ pid, get_csv_patent_id r = Ok pid ∧ pid ≠ EmptyString
                              ∧ pid ∉ processed)
    ∧ (∀ r pid, r ∈ deduped → get_csv_patent_id r = Ok pid → pid ≠ EmptyString →
                pid ∉ processed → r ∈ more).
Proof.
  revert acc n. induction deduped as [|x deduped IH]; intros acc n.
  - intros [= <- <-]. exists []. rewrite app_nil_r. repeat split; try done.
    all: intros; match goal with H : _ ∈ [] |- _ => by apply elem_of_nil in H end.
  - cbn [select_new]. destruct (get_csv_patent_id x) as [pid|] eqn:Hx; [|done]. simpl.
    destruct (Py.nonempty pid && negb (bool_decide (pid ∈ processed))) eqn:Hnew.
    + apply andb_prop in Hnew as [Hne Hnot]. apply nonempty_spec in Hne.
      apply negb_true_iff, bool_decide_eq_false in Hnot.
      intros (more & -> & Hlen & Hsub & Hkeys & Hall)%IH.
      exists (x :: more). rewrite <- app_assoc. split; [done|]. split; [simpl; lia|].
      split; [by apply sublist_skip|]. split.
      * intros r [->|Hr]%elem_of_cons; [eauto | by apply Hkeys].
      * intros r k [->|Hr]%elem_of_cons Hk Hne' Hnot'; [by left|]. right. by eapply Hall.
    + intros (more & -> & Hlen & Hsub & Hkeys & Hall)%IH.
      exists more. split; [done|]. split; [simpl; lia|].
      split; [by apply sublist_cons|]. split; [done|].
      intros r k [->|Hr]%elem_of_cons Hk Hne' Hnot'; [|by eapply Hall].
      assert (k = pid) as -> by congruence.
      apply andb_false_iff in Hnew as [Hnew|Hnew].
      * by apply nonempty_spec in Hne'; rewrite Hne' in Hnew.
      * by apply negb_false_iff, bool_decide_eq_true in Hnew.
Qed.

(** X17. The rows a run fetches are rows of the input whose key is not empty
    and not among the keys loaded from the folder, and every such key of the
    input is fetched through one of its rows. *)
Theorem only_new_rows_are_fetched (all_rows : list dict) (fd : folder)
    (new_rows : list dict) :
  rows_to_fetch all_rows fd = Ok new_rows →
  ∃ processed,
    load_processed_ids fd = Ok processed
    ∧ (∀ r, r ∈ new_rows →
         r ∈ all_rows
         ∧ ∃ pid, get_csv_patent_id r = Ok pid ∧ pid ≠ EmptyString ∧ pid ∉ processed)
    ∧ (∀ r pid, r ∈ all_rows → get_csv_patent_id r = Ok pid → pid ≠ EmptyString →
                pid ∉ processed →
                ∃ r', r' ∈ new_rows ∧ get_csv_patent_id r' = Ok pid).
Proof.
  unfold rows_to_fetch.
  destruct (dedupe [] all_rows) as [unique|] eqn:Hd; [simpl|done].
  destruct (load_processed_ids fd) as [processed|]; [simpl|done].
  destruct (select_new processed unique.*2 [] 0) as [[new skipped]|] eqn:Hs; [simpl|done].
  intros [= <-]. exists processed. split; [done|].
  apply dedupe_facts in Hd as (Hnd & Hfirst & Hall).
  apply select_new_inv in Hs as (more & -> & _ & Hsub & Hkeys & Hnew). simpl.
  split.
  - intros r Hr. split; [|by apply Hkeys].
    eapply elem_of_sublist in Hr; [|exact Hsub].
    apply list_elem_of_fmap in Hr as ([pid r'] & -> & Hin).
    destruct (Hfirst pid r' Hin) as (_ & before & after & -> & _). simpl.
    apply elem_of_app. right. by left.
  - intros r pid Hr Hk Hne Hnot.
    specialize (Hall r pid Hr Hk Hne).
    apply list_elem_of_fmap in Hall as ([pid' r'] & -> & Hin). simpl in *.
    destruct (Hfirst pid' r' Hin) as (_ & _ & _ & _ & Hk' & _).
    exists r'. split; [|done]. apply (Hnew r' pid'); [|done..].
    apply list_elem_of_fmap. by exists (pid', r').
Qed.

Lemma only_new_rows_are_fetched_witness :
  ∃ processed,
    load_processed_ids one_chunk_of_two = Ok processed
    ∧ (∀ r, r ∈ [csv_row "US-3"] →
         r ∈ three_rows
         ∧ ∃ pid, get_csv_patent_id r = Ok pid ∧ pid ≠ EmptyString ∧ pid ∉ processed)
    ∧ (∀ r pid, r ∈ three_rows → get_csv_patent_id r = Ok pid → pid ≠ EmptyString →
                pid ∉ processed →
                ∃ r', r' ∈ [csv_row "US-3"] ∧ get_csv_patent_id r' = Ok pid).
Proof.
  apply (only_new_rows_are_fetched three_rows one_chunk_of_two). vm_compute. reflexivity.
Defined.

Lemma select_new_all_skipped processed (deduped acc : list dict) (n : nat) :
  (∀ r, r ∈ deduped →
     ∃ pid, get_csv_patent_id r = Ok pid ∧ (pid = EmptyString ∨ pid ∈ processed)) →
  select_new processed deduped acc n = Ok (acc, (n + length deduped)%nat).
Proof.
  revert n. induction deduped as [|x deduped IH]; intros n Hall.
  - simpl. by rewrite Nat.add_0_r.
  - cbn [select_new]. destruct (Hall x) as (pid & -> & Hpid); [by left|]. simpl.
    replace (Py.nonempty pid && negb (bool_decide (pid ∈ processed))) with false.
    + rewrite IH; [|intros r Hr; apply Hall; by right]. do 2 f_equal. simpl. lia.
    + symmetry. apply andb_false_iff. destruct Hpid as [->|Hin]; [by left|].
      right. by rewrite bool_decide_eq_true_2.
Qed.

Lemma scan_fetched (fetched : list (dict * dict)) :
  Forall (fun rd => ∃ pid, get_csv_patent_id rd.1 = Ok pid ∧ resolves rd.2 pid) fetched →
  ∃ K, scan_entries ∅ fetched.*2 = Ok K
       ∧ ∀ r pid, r ∈ fetched.*1 → get_csv_patent_id r = Ok pid → pid ∈ K.
Proof.
  induction 1 as [|[r d] fetched (pid & Hr & Hd) _ (K & HK & Hin)].
  - exists ∅. split; [done|]. intros r pid Hr. by apply elem_of_nil in Hr.
  - exists (K ∪ {[pid]}). simpl in Hr, Hd. split.
    + rewrite fmap_cons. cbn [scan_entries snd]. unfold resolves in Hd. rewrite Hd.
      change (scan_entries {[pid]} fetched.*2 = Ok (K ∪ {[pid]})).
      by rewrite scan_entries_union, HK.
    + rewrite fmap_cons. intros r' k [->|Hr']%elem_of_cons Hk.
      * simpl in Hk. assert (k = pid) as -> by congruence. set_solver.
      * apply elem_of_union. left. by eapply Hin.
Qed.

(** X18. When each result stored by a run resolves to the key of the row it
    was fetched for, in whatever order the results arrived, a second run
    over the same rows finds nothing to fetch. *)
Theorem second_run_fetches_nothing (all_rows : list dict) (fd : folder)
    (new_rows : list dict) (fetched : list (dict * dict)) :
  rows_to_fetch all_rows fd = Ok new_rows →
  fetched.*1 ≡ₚ new_rows →
  Forall (fun rd => ∃ pid, get_csv_patent_id rd.1 = Ok pid ∧ resolves rd.2 pid) fetched →
  ∃ fd', flush fetched.*2 [] fd = Ok fd' ∧ rows_to_fetch all_rows fd' = Ok [].
Proof.
  intros Hrun Hperm Hres. unfold rows_to_fetch in *.
  destruct (dedupe [] all_rows) as [unique|] eqn:Hd; [simpl in *|done].
  destruct (load_processed_ids fd) as [s|] eqn:Hload; [simpl in *|done].
  destruct (select_new s unique.*2 [] 0) as [[new skipped]|] eqn:Hs; [simpl in *|done].
  injection Hrun as ->.
  apply dedupe_facts in Hd as (_ & Hfirst & _).
  apply select_new_inv in Hs as (more & Hmore & _ & _ & _ & Hnew). simpl in Hmore.
  subst more.
  destruct (scan_fetched fetched Hres) as (K & HK & Hin).
  destruct (flush_facts fetched.*2 fd) as (fd' & Hflush & _ & _ & _ & Hload').
  exists fd'. split; [done|]. rewrite (Hload' s K Hload HK). simpl.
  rewrite select_new_all_skipped; [done|].
  intros r Hr. apply list_elem_of_fmap in Hr as ([pid r'] & -> & Hr). simpl.
  destruct (Hfirst pid r' Hr) as (Hne & _ & _ & _ & Hk & _).
  exists pid. split; [done|]. right.
  destruct (decide (pid ∈ s)) as [?|Hnot]; [set_solver|].
  apply elem_of_union. left. apply (Hin r'); [|done].
  rewrite Hperm. apply (Hnew r' pid); [|done..].
  apply list_elem_of_fmap. by exists (pid, r').
Qed.

Lemma second_run_fetches_nothing_witness :
  ∃ fd', flush [entry "US-3"] [] one_chunk_of_two = Ok fd'
         ∧ rows_to_fetch three_rows fd' = Ok [].
Proof.
  apply (second_run_fetches_nothing three_rows one_chunk_of_two [csv_row "US-3"]
           [(csv_row "US-3", entry "US-3")]).
  - vm_compute. reflexivity.
  - reflexivity.
  - repeat constructor. exists "US3". split; vm_compute; reflexivity.
Defined.

End MainFacts.

Section CovidFacts.
Import S05.

(** X19. Script 05 writes one record per record read, in the order read. A
    record is written as read, or with [is_covid] set when its task did not
    see the flag: to [non-covid], or to the value a reply of one of at most
    three calls holds under [is_covid]. A record whose description is not a
    text is written as read. *)
Theorem covid_stage_writes_every_record (shutdown_at : nat -> bool)
    (client : nat -> nat -> reply) (records : list dict) :
  length (main shutdown_at client records) = length records
  ∧ ∀ i r, records !! i = Some r →
      (main shutdown_at client records !! i = Some r
       ∨ ∃ v, main shutdown_at client records !! i = Some (<["is_covid" := v]> r)
              ∧ shutdown_at i = false
              ∧ (v = VStr "non-covid"
                 ∨ ∃ n, up_to_three n ∧ answers "is_covid" (client i n) v))
      ∧ ((∀ s, get r "description" (VStr "") ≠ VStr s) →
         main shutdown_at client records !! i = Some r).
Proof.
  unfold main. split; [apply length_imap|].
  intros i r Hi. rewrite list_lookup_imap, Hi. simpl. unfold task, process_patent.
  destruct (shutdown_at i) eqn:Hs; [split; [by left | done]|].
  destruct (get r "description" (VStr "")) as [| | | |s| |] eqn:Hd; simpl;
    try (split; [by left | done]).
  destruct (Py.nonempty (Py.strip s)).
  - unfold async_get_covid_status.
    pose proof (classify_cases "is_covid" (VStr "non-covid") (client i) (VStr (Py.strip s)))
      as H.
    destruct (S02.classify _ _ _ _) as [v log]. destruct H as [H _].
    split; [|intros Hnt; by destruct (Hnt s)].
    right. exists v. done.
  - split; [|intros Hnt; by destruct (Hnt s)].
    right. exists (VStr "non-covid"). split; [done|]. split; [done|]. by left.
Qed.
End CovidFacts.

Section DescriptionFacts.
Import S03.

Lemma scrape_all_inv scrape n patents results failed log results' failed' log' :
  scrape_all scrape n patents results failed log = (results', failed', log') →
  ∃ new_results new_failed new_log,
    results' = results ++ new_results ∧ failed' = failed ++ new_failed
    ∧ log' = log ++ new_log
    ∧ (length new_results + length new_failed)%nat = length patents
    ∧ Forall (fun m => ∃ patent k scraped,
                patent ∈ patents ∧ scrape k (identifier patent) = Some scraped
                ∧ m = scraped ∪ patent) new_results
    ∧ Forall (failure_of patents) new_failed
    ∧ sleeps new_log
      = replicate (length (filter (fun p => Value.truthy (identifier p) = true) patents)) 1.
Proof.
  revert n results failed log.
  induction patents as [|patent patents IH]; intros n results failed log.
  - intros [= <- <- <-]. exists [], [], []. rewrite !app_nil_r. repeat split; constructor.
  - cbn [scrape_all]. fold (identifier patent).
    assert (∀ l, Forall (failure_of patents) l → Forall (failure_of (patent :: patents)) l)
      as Hf.
    { intros l Hl. eapply Forall_impl; [exact Hl|]. intros [p|id]; simpl.
      - intros [? ?]. split; [by right | done].
      - intros (p & ? & ? & ?). exists p. split; [by right | done]. }
    assert (∀ l, Forall (fun m => ∃ p k scraped,
                           p ∈ patents ∧ scrape k (identifier p) = Some scraped
                           ∧ m = scraped ∪ p) l →
                 Forall (fun m => ∃ p k scraped,
                           p ∈ patent :: patents ∧ scrape k (identifier p) = Some scraped
                           ∧ m = scraped ∪ p) l) as Hr.
    { intros l Hl. eapply Forall_impl; [exact Hl|].
      intros m (p & k & sc & ? & ? & ?). exists p, k, sc.
      split; [by right | done]. }
    rewrite filter_cons.
    destruct (decide (Value.truthy (identifier patent) = true)) as [Hid|Hid].
    + rewrite Hid. cbn [negb].
      destruct (scrape n (identifier patent)) as [scraped|] eqn:Hs.
      * destruct (bool_decide (dom scraped = ∅)).
        -- intros (nr & nf & nl & -> & -> & -> & Hlen & Hres & Hfail & Hlog)%IH.
           exists nr, (NotScraped (identifier patent) :: nf), ([Call n; Sleep 1] ++ nl).
           rewrite <- !app_assoc. split; [done|]. split; [done|]. split; [done|].
           split; [simpl; lia|]. split; [by apply Hr|]. split.
           ++ constructor; [|by apply Hf]. simpl. exists patent. split; [by left | done].
           ++ simpl. by rewrite Hlog.
        -- intros (nr & nf & nl & -> & -> & -> & Hlen & Hres & Hfail & Hlog)%IH.
           exists ((scraped ∪ patent) :: nr), nf, ([Call n; Sleep 1] ++ nl).
           rewrite <- !app_assoc. split; [done|]. split; [done|]. split; [done|].
           split; [simpl; lia|]. split; [|split; [by apply Hf|]].
           ++ constructor; [|by apply Hr]. exists patent, n, scraped.
              split; [by left | done].
           ++ simpl. by rewrite Hlog.
      * intros (nr & nf & nl & -> & -> & -> & Hlen & Hres & Hfail & Hlog)%IH.
        exists nr, (NotScraped (identifier patent) :: nf), ([Call n; Sleep 1] ++ nl).
        rewrite <- !app_assoc. split; [done|]. split; [done|]. split; [done|].
        split; [simpl; lia|]. split; [by apply Hr|]. split.
        -- constructor; [|by apply Hf]. simpl. exists patent. split; [by left | done].
        -- simpl. by rewrite Hlog.
    + apply not_true_is_false in Hid. rewrite Hid. cbn [negb].
      intros (nr & nf & nl & -> & -> & -> & Hlen & Hres & Hfail & Hlog)%IH.
      exists nr, (MissingID patent :: nf), nl.
      rewrite <- !app_assoc. split; [done|]. split; [done|]. split; [done|].
      split; [simpl; lia|]. split; [by apply Hr|]. split; [|done].
      constructor; [|by apply Hf]. simpl. split; [by left | done].
Qed.



Lemma lookup_set_if k j v (d : dict) : k ≠ j → set_if j v d !! k = d !! k.
Proof. intros H. destruct v; simpl; [by rewrite lookup_insert_ne|done]. Qed.

Lemma scrape_patent_fields session parse elapsed original_id r log :
  scrape_patent session parse elapsed original_id = (Some r, log) →
  ∃ id page,
    original_id = VStr id
    ∧ _get_page_html session id = (Some page, log)
    ∧ r !! "id" = Some (VStr id)
    ∧ r !! "application_number" = Some (VStr (_convert_id_to_url_format id))
    ∧ r !! "abstract" = Some (VStr (abstract (parse page)))
    ∧ r !! "description" = Some (VStr (description (parse page)))
    ∧ ∀ k, k ∉ scraped_keys → r !! k = None.
Proof.
  unfold scrape_patent. destruct original_id as [| | | |id| |]; try done.
  destruct (_get_page_html session id) as [[page|] log'] eqn:E; [|done].
  intros [= <- <-]. exists id, page. split; [done|]. split; [done|].
  assert (∀ k, k ≠ "title" → k ≠ "publication_date" → k ≠ "abstract" → k ≠ "inventors" →
               metadata (parse page) !! k = None) as Hmeta.
  { intros k ? ? ? ?. unfold metadata. by rewrite !lookup_set_if, lookup_empty. }
  split; [|split; [|split; [|split]]].
  - rewrite !lookup_insert_ne by done. rewrite lookup_union_r by (by apply Hmeta).
    by rewrite lookup_insert_eq.
  - rewrite !lookup_insert_ne by done. rewrite lookup_union_r by (by apply Hmeta).
    rewrite lookup_insert_ne by done. by rewrite lookup_insert_eq.
  - rewrite !(lookup_insert_ne _ _ "abstract") by done. by rewrite lookup_insert_eq.
  - rewrite !(lookup_insert_ne _ _ "description") by done. by rewrite lookup_insert_eq.
  - intros k Hk. unfold scraped_keys in Hk.
    repeat (apply not_elem_of_cons in Hk as [? Hk]).
    rewrite !lookup_insert_ne by done. rewrite lookup_union_r by (by apply Hmeta).
    rewrite !lookup_insert_ne by done. by rewrite lookup_singleton_ne.
Qed.

(** X21. When [scrape_patent] returns a record, the identifier is a text and
    one of the two addresses gave a page; the record holds the identifier
    under [id], its address form under [application_number], the abstract
    and the description of the page sections under [abstract] and
    [description], also when the metadata carry an abstract, and no key
    other than the fifteen of the scraper. *)
Theorem page_abstract_overrides_metadata (session : string -> http)
    (parse : string -> parsed_page) (elapsed : string) (original_id : value)
    (r : dict) (log : list event) :
  scrape_patent session parse elapsed original_id = (Some r, log) →
  ∃ id page,
    original_id = VStr id
    ∧ _get_page_html session id = (Some page, log)
    ∧ r !! "id" = Some (VStr id)
    ∧ r !! "application_number" = Some (VStr (_convert_id_to_url_format id))
    ∧ r !! "abstract" = Some (VStr (abstract (parse page)))
    ∧ r !! "description" = Some (VStr (description (parse page)))
    ∧ ∀ k, k ∉ scraped_keys → r !! k = None.
Proof. apply scrape_patent_fields. Qed.

Lemma page_abstract_overrides_metadata_witness :
  ∃ r, scrape_patent en_unavailable empty_page "0.5" (VStr "US-1")
       = (Some r, [HttpGet "https://patents.google.com/patent/US1/en";
                   HttpGet "https://patents.google.com/patent/US1"])
       ∧ r !! "abstract" = Some (VStr "<html>US1</html>").
Proof.
  eexists. split; [reflexivity|].
  destruct (page_abstract_overrides_metadata en_unavailable empty_page "0.5" (VStr "US-1") _ _
              eq_refl) as (id & page & [= <-] & [= <-] & _ & _ & Ha & _).
  exact Ha.
Defined.

(** X22. Every record [process_patents] writes holds under [id] the
    identifier it was fetched by, also when the patent had it under
    [patent], and keeps every field of the patent that is not one of the
    fifteen keys of the scraper. *)
Theorem written_record_has_its_id (session : string -> http)
    (parse : string -> parsed_page) (elapsed : nat -> string)
    (patents results : list dict) (failed : list failed_patent) (log : list event) :
  process_patents (fun n id => (scrape_patent session parse (elapsed n) id).1) patents
    = Some (results, failed, log) →
  Forall (fun m => ∃ patent id,
            patent ∈ patents ∧ identifier patent = VStr id
            ∧ m !! "id" = Some (VStr id)
            ∧ ∀ k, k ∉ scraped_keys → m !! k = patent !! k) results.
Proof.
  unfold process_patents. destruct patents as [|p patents]; [done|].
  intros H. apply (inj Some) in H.
  apply scrape_all_inv in H as (nr & nf & nl & -> & _ & _ & _ & H & _).
  simpl. eapply Forall_impl; [exact H|]. simpl.
  intros m (patent & k & scraped & Hin & Hs & ->).
  destruct (scrape_patent session parse (elapsed k) (identifier patent)) as [o l] eqn:E.
  simpl in Hs. subst o.
  apply scrape_patent_fields in E as (id & page & Hid & _ & Hi & _ & _ & _ & Hk).
  exists patent, id. split; [done|]. split; [done|]. split.
  - by rewrite lookup_union_l'.
  - intros j Hj. by rewrite lookup_union_r by (by apply Hk).
Qed.

Lemma written_record_has_its_id_witness :
  ∃ results failed log,
    process_patents (fun n id => (scrape_patent en_unavailable empty_page "0.5" id).1)
      two_patents = Some (results, failed, log)
    ∧ Forall (fun m => ∃ patent id,
                patent ∈ two_patents ∧ identifier patent = VStr id
                ∧ m !! "id" = Some (VStr id)
                ∧ ∀ k, k ∉ scraped_keys → m !! k = patent !! k) results.
Proof.
  eexists _, _, _. split; [reflexivity|].
  apply (written_record_has_its_id en_unavailable empty_page (fun _ => "0.5") two_patents
           _ _ _ eq_refl).
Defined.

End DescriptionFacts.

Section ObjectFacts.

Lemma loads_brace r v : Json.loads (String "{" r) = Some v → ∃ d, v = VDict d.
Proof.
  unfold Json.loads. cbn [Json.skip_ws].
  change (Json.is_ws "{") with false. cbv iota.
  cbn [String.length Nat.add Json.scan_value].
  change (Ascii.eqb "{" dquote) with false. change (Ascii.eqb "{" "{") with true. cbv iota.
  destruct (Json.skip_ws r) as [|c' r']; [done|].
  destruct (Ascii.eqb c' "}").
  { destruct (Json.skip_ws r'); [|done]. intros [= <-]. eauto. }
  destruct (Ascii.eqb c' dquote); [|done].
  destruct (Json.members _ _ _) as [[d r'']|]; [|done].
  destruct (Json.skip_ws r''); [|done]. intros [= <-]. eauto.
Qed.

(** X23. Whenever [extract_json] of script 04 returns, it returns the
    rendering of a JSON object: never a list, a text or a number. *)
Theorem extract04_gives_an_object (text : value) (cleaned : string) :
  S04.extract_json text = Ok cleaned → ∃ d, cleaned = Json.dumps (VDict d).
Proof.
  unfold S04.extract_json. destruct (strip_ text) as [t|]; [simpl|done].
  set (candidate := match Re.fenced_object Re.star t with
                    | Some g => Py.strip g
                    | None => t
                    end).
  destruct (Py.startswith candidate "{" && Py.endswith_char candidate "}") eqn:Hb; simpl.
  - apply andb_prop in Hb as [(q & ->)%startswith_char _].
    destruct (Json.loads (String "{" q)) as [obj|] eqn:Hl; [|done].
    apply loads_brace in Hl as [d ->]. intros [= <-]. eauto.
  - destruct (Json.loads _) as [obj|] eqn:Hl; [|done].
    apply loads_brace in Hl as [d ->]. intros [= <-]. eauto.
Qed.

Lemma extract04_gives_an_object_witness :
  ∃ d, dq "{'technology_class': 'hybrid'}" = Json.dumps (VDict d).
Proof.
  apply (extract04_gives_an_object (VStr (dq "'technology_class': 'hybrid',"))).
  vm_compute. reflexivity.
Defined.

End ObjectFacts.

Section RepairFacts.

Lemma fence_free_cons_intro c s :
  Py.strip_prefix Re.backticks (String c s) = None → fence_free s → fence_free (String c s).
Proof.
  unfold fence_free, Re.occurs. intros H Hs. cbn [Re.search]. unfold Re.lit at 1.
  by rewrite H.
Qed.

Lemma strip_prefix_app p a b r :
  Py.strip_prefix p a = Some r → Py.strip_prefix p (a +:+ b) = Some (r +:+ b).
Proof.
  revert a. induction p as [|x p IH]; intros a; simpl.
  - by intros [= ->].
  - destruct a as [|y a]; [done|]. rewrite append_cons.
    destruct (Ascii.eqb x y); [apply IH | done].
Qed.

Lemma fence_free_prefix a b : fence_free (a +:+ b) → fence_free a.
Proof.
  induction a as [|c a IH]; [done|]. rewrite append_cons.
  intros [Hhead Hrest]%fence_free_cons.
  apply fence_free_cons_intro; [|by apply IH].
  destruct (Py.strip_prefix Re.backticks (String c a)) as [r|] eqn:E; [|done].
  apply (strip_prefix_app _ _ b) in E. rewrite append_cons in E. congruence.
Qed.

Lemma fence_free_lstrip_char c s : fence_free s → fence_free (Py.lstrip_char c s).
Proof.
  induction s as [|d s IH]; [done|]. simpl.
  destruct (Ascii.eqb c d); [|done]. intros [_ H]%fence_free_cons. by apply IH.
Qed.

Lemma rstrip_char_prefix c s : ∃ b, s = Py.rstrip_char c s +:+ b.
Proof.
  induction s as [|d s [b IH]]; [by exists EmptyString|].
  cbn [Py.rstrip_char]. destruct (Py.rstrip_char c s) as [|e r].
  - change (EmptyString +:+ b) with b in IH. subst b. destruct (Ascii.eqb c d).
    + by exists (String d s).
    + by exists s.
  - exists b. rewrite append_cons. by rewrite <- IH.
Qed.

Lemma fence_free_strip_char c s : fence_free s → fence_free (Py.strip_char c s).
Proof.
  intros H%(fence_free_lstrip_char c). unfold Py.strip_char.
  destruct (rstrip_char_prefix c (Py.lstrip_char c s)) as [b Hb].
  rewrite Hb in H. by apply fence_free_prefix in H.
Qed.

Lemma no_fence_before_brace q :
  Py.strip_prefix Re.backticks q = None →
  Py.strip_prefix Re.backticks (q +:+ "}") = None.
Proof.
  unfold Re.backticks.
  destruct q as [|c1 q]; [done|]. rewrite append_cons. cbn [Py.strip_prefix].
  destruct (Ascii.eqb "`" c1); [|done].
  destruct q as [|c2 q]; [done|]. rewrite append_cons. cbn [Py.strip_prefix].
  destruct (Ascii.eqb "`" c2); [|done].
  destruct q as [|c3 q]; [done|]. rewrite append_cons. cbn [Py.strip_prefix].
  by destruct (Ascii.eqb "`" c3).
Qed.

Lemma fence_free_braced m : fence_free m → fence_free ("{" +:+ m +:+ "}").
Proof.
  intros H. rewrite append_cons. apply fence_free_cons_intro; [done|].
  change (EmptyString +:+ ?x) with x.
  induction m as [|c m IH]; [done|]. rewrite append_cons.
  apply fence_free_cons in H as [Hhead Hrest].
  apply fence_free_cons_intro; [|by apply IH].
  rewrite <- append_cons. by apply no_fence_before_brace.
Qed.

Lemma last_char_braced m : Py.last_char ("{" +:+ m +:+ "}") = Some "}"%char.
Proof. rewrite append_cons. rewrite last_char_cons by (by destruct m).
  change (EmptyString +:+ ?x) with x. by rewrite last_char_app. Qed.

(** X25. [extract_json] of script 04 reads a stripped text without fences
    that does not run from an opening to a closing brace as it reads the
    same text with its commas at both ends removed and braces put around it. *)
Theorem missing_braces_are_added (t : string) :
  fence_free t → Py.strip t = t →
  Py.startswith t "{" && Py.endswith_char t "}" = false →
  S04.extract_json (VStr t)
  = S04.extract_json (VStr ("{" +:+ Py.strip_char "," t +:+ "}")).
Proof.
  intros Hfree Hstrip Hbrace.
  set (m := Py.strip_char "," t).
  assert (fence_free ("{" +:+ m +:+ "}")) as Hfree'
    by (by apply fence_free_braced, fence_free_strip_char).
  pose proof (last_char_braced m) as Hlast.
  assert (Py.strip ("{" +:+ m +:+ "}") = "{" +:+ m +:+ "}") as Hstrip'.
  { by apply (strip_id _ "{" "}"). }
  unfold S04.extract_json. simpl. rewrite Hstrip, Hstrip'.
  unfold Re.fenced_object. rewrite !search_fence_free by done.
  rewrite Hbrace. cbn [negb]. rewrite Hstrip. fold m.
  assert (Py.startswith ("{" +:+ m +:+ "}") "{" && Py.endswith_char ("{" +:+ m +:+ "}") "}"
          = true) as ->; [|done].
  unfold Py.endswith_char. by rewrite Hlast.
Qed.

Lemma missing_braces_are_added_witness :
  S04.extract_json (VStr (dq "'technology_class': 'hybrid', 'reason': 'mixed',"))
  = S04.extract_json (VStr (dq "{'technology_class': 'hybrid', 'reason': 'mixed'}")).
Proof.
  apply (missing_braces_are_added (dq "'technology_class': 'hybrid', 'reason': 'mixed',"));
    reflexivity.
Defined.
End RepairFacts.

Section FailureFacts.
Import S01.

Lemma strip_not_text v : not_text v → strip_ v = Raise (no_attribute v "strip").
Proof. intros H. destruct v; try done. by destruct (H s). Qed.

Lemma attempt_not_text scraper row pid url n v :
  row !! "id" = Some v → not_text v →
  ∃ e, attempt scraper row pid url n = Raise e.
Proof.
  intros Hid Hv. unfold attempt. destruct (scraper n) as [e|err final_url data]; [eauto|].
  destruct (negb (String.eqb err "Success")); [eauto|].
  unfold normalize_id, get. rewrite Hid, (strip_not_text v Hv). simpl. eauto.
Qed.

(** X26. For a row whose id is not a text, a number for instance,
    [process_row] never returns a scraped record: whatever the scraper
    answers, the record returned holds an [error]. *)
Theorem numbered_id_is_never_scraped (scraper : nat -> scrape) (row : dict) (v : value)
    (r : option dict) (log : list event) :
  row !! "id" = Some v → not_text v →
  process_row scraper row = Ok (r, log) →
  ∃ d, r = Some d ∧ is_Some (d !! "error").
Proof.
  intros Hid Hv. unfold process_row.
  destruct (get_csv_patent_id row) as [pid|]; [simpl|done].
  destruct (strip_ (get row "result link" (VStr ""))) as [url|]; [simpl|done].
  assert (∀ fields e, is_Some (error_row pid (fields ++ [("error", e)]) !! "error")) as Herr.
  { intros fields e. unfold error_row.
    change (("id", VStr pid) :: fields ++ [("error", e)])
      with ((("id", VStr pid) :: fields) ++ [("error", e)]).
    generalize (("id", VStr pid) :: fields). intros l.
    induction l as [|[k x] l IH]; cbn [app list_to_map foldr uncurry fst snd].
    - by rewrite lookup_insert_eq.
    - destruct (decide (k = "error")) as [->|Hne].
      + by rewrite lookup_insert_eq.
      + by rewrite lookup_insert_ne. }
  destruct (negb (Py.nonempty url) || negb (Py.nonempty pid)).
  { intros [= <- <-]. eexists. split; [done|]. apply (Herr []). }
  destruct (attempt_not_text scraper row pid url 1 v Hid Hv) as [e1 H1].
  destruct (attempt_not_text scraper row pid url 2 v Hid Hv) as [e2 H2].
  destruct (attempt_not_text scraper row pid url 3 v Hid Hv) as [e3 H3].
  simpl. rewrite H1. simpl. rewrite H2. simpl. rewrite H3. simpl.
  intros [= <- <-]. eexists. split; [done|]. apply (Herr [("url", VStr url)]).
Qed.

Lemma numbered_id_is_never_scraped_witness :
  ∃ d, Some (error_row "5" [("url", VStr "https://patents.google.com/patent/US5/en");
                            ("error", VStr "'int' object has no attribute 'strip'")])
       = Some d ∧ is_Some (d !! "error").
Proof.
  apply (numbered_id_is_never_scraped always_scraped numbered_row (VInt 5) _
           [Call 1%nat; Sleep 2; Call 2%nat; Sleep 4; Call 3%nat]).
  - reflexivity.
  - intros s. discriminate.
  - vm_compute. reflexivity.
Defined.

Lemma scan_entry_not_text p entry v :
  entry !! "original_id" = Some v → Value.truthy v = true → not_text v →
  ∃ e, scan_entry p entry = Raise e.
Proof.
  intros He Ht Hv. unfold scan_entry, get. rewrite He, Ht.
  unfold normalize_id. rewrite (strip_not_text v Hv). simpl. eauto.
Qed.

(** X27. [load_processed_ids] raises when a record of a chunk holds an
    [original_id] that is truthy and not a text. *)
Theorem load_fails_on_numbered_original_id (fd : folder) (i : Z) (arr : list dict)
    (entry : dict) (v : value) :
  chunks fd !! i = Some (Parsed arr) → entry ∈ arr →
  entry !! "original_id" = Some v → Value.truthy v = true → not_text v →
  ∃ e, load_processed_ids fd = Raise e.
Proof.
  intros Hi Hin He Ht Hv.
  destruct (load_processed_ids fd) as [s|e] eqn:Hload; [exfalso|eauto].
  apply load_processed_ids_Ok in Hload.
  eapply scan_files_perm in Hload; [|symmetry; by apply map_to_list_delete].
  apply scan_files_cons_Ok in Hload as (K & HK & _). simpl in HK.
  apply list_elem_of_split in Hin as (a & b & ->).
  apply scan_entries_app_Ok in HK as (Ka & Kb & _ & Hb & _).
  simpl in Hb. destruct (scan_entry_not_text ∅ entry v He Ht Hv) as [e Hraise].
  by rewrite Hraise in Hb.
Qed.

Lemma load_fails_on_numbered_original_id_witness :
  ∃ e, load_processed_ids numbered_store = Raise e.
Proof.
  apply (load_fails_on_numbered_original_id numbered_store 0
           [entry "US-1"; {[ "original_id" := VInt 5 ]}] {[ "original_id" := VInt 5 ]}
           (VInt 5)).
  - reflexivity.
  - set_solver.
  - reflexivity.
  - reflexivity.
  - intros s. discriminate.
Defined.

Lemma with_abstract_not_text records i r v :
  records !! i = Some r → r !! "abstract_text" = Some v → not_text v →
  ∃ e, S02.with_abstract records = Raise e.
Proof.
  revert i. induction records as [|x records IH]; intros i; [done|].
  destruct i as [|i]; simpl.
  - intros [= ->] Hv Hnt. unfold get. rewrite Hv, (strip_not_text v Hnt). simpl. eauto.
  - intros Hi Hv Hnt. destruct (strip_ _); simpl; [|eauto].
    destruct (IH i Hi Hv Hnt) as [e ->]. simpl. eauto.
Qed.

(** X28. One record whose [abstract_text] is not a text, a null for
    instance, makes [main] of script 02 raise before any record is
    classified. *)
Theorem one_null_abstract_stops_the_stage (shutdown_at : nat -> bool)
    (client : nat -> nat -> reply) (records : list dict) (i : nat) (r : dict) (v : value) :
  records !! i = Some r → r !! "abstract_text" = Some v → not_text v →
  ∃ e, S02.main shutdown_at client records = Raise e.
Proof.
  intros Hi Hv Hnt. unfold S02.main.
  destruct (with_abstract_not_text records i r v Hi Hv Hnt) as [e ->]. simpl. eauto.
Qed.

Lemma one_null_abstract_stops_the_stage_witness :
  ∃ e, S02.main shutdown_from_2 four_clients null_abstract = Raise e.
Proof.
  apply (one_null_abstract_stops_the_stage shutdown_from_2 four_clients null_abstract 1
           {[ "abstract_text" := VNone ]} VNone).
  - reflexivity.
  - reflexivity.
  - intros s. discriminate.
Defined.

End FailureFacts.

(** ** Shutdown *)

Section ShutdownFacts.
Import S04 Loop04.






End ShutdownFacts.
